(** * Cartago Resiliente: the seismic viewer's core, embedded in Rocq

    The repository holds two variants of [app.js]: the geographic map
    ([GeoMap], the first listing) and the floating planet ([Planet], the
    second).  Both share the loader, the depth/magnitude mappings, the
    particle engine and the four-mode controller; they differ in constants,
    in the projection and in a few details that are spelled out below.

    Modelling conventions.
    - A JavaScript number is a [number]: NaN, a signed infinity, or a finite
      value held as an exact rational.  Comparisons follow IEEE 754 exactly
      (every comparison with NaN is false).  Finite arithmetic is exact:
      rounding to binary64, overflow and the sign of zero are not modelled.
    - A JavaScript string is the list of its UTF-16 code units.
    - The host (timers, animation frames, the clock, [Math.random],
      [Math.sin], [Math.cos], [THREE.Color]) is explicit: pending callbacks
      are data in the state, the clock reading comes with each event and the
      library functions are the fields of a [Platform].
    - Camera, DOM and scene-graph decoration are outside the model. *)

From Stdlib Require Import QArith Qround ZArith Lqa Lia String Ascii Bool.
From stdpp Require Import base list option.

(* ------------------------------------------------------------------ *)
(** ** JavaScript numbers *)

Inductive number : Type :=
| NaN
| Inf (negative : bool)
| Fin (value : Q).

Definition Qltb (a b : Q) : bool := negb (Qle_bool b a).

(** Truncation toward zero, as the remainder operator needs it. *)
Definition Qtrunc (q : Q) : Z :=
  if Qltb q 0 then Qceiling q else Qfloor q.

Module Num.

Definition sign (q : Q) : bool := Qltb q 0.

Definition neg (x : number) : number :=
  match x with
  | NaN => NaN
  | Inf s => Inf (negb s)
  | Fin a => Fin (- a)
  end.

Definition add (x y : number) : number :=
  match x, y with
  | NaN, _ | _, NaN => NaN
  | Inf s, Inf t => if Bool.eqb s t then Inf s else NaN
  | Inf s, Fin _ => Inf s
  | Fin _, Inf t => Inf t
  | Fin a, Fin b => Fin (a + b)
  end.

Definition sub (x y : number) : number := add x (neg y).

Definition mul (x y : number) : number :=
  match x, y with
  | NaN, _ | _, NaN => NaN
  | Inf s, Inf t => Inf (xorb s t)
  | Inf s, Fin b => if Qeq_bool b 0 then NaN else Inf (xorb s (sign b))
  | Fin a, Inf t => if Qeq_bool a 0 then NaN else Inf (xorb (sign a) t)
  | Fin a, Fin b => Fin (a * b)
  end.

(** A finite zero divisor is taken as [+0]. *)
Definition div (x y : number) : number :=
  match x, y with
  | NaN, _ | _, NaN => NaN
  | Inf _, Inf _ => NaN
  | Inf s, Fin b => Inf (xorb s (sign b))
  | Fin _, Inf _ => Fin 0
  | Fin a, Fin b =>
      if Qeq_bool b 0
      then (if Qeq_bool a 0 then NaN else Inf (sign a))
      else Fin (a / b)
  end.

(** [x % y]: the remainder has the sign of the dividend. *)
Definition rem (x y : number) : number :=
  match x, y with
  | NaN, _ | _, NaN => NaN
  | Inf _, _ => NaN
  | Fin a, Inf _ => Fin a
  | Fin a, Fin b =>
      if Qeq_bool b 0 then NaN
      else Fin (a - b * inject_Z (Qtrunc (a / b)))
  end.

(** [x < y] *)
Definition ltb (x y : number) : bool :=
  match x, y with
  | NaN, _ | _, NaN => false
  | Inf s, Inf t => s && negb t
  | Inf s, Fin _ => s
  | Fin _, Inf t => negb t
  | Fin a, Fin b => Qltb a b
  end.

(** [x <= y] *)
Definition leb (x y : number) : bool :=
  match x, y with
  | NaN, _ | _, NaN => false
  | Inf s, Inf t => s || negb t
  | Inf s, Fin _ => s
  | Fin _, Inf t => negb t
  | Fin a, Fin b => Qle_bool a b
  end.

(** [x > y] and [x >= y] *)
Definition gtb (x y : number) : bool := ltb y x.
Definition geb (x y : number) : bool := leb y x.

(** [Math.min(x, y)] *)
Definition min (x y : number) : number :=
  match x, y with
  | NaN, _ | _, NaN => NaN
  | _, _ => if ltb y x then y else x
  end.

(** [Math.floor(x)] *)
Definition floor (x : number) : number :=
  match x with
  | Fin a => Fin (inject_Z (Qfloor a))
  | _ => x
  end.

Definition of_Z (z : Z) : number := Fin (inject_Z z).
Definition of_nat (n : nat) : number := of_Z (Z.of_nat n).

(** Numeric equality up to the representation of the rational. *)
Definition eqv (x y : number) : Prop :=
  match x, y with
  | NaN, NaN => True
  | Inf s, Inf t => s = t
  | Fin a, Fin b => (a == b)%Q
  | _, _ => False
  end.

Definition finite (x : number) : Prop :=
  match x with Fin _ => True | _ => False end.

End Num.

Declare Scope num_scope.
Delimit Scope num_scope with num.
Bind Scope num_scope with number.
Infix "+" := Num.add : num_scope.
Infix "-" := Num.sub : num_scope.
Infix "*" := Num.mul : num_scope.
Infix "/" := Num.div : num_scope.
Infix "mod" := Num.rem : num_scope.
Notation "- x" := (Num.neg x) : num_scope.
Infix "<?" := Num.ltb : num_scope.
Infix "<=?" := Num.leb : num_scope.
Infix ">?" := Num.gtb : num_scope.
Infix ">=?" := Num.geb : num_scope.

(** [Math.PI] is the binary64 number nearest to pi; its value is exact. *)
Definition Math_PI : number := Fin (884279719003555 # 281474976710656).

(* ------------------------------------------------------------------ *)
(** ** Depth and magnitude mappings *)

Inductive Variant : Type := GeoMap | Planet.

(** [getColorByDepth(depth)], identical in both variants. *)
Definition getColorByDepth (depth : number) : Z :=
  if (depth <? Fin 20)%num then 0xff4444%Z
  else if (depth <? Fin 60)%num then 0xffaa00%Z
  else 0x4444ff%Z.

(** The [size] computed in [createEarthquakeMarkers]:
    [0.3 + (magnitud / 3.4) * 0.8] on the map,
    [0.08 + (magnitud / 3.4) * 0.25] on the planet. *)
Definition markerSize (v : Variant) (magnitud : number) : number :=
  match v with
  | GeoMap => (Fin 0.3 + (magnitud / Fin 3.4) * Fin 0.8)%num
  | Planet => (Fin 0.08 + (magnitud / Fin 3.4) * Fin 0.25)%num
  end.

(* ------------------------------------------------------------------ *)
(** ** JavaScript strings *)

(** A string is the list of its UTF-16 code units. *)
Definition JSString : Type := list N.

(** An ASCII literal as a JavaScript string. *)
Definition lit (s : string) : JSString :=
  map N_of_ascii (list_ascii_of_string s).

(** WhiteSpace and LineTerminator code units, as [trim] and [parseFloat]
    strip them. *)
Definition isWhiteSpace (c : N) : bool :=
  existsb (N.eqb c)
    [9; 10; 11; 12; 13; 32; 160; 5760; 8232; 8233; 8239; 8287; 12288; 65279]%N
  || ((8192 <=? c)%N && (c <=? 8202)%N).

Fixpoint trimStart (s : JSString) : JSString :=
  match s with
  | c :: r => if isWhiteSpace c then trimStart r else s
  | [] => []
  end.

Definition trimEnd (s : JSString) : JSString := rev (trimStart (rev s)).

(** [s.trim()] *)
Definition trim (s : JSString) : JSString := trimEnd (trimStart s).

(** [s.split(sep)] for a one-unit separator: always at least one piece. *)
Fixpoint split (sep : N) (s : JSString) : list JSString :=
  match s with
  | [] => [[]]
  | c :: r =>
      if (c =? sep)%N then [] :: split sep r
      else match split sep r with
           | piece :: pieces => (c :: piece) :: pieces
           | [] => [[c]]
           end
  end.

(** Truthiness of a string: it is not empty. *)
Definition truthy (s : JSString) : bool :=
  match s with [] => false | _ :: _ => true end.

Definition isDigit (c : N) : bool := (48 <=? c)%N && (c <=? 57)%N.

(** The longest run of decimal digits at the head, and what follows it. *)
Fixpoint spanDigits (s : JSString) : list N * JSString :=
  match s with
  | c :: r =>
      if isDigit c then let '(ds, rest) := spanDigits r in (c :: ds, rest)
      else ([], s)
  | [] => ([], [])
  end.

Definition digitsValue (ds : list N) : Z :=
  fold_left (fun acc d => (10 * acc + Z.of_N (d - 48))%Z) ds 0%Z.

Fixpoint startsWith (p s : JSString) : bool :=
  match p, s with
  | [], _ => true
  | a :: p', b :: s' => (a =? b)%N && startsWith p' s'
  | _ :: _, [] => false
  end.

(** The value of an ExponentPart at the head ([e] or [E], an optional sign,
    at least one digit); 0 when there is none. *)
Definition exponentPart (s : JSString) : Z :=
  match s with
  | c :: r =>
      if (c =? 101)%N || (c =? 69)%N then
        let '(negative, r') :=
          match r with
          | s0 :: r0 =>
              if (s0 =? 43)%N then (false, r0)
              else if (s0 =? 45)%N then (true, r0)
              else (false, r)
          | [] => (false, r)
          end in
        match fst (spanDigits r') with
        | [] => 0%Z
        | ds => if negative then (- digitsValue ds)%Z else digitsValue ds
        end
      else 0%Z
  | [] => 0%Z
  end.

(** The longest prefix that is a StrUnsignedDecimalLiteral, as its value:
    [Infinity], or digits with an optional fraction and exponent. *)
Definition unsignedLiteral (s : JSString) : option number :=
  if startsWith (lit "Infinity") s then Some (Inf false)
  else
    let '(int, r1) := spanDigits s in
    let '(frac, r2) :=
      match r1 with
      | 46%N :: r =>
          let '(fs, r') := spanDigits r in
          match int, fs with
          | [], [] => ([], r1)
          | _, _ => (fs, r')
          end
      | _ => ([], r1)
      end in
    match int, frac with
    | [], [] => None
    | _, _ =>
        Some (Fin (inject_Z (digitsValue (int ++ frac))
                   / inject_Z (10 ^ Z.of_nat (length frac))
                   * Qpower 10 (exponentPart r2)))
    end.

(** [parseFloat(arg)]; [None] is [undefined], whose string is "undefined". *)
Definition parseFloat (arg : option JSString) : number :=
  let s := trimStart (match arg with Some s => s | None => lit "undefined" end) in
  let '(negative, r) :=
    match s with
    | 43%N :: r => (false, r)
    | 45%N :: r => (true, r)
    | _ => (false, s)
    end in
  match unsignedLiteral r with
  | Some n => if negative then Num.neg n else n
  | None => NaN
  end.

Example parseFloat_latitude :
  Num.eqv (parseFloat (Some (lit "4.75"))) (Fin 4.75).
Proof. vm_compute. reflexivity. Qed.

Example parseFloat_longitude :
  Num.eqv (parseFloat (Some (lit " -75.91 km"))) (Fin (-75.91)).
Proof. vm_compute. reflexivity. Qed.

Example parseFloat_exponent :
  Num.eqv (parseFloat (Some (lit "12.5e-1x"))) (Fin 1.25).
Proof. vm_compute. reflexivity. Qed.

Example parseFloat_malformed :
  parseFloat (Some (lit "n/a")) = NaN /\ parseFloat (Some []) = NaN /\
  parseFloat None = NaN /\ parseFloat (Some (lit ".")) = NaN.
Proof. repeat split; vm_compute; reflexivity. Qed.

Example split_example :
  split 59 (lit "a;;b") = [lit "a"; []; lit "b"].
Proof. reflexivity. Qed.

Fixpoint strEqb (a b : JSString) : bool :=
  match a, b with
  | [], [] => true
  | c :: a', d :: b' => (c =? d)%N && strEqb a' b'
  | _, _ => false
  end.

(* ------------------------------------------------------------------ *)
(** ** Data model *)

Module Vector3.
Record t : Type := mk { x : number; y : number; z : number }.
Definition set_y (v : number) (p : t) : t := mk (x p) v (z p).
End Vector3.

(** One row of the table, as the loader builds it.  A missing column is
    [undefined], here [None]. *)
Module Quake.
Record t : Type := mk {
  id : option JSString;
  fecha : option JSString;
  hora : option JSString;
  latitud : number;
  longitud : number;
  profundidad : number;
  magnitud : number;
  departamento : option JSString;
  municipio : option JSString
}.
End Quake.

(** A marker mesh: its transform and material, and its [userData]. *)
Module Marker.
Record t : Type := mk {
  position : Vector3.t;
  scale : Vector3.t;
  opacity : number;                (* material.opacity *)
  color : Z;                       (* material.color *)
  radius : number;                 (* SphereGeometry(size, 16, 16) *)
  quake : Quake.t;                 (* userData.quake *)
  originalColor : Z;
  originalScale : number;
  originalPosition : Vector3.t;
  depthLine : option number        (* userData.depthLine.material.opacity; the map only *)
}.

Definition set_position (p : Vector3.t) (m : t) : t :=
  mk p (scale m) (opacity m) (color m) (radius m) (quake m)
     (originalColor m) (originalScale m) (originalPosition m) (depthLine m).
Definition set_scale (s : number) (m : t) : t :=
  mk (position m) (Vector3.mk s s s) (opacity m) (color m) (radius m) (quake m)
     (originalColor m) (originalScale m) (originalPosition m) (depthLine m).
Definition set_opacity (o : number) (m : t) : t :=
  mk (position m) (scale m) o (color m) (radius m) (quake m)
     (originalColor m) (originalScale m) (originalPosition m) (depthLine m).
(** [marker.userData.depthLine.material.opacity = o] *)
Definition set_line (o : number) (m : t) : t :=
  mk (position m) (scale m) (opacity m) (color m) (radius m) (quake m)
     (originalColor m) (originalScale m) (originalPosition m)
     (match depthLine m with Some _ => Some o | None => None end).

Definition hasLine (m : t) : bool :=
  match depthLine m with Some _ => true | None => false end.

(** What is assigned at creation and read ever after: colour, geometry,
    [userData] fields, and whether there is a depth line. *)
Definition Fixed : Type := Z * number * Quake.t * Z * number * Vector3.t * bool.
Definition fixed (m : t) : Fixed :=
  (color m, radius m, quake m, originalColor m, originalScale m,
   originalPosition m, hasLine m).
End Marker.

(** A burst: a [THREE.Points] with its attribute arrays and [userData]. *)
Module Particles.
Record t : Type := mk {
  positions : list number;
  colors : list number;
  velocities : list number;
  life : number;
  opacity : number
}.
End Particles.

(** The closures the application hands to the host.  A closure's captured
    marker is named by its index in [earthquakeMarkers]. *)
Inductive Callback : Type :=
| HistoryTick
| Pulse (marker : nat) (startTime : Z) (duration : number)
| ChaosBurst (marker : nat)
| FallStart (marker : nat) (startY : option number) (fallDuration : number)
| Fall (marker : nat) (startTime : Z) (startY targetY fallDuration : number)
| DoubleClickBurst
| Animate.

Record Timer : Type := mkTimer {
  timerId : positive;
  repeats : bool;
  delay : number;
  callback : Callback
}.

(** What the application does to its collaborators, in order. *)
Inductive Effect : Type :=
| ConsoleLog (loaded : nat)
| ConsoleError
| SceneAdd (p : Particles.t)
| Dispose (p : Particles.t)      (* scene.remove, geometry.dispose, material.dispose *)
| Confetti (marker : nat)
| Achievement
| Uncaught.                      (* a TypeError escapes the running callback *)

Record App : Type := mkApp {
  earthquakes : list Quake.t;
  earthquakeMarkers : list Marker.t;
  particleSystems : list Particles.t;
  hoveredMarker : option nat;
  currentMode : JSString;
  clickCount : nat;
  modeInterval : option positive;
  historyIndex : nat;
  lastTime : Z;
  (* the host *)
  timers : list Timer;
  frameRequests : list Callback;
  nextTimerId : positive;
  randomCalls : nat;
  effects : list Effect;
  hung : bool                      (* a loop of the application never ends *)
}.

(** Field updates. *)
Definition with_earthquakes v (a : App) : App :=
  mkApp v (earthquakeMarkers a) (particleSystems a) (hoveredMarker a)
    (currentMode a) (clickCount a) (modeInterval a) (historyIndex a)
    (lastTime a) (timers a) (frameRequests a) (nextTimerId a) (randomCalls a)
    (effects a) (hung a).
Definition with_earthquakeMarkers v (a : App) : App :=
  mkApp (earthquakes a) v (particleSystems a) (hoveredMarker a)
    (currentMode a) (clickCount a) (modeInterval a) (historyIndex a)
    (lastTime a) (timers a) (frameRequests a) (nextTimerId a) (randomCalls a)
    (effects a) (hung a).
Definition with_particleSystems v (a : App) : App :=
  mkApp (earthquakes a) (earthquakeMarkers a) v (hoveredMarker a)
    (currentMode a) (clickCount a) (modeInterval a) (historyIndex a)
    (lastTime a) (timers a) (frameRequests a) (nextTimerId a) (randomCalls a)
    (effects a) (hung a).
Definition with_hoveredMarker v (a : App) : App :=
  mkApp (earthquakes a) (earthquakeMarkers a) (particleSystems a) v
    (currentMode a) (clickCount a) (modeInterval a) (historyIndex a)
    (lastTime a) (timers a) (frameRequests a) (nextTimerId a) (randomCalls a)
    (effects a) (hung a).
Definition with_currentMode v (a : App) : App :=
  mkApp (earthquakes a) (earthquakeMarkers a) (particleSystems a)
    (hoveredMarker a) v (clickCount a) (modeInterval a) (historyIndex a)
    (lastTime a) (timers a) (frameRequests a) (nextTimerId a) (randomCalls a)
    (effects a) (hung a).
Definition with_clickCount v (a : App) : App :=
  mkApp (earthquakes a) (earthquakeMarkers a) (particleSystems a)
    (hoveredMarker a) (currentMode a) v (modeInterval a) (historyIndex a)
    (lastTime a) (timers a) (frameRequests a) (nextTimerId a) (randomCalls a)
    (effects a) (hung a).
Definition with_modeInterval v (a : App) : App :=
  mkApp (earthquakes a) (earthquakeMarkers a) (particleSystems a)
    (hoveredMarker a) (currentMode a) (clickCount a) v (historyIndex a)
    (lastTime a) (timers a) (frameRequests a) (nextTimerId a) (randomCalls a)
    (effects a) (hung a).
Definition with_historyIndex v (a : App) : App :=
  mkApp (earthquakes a) (earthquakeMarkers a) (particleSystems a)
    (hoveredMarker a) (currentMode a) (clickCount a) (modeInterval a) v
    (lastTime a) (timers a) (frameRequests a) (nextTimerId a) (randomCalls a)
    (effects a) (hung a).
Definition with_lastTime v (a : App) : App :=
  mkApp (earthquakes a) (earthquakeMarkers a) (particleSystems a)
    (hoveredMarker a) (currentMode a) (clickCount a) (modeInterval a)
    (historyIndex a) v (timers a) (frameRequests a) (nextTimerId a)
    (randomCalls a) (effects a) (hung a).
Definition with_timers v (a : App) : App :=
  mkApp (earthquakes a) (earthquakeMarkers a) (particleSystems a)
    (hoveredMarker a) (currentMode a) (clickCount a) (modeInterval a)
    (historyIndex a) (lastTime a) v (frameRequests a) (nextTimerId a)
    (randomCalls a) (effects a) (hung a).
Definition with_frameRequests v (a : App) : App :=
  mkApp (earthquakes a) (earthquakeMarkers a) (particleSystems a)
    (hoveredMarker a) (currentMode a) (clickCount a) (modeInterval a)
    (historyIndex a) (lastTime a) (timers a) v (nextTimerId a) (randomCalls a)
    (effects a) (hung a).
Definition with_nextTimerId v (a : App) : App :=
  mkApp (earthquakes a) (earthquakeMarkers a) (particleSystems a)
    (hoveredMarker a) (currentMode a) (clickCount a) (modeInterval a)
    (historyIndex a) (lastTime a) (timers a) (frameRequests a) v
    (randomCalls a) (effects a) (hung a).
Definition with_randomCalls v (a : App) : App :=
  mkApp (earthquakes a) (earthquakeMarkers a) (particleSystems a)
    (hoveredMarker a) (currentMode a) (clickCount a) (modeInterval a)
    (historyIndex a) (lastTime a) (timers a) (frameRequests a) (nextTimerId a)
    v (effects a) (hung a).
Definition with_effects v (a : App) : App :=
  mkApp (earthquakes a) (earthquakeMarkers a) (particleSystems a)
    (hoveredMarker a) (currentMode a) (clickCount a) (modeInterval a)
    (historyIndex a) (lastTime a) (timers a) (frameRequests a) (nextTimerId a)
    (randomCalls a) v (hung a).
Definition with_hung v (a : App) : App :=
  mkApp (earthquakes a) (earthquakeMarkers a) (particleSystems a)
    (hoveredMarker a) (currentMode a) (clickCount a) (modeInterval a)
    (historyIndex a) (lastTime a) (timers a) (frameRequests a) (nextTimerId a)
    (randomCalls a) (effects a) v.

Definition log (e : Effect) (a : App) : App :=
  with_effects (effects a ++ [e]) a.

(** Code after a call runs only if the call returned. *)
Definition andThen (a : App) (k : App -> App) : App :=
  if hung a then a else k a.

(** [this.earthquakeMarkers[i]] updated in place. *)
Definition updateMarker (i : nat) (f : Marker.t -> Marker.t) (a : App) : App :=
  with_earthquakeMarkers (alter f i (earthquakeMarkers a)) a.

(* ------------------------------------------------------------------ *)
(** ** The host: timers, animation frames, library functions *)

Class Platform : Type := {
  Math_sin : number -> number;
  Math_cos : number -> number;
  (** the result of the n-th call of [Math.random] *)
  Math_random : nat -> Q;
  (** the [r], [g], [b] of [new THREE.Color(hex)] *)
  Color_rgb : Z -> number * number * number
}.

(** [Math.random] returns a number in [0, 1). *)
Definition random_in_range (host : Platform) : Prop :=
  forall n, (0 <= Math_random n < 1)%Q.

Definition setTimeout (cb : Callback) (ms : number) (a : App) : App :=
  with_nextTimerId (Pos.succ (nextTimerId a))
    (with_timers (timers a ++ [mkTimer (nextTimerId a) false ms cb]) a).

(** [setInterval] returns the new handle. *)
Definition setInterval (cb : Callback) (ms : number) (a : App) : positive * App :=
  (nextTimerId a,
   with_nextTimerId (Pos.succ (nextTimerId a))
     (with_timers (timers a ++ [mkTimer (nextTimerId a) true ms cb]) a)).

Definition clearInterval (id : positive) (a : App) : App :=
  with_timers (List.filter (fun t => negb (timerId t =? id)%positive) (timers a)) a.

Definition requestAnimationFrame (cb : Callback) (a : App) : App :=
  with_frameRequests (frameRequests a ++ [cb]) a.

Definition random {host : Platform} (a : App) : Q * App :=
  (Math_random (randomCalls a), with_randomCalls (S (randomCalls a)) a).

(* ------------------------------------------------------------------ *)
(** ** Loading and scene build *)

(** [latLngToXZ] of the map, with its [geoBounds] and [mapScale]. *)
Definition latLngToXZ (lat lng : number) : number * number :=
  let minLat := Fin 4.61 in
  let maxLat := Fin 4.82 in
  let minLng := Fin (-76.01) in
  let maxLng := Fin (-75.82) in
  let mapScale := Fin 100 in
  let normLat := ((lat - minLat) / (maxLat - minLat))%num in
  let normLng := ((lng - minLng) / (maxLng - minLng))%num in
  (((normLng - Fin 0.5) * mapScale)%num,
   ((- (normLat - Fin 0.5)) * mapScale)%num).

Definition depthToY (depth : number) : number :=
  ((- (depth / Fin 150)) * Fin 50)%num.

(** What [await fetch(...)] then [await response.text()] come to. *)
Inductive Fetched : Type :=
| Rejected
| Resolved (text : JSString).

(** The body of the [map] callback: one record from one line. *)
Definition parseLine (line : JSString) : Quake.t :=
  let parts := split 59 line in
  Quake.mk (parts !! 0%nat) (parts !! 1%nat) (parts !! 2%nat)
    (parseFloat (parts !! 3%nat)) (parseFloat (parts !! 4%nat))
    (parseFloat (parts !! 5%nat)) (parseFloat (parts !! 6%nat))
    (parts !! 7%nat) (parts !! 8%nat).

(** [text.split('\n').slice(1).filter(line => line.trim()).map(...)] *)
Definition parseText (text : JSString) : list Quake.t :=
  map parseLine
    (List.filter (fun line => truthy (trim line)) (drop 1 (split 10 text))).

(** The [try] block: [None] when it throws. *)
Definition tryLoad (r : Fetched) (a : App) : option App :=
  match r with
  | Rejected => None
  | Resolved text =>
      let a := with_earthquakes (parseText text) a in
      Some (log (ConsoleLog (length (earthquakes a))) a)
  end.

(** [loadEarthquakeData]: the [catch] handler only logs. *)
Definition loadEarthquakeData (r : Fetched) (a : App) : App :=
  match tryLoad r a with
  | Some a' => a'
  | None => log ConsoleError a
  end.

Section Application.
Context {host : Platform} (v : Variant).

(** The marker's [position] in [createEarthquakeMarkers]. *)
Definition markerPosition (quake : Quake.t) : Vector3.t :=
  match v with
  | GeoMap =>
      let '(x, z) := latLngToXZ (Quake.latitud quake) (Quake.longitud quake) in
      Vector3.mk x (depthToY (Quake.profundidad quake)) z
  | Planet =>
      let phi := ((Fin 90 - Quake.latitud quake) * (Math_PI / Fin 180))%num in
      let theta := ((Quake.longitud quake + Fin 180) * (Math_PI / Fin 180))%num in
      let radius := Fin 5.15 in
      Vector3.mk (- (radius * Math_sin phi * Math_cos theta))%num
                 (radius * Math_cos phi)%num
                 (radius * Math_sin phi * Math_sin theta)%num
  end.

(** The mesh built for one record. *)
Definition createMarker (quake : Quake.t) : Marker.t :=
  let position := markerPosition quake in
  let color := getColorByDepth (Quake.profundidad quake) in
  let size := markerSize v (Quake.magnitud quake) in
  Marker.mk position (Vector3.mk (Fin 1) (Fin 1) (Fin 1)) (Fin 0.9) color size
    quake color size position
    (match v with GeoMap => Some (Fin 0.3) | Planet => None end).

(** [createEarthquakeMarkers]: one [push] per record. *)
Definition createEarthquakeMarkers (a : App) : App :=
  with_earthquakeMarkers
    (earthquakeMarkers a ++ map createMarker (earthquakes a)) a.

(* ------------------------------------------------------------------ *)
(** ** Particle bursts *)

(** How often the body of [for (let i = 0; i < count; i++)] runs;
    [None] when the loop never ends. *)
Definition loopCount (count : number) : option nat :=
  match count with
  | NaN => Some 0%nat
  | Inf true => Some 0%nat
  | Inf false => None
  | Fin c => Some (Z.to_nat (Qceiling c))
  end.

(** The [speed] drawn for one particle. *)
Definition particleSpeed (r : Q) : number :=
  match v with
  | GeoMap => (Fin 0.15 + Fin r * Fin 0.4)%num
  | Planet => (Fin 0.1 + Fin r * Fin 0.3)%num
  end.

(** The three numbers pushed to [velocities] by the iteration whose first
    [Math.random] call is the [k]-th. *)
Definition particleVelocity (k : nat) : list number :=
  let speed := particleSpeed (Math_random k) in
  let theta := (Fin (Math_random (k + 1)) * Math_PI * Fin 2)%num in
  let phi := (Fin (Math_random (k + 2)) * Math_PI)%num in
  [ (Math_sin phi * Math_cos theta * speed)%num;
    (Math_sin phi * Math_sin theta * speed)%num;
    (Math_cos phi * speed)%num ].

(** The loop of [createParticleExplosion], [n] iterations from random call
    [k] on: the [positions], [velocities] and [colors] arrays. *)
Fixpoint explosionLoop (n k : nat) (position : Vector3.t)
    (rgb : number * number * number)
    : list number * list number * list number :=
  match n with
  | O => ([], [], [])
  | S n' =>
      let '(ps, vs, cs) := explosionLoop n' (k + 3) position rgb in
      ([Vector3.x position; Vector3.y position; Vector3.z position] ++ ps,
       particleVelocity k ++ vs,
       [rgb.1.1; rgb.1.2; rgb.2] ++ cs)
  end.

Definition createParticleExplosion (position : Vector3.t)
    (magnitude depth : number) (a : App) : App :=
  let particleCount := Num.floor (magnitude * Fin 100) in
  let color := Color_rgb (getColorByDepth depth) in
  match loopCount particleCount with
  | None => with_hung true a
  | Some n =>
      let '(positions, velocities, colors) :=
        explosionLoop n (randomCalls a) position color in
      let particles := Particles.mk positions colors velocities (Fin 1) (Fin 1) in
      let a := with_randomCalls (randomCalls a + 3 * n) a in
      let a := log (SceneAdd particles) a in
      with_particleSystems (particleSystems a ++ [particles]) a
  end.

(** The inner loop of [updateParticles]: each position moves by its
    velocity; a missing velocity is [undefined]. *)
Fixpoint movePositions (deltaTime : number) (positions velocities : list number)
    : list number :=
  match positions with
  | [] => []
  | p :: ps =>
      (p + hd NaN velocities * deltaTime * Fin 60)%num
      :: movePositions deltaTime ps (tl velocities)
  end.

(** One system after one frame: moved, aged, its opacity set to its life. *)
Definition ageSystem (deltaTime : number) (system : Particles.t) : Particles.t :=
  let life := (Particles.life system - deltaTime * Fin 0.5)%num in
  Particles.mk
    (movePositions deltaTime (Particles.positions system) (Particles.velocities system))
    (Particles.colors system) (Particles.velocities system) life life.

(** The outer loop of [updateParticles] runs from the last system to the
    first and splices out the spent ones: the systems kept, and the
    disposals in the order they happen. *)
Fixpoint updateSystems (deltaTime : number) (systems : list Particles.t)
    : list Particles.t * list Effect :=
  match systems with
  | [] => ([], [])
  | system :: rest =>
      let '(kept, disposed) := updateSystems deltaTime rest in
      let system' := ageSystem deltaTime system in
      if (Particles.life system' <=? Fin 0)%num
      then (kept, disposed ++ [Dispose system'])
      else (system' :: kept, disposed)
  end.

Definition updateParticles (deltaTime : number) (a : App) : App :=
  let '(kept, disposed) := updateSystems deltaTime (particleSystems a) in
  with_effects (effects a ++ disposed) (with_particleSystems kept a).

(* ------------------------------------------------------------------ *)
(** ** The mode controller *)

Definition isMode (name : string) (a : App) : bool :=
  strEqb (currentMode a) (lit name).

(** [clearModeInterval] (inlined in the map's [setMode]). *)
Definition clearModeInterval (a : App) : App :=
  match modeInterval a with
  | Some id => with_modeInterval None (clearInterval id a)
  | None => a
  end.

(** The body of the reset loop of [setMode]. *)
Definition resetMarker (marker : Marker.t) : Marker.t :=
  let marker := Marker.set_scale (Fin 1) marker in
  let marker := Marker.set_position (Marker.originalPosition marker) marker in
  let marker := Marker.set_opacity (Fin 0.9) marker in
  match v with
  | GeoMap => Marker.set_line (Fin 0.3) marker
  | Planet => marker
  end.

(** [setMode] up to the dispatch on the mode: the interval is cleared, the
    mode stored, every marker reset. *)
Definition enterMode (mode : JSString) (a : App) : App :=
  let a := clearModeInterval a in
  let a := with_currentMode mode a in
  with_earthquakeMarkers (map resetMarker (earthquakeMarkers a)) a.

(** The body of the dimming loops of History mode. *)
Definition dimMarker (marker : Marker.t) : Marker.t :=
  let marker := Marker.set_opacity (Fin 0.1) marker in
  match v with
  | GeoMap => Marker.set_line (Fin 0.05) marker
  | Planet => marker
  end.

Definition revealMarker (marker : Marker.t) : Marker.t :=
  let marker := Marker.set_opacity (Fin 0.9) marker in
  match v with
  | GeoMap => Marker.set_line (Fin 0.5) marker
  | Planet => marker
  end.

Definition startHistoryMode (a : App) : App :=
  let a := with_earthquakeMarkers (map dimMarker (earthquakeMarkers a)) a in
  let a := with_historyIndex 0%nat a in
  let '(id, a) :=
    setInterval HistoryTick (match v with GeoMap => Fin 120 | Planet => Fin 150 end) a in
  with_modeInterval (Some id) a.

(** The callback of the History interval.  (The planet's camera move is
    outside the model.) *)
Definition historyTick (a : App) : App :=
  if (historyIndex a <? length (earthquakeMarkers a))%nat then
    match earthquakeMarkers a !! historyIndex a with
    | Some marker =>
        let a := updateMarker (historyIndex a) revealMarker a in
        let a := createParticleExplosion (Marker.originalPosition marker)
                   (Quake.magnitud (Marker.quake marker))
                   (Quake.profundidad (Marker.quake marker)) a in
        andThen a (fun a => with_historyIndex (S (historyIndex a)) a)
    | None => log Uncaught a
    end
  else
    let a := with_historyIndex 0%nat a in
    with_earthquakeMarkers (map dimMarker (earthquakeMarkers a)) a.

(** The closure [pulse] of Chaos mode, resumed at clock reading [now]. *)
Definition pulse (now : Z) (index : nat) (startTime : Z) (duration : number)
    (a : App) : App :=
  if negb (isMode "chaos" a) then a
  else
    let elapsed := Num.of_Z (now - startTime) in
    let progress := ((elapsed mod duration) / duration)%num in
    let wave := Math_sin (progress * Math_PI)%num in
    let a :=
      match v with
      | GeoMap =>
          updateMarker index
            (fun marker =>
               Marker.set_line (Fin 0.3 + wave * Fin 0.3)%num
                 (Marker.set_scale (Fin 1 + wave * Fin 0.7)%num marker)) a
      | Planet =>
          updateMarker index (Marker.set_scale (Fin 1 + wave * Fin 0.5)%num) a
      end in
    requestAnimationFrame (Pulse index startTime duration) a.

(** The body of the loop of [startChaosMode] for the marker at [index]. *)
Definition chaosMarker (now : Z) (a : App) (index : nat) : App :=
  let startTime := now in
  let '(r, a) := random a in
  let duration := (Fin 500 + Fin r * Fin 500)%num in
  let a := pulse now index startTime duration a in
  let '(r, a) := random a in
  if (Fin r >? Fin 0.95)%num then
    let '(r, a) := random a in
    setTimeout (ChaosBurst index) (Fin r * Fin 3000)%num a
  else a.

Definition startChaosMode (now : Z) (a : App) : App :=
  fold_left (chaosMarker now) (seq 0 (length (earthquakeMarkers a))) a.

(** The delayed burst of Chaos mode. *)
Definition chaosBurst (index : nat) (a : App) : App :=
  match earthquakeMarkers a !! index with
  | Some marker =>
      createParticleExplosion (Marker.originalPosition marker)
        (Quake.magnitud (Marker.quake marker) * Fin 0.5)%num
        (Quake.profundidad (Marker.quake marker)) a
  | None => a
  end.

(** [marker.position.copy(marker.userData.originalPosition)] *)
Definition snapToRest (marker : Marker.t) : Marker.t :=
  Marker.set_position (Marker.originalPosition marker) marker.

Definition set_position_y (y : number) (marker : Marker.t) : Marker.t :=
  Marker.set_position (Vector3.set_y y (Marker.position marker)) marker.

(** The closure [fall] of Rain mode, resumed at clock reading [now]. *)
Definition fall (now : Z) (index : nat) (startTime : Z)
    (startY targetY fallDuration : number) (a : App) : App :=
  match earthquakeMarkers a !! index with
  | Some marker =>
      if negb (isMode "rain" a) then updateMarker index snapToRest a
      else
        let elapsed := Num.of_Z (now - startTime) in
        let progress := Num.min (elapsed / fallDuration) (Fin 1) in
        let eased := (progress * progress)%num in
        let a := updateMarker index
                   (set_position_y (startY + (targetY - startY) * eased)%num) a in
        if (progress >=? Fin 1)%num then
          let a := createParticleExplosion (Marker.originalPosition marker)
                     (Quake.magnitud (Marker.quake marker))
                     (Quake.profundidad (Marker.quake marker)) a in
          andThen a (updateMarker index snapToRest)
        else requestAnimationFrame (Fall index startTime startY targetY fallDuration) a
  | None => a
  end.

(** The timeout that starts a fall.  The map's closure captured [startY];
    the planet's [animateMarkerFall] reads [marker.position.y] now. *)
Definition fallStart (now : Z) (index : nat) (captured : option number)
    (fallDuration : number) (a : App) : App :=
  match earthquakeMarkers a !! index with
  | Some marker =>
      let startTime := now in
      let startY :=
        match captured with
        | Some y => y
        | None => Vector3.y (Marker.position marker)
        end in
      let targetY := Vector3.y (Marker.originalPosition marker) in
      fall now index startTime startY targetY fallDuration a
  | None => a
  end.

(** The altitude a marker is lifted to, its fall duration and its delay. *)
Definition rainStartY (index : nat) : number :=
  match v with
  | GeoMap => (Fin 80 + Num.of_nat index * Fin 0.5)%num
  | Planet => (Fin 20 + Num.of_nat index * Fin 0.3)%num
  end.

Definition rainFallDuration (magnitud : number) : number :=
  match v with
  | GeoMap => (Fin 1500 + (magnitud / Fin 3.4) * Fin 1500)%num
  | Planet => (Fin 2000 + (magnitud / Fin 3.4) * Fin 2000)%num
  end.

Definition rainDelay (index : nat) : number :=
  match v with
  | GeoMap => (Num.of_nat index * Fin 30)%num
  | Planet => (Num.of_nat index * Fin 50)%num
  end.

(** The body of the loop of [startRainMode] for the marker at [index]. *)
Definition rainMarker (a : App) (index : nat) : App :=
  match earthquakeMarkers a !! index with
  | Some marker =>
      let startY := rainStartY index in
      let a := updateMarker index (set_position_y startY) a in
      let fallDuration := rainFallDuration (Quake.magnitud (Marker.quake marker)) in
      setTimeout
        (FallStart index (match v with GeoMap => Some startY | Planet => None end)
           fallDuration)
        (rainDelay index) a
  | None => a
  end.

Definition startRainMode (a : App) : App :=
  fold_left rainMarker (seq 0 (length (earthquakeMarkers a))) a.

(** The dispatch that ends [setMode]. *)
Definition startMode (mode : JSString) (now : Z) (a : App) : App :=
  if strEqb mode (lit "history") then startHistoryMode a
  else if strEqb mode (lit "chaos") then startChaosMode now a
  else if strEqb mode (lit "rain") then startRainMode a
  else a.

Definition setMode (mode : JSString) (now : Z) (a : App) : App :=
  startMode mode now (enterMode mode a).

(* ------------------------------------------------------------------ *)
(** ** Interaction and the render loop *)

Definition hoverScale : number :=
  match v with GeoMap => Fin 2 | Planet => Fin 1.8 end.

(** [onMouseMove]; [hit] is the marker of [intersects[0]], if any. *)
Definition onMouseMove (hit : option nat) (a : App) : App :=
  let a :=
    match hoveredMarker a with
    | Some i =>
        let a := updateMarker i (Marker.set_scale (Fin 1)) a in
        let a := match v with
                 | GeoMap => updateMarker i (Marker.set_line (Fin 0.3)) a
                 | Planet => a
                 end in
        with_hoveredMarker None a
    | None => a
    end in
  match hit with
  | Some i =>
      let a := with_hoveredMarker (Some i) a in
      let a := updateMarker i (Marker.set_scale hoverScale) a in
      match v with
      | GeoMap => updateMarker i (Marker.set_line (Fin 0.8)) a
      | Planet => a
      end
  | None => a
  end.

Definition onClick (a : App) : App :=
  match hoveredMarker a with
  | Some i =>
      let a := log (Confetti i) a in
      let a := with_clickCount (S (clickCount a)) a in
      if (10 <=? clickCount a)%nat
      then with_clickCount 0%nat (log Achievement a)
      else a
  | None => a
  end.

(** [onDoubleClick]: the camera move is outside the model; the burst is
    left to a timeout. *)
Definition onDoubleClick (a : App) : App :=
  match hoveredMarker a with
  | Some _ =>
      setTimeout DoubleClickBurst (match v with GeoMap => Fin 1000 | Planet => Fin 1500 end) a
  | None => a
  end.

(** The timeout of [onDoubleClick] reads [this.hoveredMarker] when it
    fires. *)
Definition doubleClickBurst (a : App) : App :=
  match hoveredMarker a with
  | Some i =>
      match earthquakeMarkers a !! i with
      | Some marker =>
          createParticleExplosion (Marker.originalPosition marker)
            (Quake.magnitud (Marker.quake marker) * Fin 2)%num
            (Quake.profundidad (Marker.quake marker)) a
      | None => log Uncaught a
      end
  | None => log Uncaught a
  end.

(** [animate], as far as the application state goes. *)
Definition animate (now : Z) (a : App) : App :=
  let a := requestAnimationFrame Animate a in
  let deltaTime := (Num.of_Z (now - lastTime a) / Fin 1000)%num in
  let a := with_lastTime now a in
  updateParticles deltaTime a.

(** Running a closure at clock reading [now]. *)
Definition runCallback (now : Z) (cb : Callback) (a : App) : App :=
  match cb with
  | HistoryTick => historyTick a
  | Pulse index startTime duration => pulse now index startTime duration a
  | ChaosBurst index => chaosBurst index a
  | FallStart index startY fallDuration => fallStart now index startY fallDuration a
  | Fall index startTime startY targetY fallDuration =>
      fall now index startTime startY targetY fallDuration a
  | DoubleClickBurst => doubleClickBurst a
  | Animate => animate now a
  end.

(** What the host and the user can do to the application.  A timer may be
    fired whenever it is pending; a frame runs the requests queued before
    it, in order. *)
Inductive Event : Type :=
| TimerFires (id : positive) (now : Z)
| Frame (now : Z)
| SetMode (mode : JSString) (now : Z)
| KeyDown (key : option Z) (now : Z)
| MouseMove (hit : option nat)
| Click
| DoubleClick.

Definition fireTimer (id : positive) (now : Z) (a : App) : App :=
  match List.find (fun t => (timerId t =? id)%positive) (timers a) with
  | Some t =>
      let a := if repeats t then a else clearInterval id a in
      runCallback now (callback t) a
  | None => a
  end.

Definition runFrame (now : Z) (a : App) : App :=
  fold_left (fun a cb => andThen a (runCallback now cb))
    (frameRequests a) (with_frameRequests [] a).

(** The [keydown] listener: [key] is [parseInt(e.key)], [None] for NaN.
    (The click it then sends to the mode button arrives as [SetMode].) *)
Definition onKeyDown (key : option Z) (now : Z) (a : App) : App :=
  match key with
  | Some k =>
      if ((1 <=? k) && (k <=? 4))%Z then
        match [lit "explorer"; lit "history"; lit "chaos"; lit "rain"]
                !! Z.to_nat (k - 1) with
        | Some mode => setMode mode now a
        | None => a
        end
      else a
  | None => a
  end.

Definition step (e : Event) (a : App) : App :=
  if hung a then a
  else
    match e with
    | TimerFires id now => fireTimer id now a
    | Frame now => runFrame now a
    | SetMode mode now => setMode mode now a
    | KeyDown key now => onKeyDown key now a
    | MouseMove hit => onMouseMove hit a
    | Click => onClick a
    | DoubleClick => onDoubleClick a
    end.

Definition run (events : list Event) (a : App) : App :=
  fold_left (fun a e => step e a) events a.

(** The fields the constructor assigns. *)
Definition constructor : App :=
  mkApp [] [] [] None (lit "explorer") 0 None 0 0 [] [] 1 0 [] false.

(** [init]: load, build the markers, start the render loop. *)
Definition init (r : Fetched) (now : Z) : App :=
  animate now (createEarthquakeMarkers (loadEarthquakeData r constructor)).

End Application.

(* ================================================================== *)
(** * Properties *)

(** ** Numbers *)

Lemma Qltb_true (a b : Q) : Qltb a b = true <-> (a < b)%Q.
Proof.
  unfold Qltb. rewrite negb_true_iff. split.
  - intros H. apply Qnot_le_lt. intros Hle.
    apply Qle_bool_iff in Hle. congruence.
  - intros H. destruct (Qle_bool b a) eqn:E; [|reflexivity].
    apply Qle_bool_iff in E. exfalso. exact (Qlt_not_le _ _ H E).
Qed.

Lemma Qltb_false (a b : Q) : Qltb a b = false <-> (b <= a)%Q.
Proof.
  unfold Qltb. rewrite negb_false_iff. apply Qle_bool_iff.
Qed.

Lemma inject_Z_sub (x y : Z) : inject_Z (x - y) = (inject_Z x - inject_Z y)%Q.
Proof.
  unfold Z.sub, Qminus. rewrite inject_Z_plus, inject_Z_opp. reflexivity.
Qed.

Lemma ltb_Fin (a b : Q) : (Fin a <? Fin b)%num = true <-> (a < b)%Q.
Proof. apply Qltb_true. Qed.

Lemma leb_Fin (a b : Q) : (Fin a <=? Fin b)%num = true <-> (a <= b)%Q.
Proof. apply Qle_bool_iff. Qed.

(** No comparison holds of NaN. *)
Lemma compare_NaN (x : number) :
  (NaN <? x)%num = false /\ (x <? NaN)%num = false /\
  (NaN <=? x)%num = false /\ (x <=? NaN)%num = false.
Proof. destruct x; repeat split; reflexivity. Qed.

(** ** Depth bands *)

Lemma getColorByDepth_cases (depth : number) :
  getColorByDepth depth =
    if (depth <? Fin 20)%num then 0xff4444%Z
    else if (depth <? Fin 60)%num then 0xffaa00%Z else 0x4444ff%Z.
Proof. reflexivity. Qed.

(** C5. For every finite depth, the colour is the shallow one exactly
    below 20, the middle one exactly from 20 (included) to 60 (excluded),
    and the deep one exactly from 60 (included) on. *)
Theorem getColorByDepth_bands (depth : Q) :
  (getColorByDepth (Fin depth) = 0xff4444%Z <-> (depth < 20)%Q) /\
  (getColorByDepth (Fin depth) = 0xffaa00%Z <-> (20 <= depth)%Q /\ (depth < 60)%Q) /\
  (getColorByDepth (Fin depth) = 0x4444ff%Z <-> (60 <= depth)%Q).
Proof.
  unfold getColorByDepth. simpl.
  destruct (Qltb depth 20) eqn:E20.
  - apply Qltb_true in E20.
    assert (H60 : (depth < 60)%Q) by lra.
    repeat split; intros; try discriminate; try lra; auto.
  - apply Qltb_false in E20.
    destruct (Qltb depth 60) eqn:E60.
    + apply Qltb_true in E60.
      repeat split; intros; try discriminate; try lra; auto.
    + apply Qltb_false in E60.
      repeat split; intros; try discriminate; try lra; auto.
Qed.

Example getColorByDepth_at_20 : getColorByDepth (Fin 20) = 0xffaa00%Z.
Proof. reflexivity. Qed.

Example getColorByDepth_at_60 : getColorByDepth (Fin 60) = 0x4444ff%Z.
Proof. reflexivity. Qed.

Example getColorByDepth_infinite :
  getColorByDepth (Inf false) = 0x4444ff%Z /\ getColorByDepth (Inf true) = 0xff4444%Z.
Proof. split; reflexivity. Qed.

(** ** Marker size *)

Lemma markerSize_Fin (v : Variant) (m : Q) :
  markerSize v (Fin m) =
    match v with
    | GeoMap => Fin (0.3 + m / 3.4 * 0.8)
    | Planet => Fin (0.08 + m / 3.4 * 0.25)
    end.
Proof. destruct v; reflexivity. Qed.

(** The size runs linearly from the floor at magnitude 0 to the ceiling at
    magnitude 3.4. *)
Lemma markerSize_interpolates (v : Variant) (m : Q) :
  let lo := (match v with GeoMap => 0.3 | Planet => 0.08 end)%Q in
  let hi := (match v with GeoMap => 1.1 | Planet => 0.33 end)%Q in
  Num.eqv (markerSize v (Fin m)) (Fin (lo + (hi - lo) * (m / 3.4))) /\
  Num.eqv (markerSize v (Fin 0)) (Fin lo) /\
  Num.eqv (markerSize v (Fin 3.4)) (Fin hi).
Proof.
  destruct v; simpl; repeat split; try reflexivity;
    unfold Qdiv; change (/ 3.4)%Q with (10 # 34)%Q; ring.
Qed.

(** C7. The size of a marker does not decrease when the magnitude grows:
    for all numbers [m1 <= m2] (so neither is NaN), the size computed for
    [m1] is at most the size computed for [m2], in both variants. *)
Theorem markerSize_monotone (v : Variant) (m1 m2 : number) :
  (m1 <=? m2)%num = true ->
  (markerSize v m1 <=? markerSize v m2)%num = true.
Proof.
  intros H.
  destruct m1 as [|s1|a], m2 as [|s2|b]; simpl in H; try discriminate.
  - destruct v, s1, s2; simpl in *; try discriminate; reflexivity.
  - destruct v, s1; simpl in *; try discriminate; reflexivity.
  - destruct v, s2; simpl in *; try discriminate; reflexivity.
  - apply Qle_bool_iff in H. rewrite !markerSize_Fin.
    destruct v; apply leb_Fin; unfold Qdiv;
      change (/ 3.4)%Q with (10 # 34)%Q; lra.
Qed.

Lemma markerSize_monotone_witness :
  (Fin 1 <=? Fin 2)%num = true /\
  (markerSize GeoMap (Fin 1) <=? markerSize GeoMap (Fin 2))%num = true.
Proof.
  split; [reflexivity | apply (markerSize_monotone GeoMap (Fin 1) (Fin 2)); reflexivity].
Defined.

(** ** The loader *)

(** The text whose pieces, separated by [sep], are [pieces]. *)
Fixpoint join (sep : N) (pieces : list JSString) : JSString :=
  match pieces with
  | [] => []
  | [p] => p
  | p :: rest => p ++ sep :: join sep rest
  end.

Definition freeOf (sep : N) (s : JSString) : Prop := Forall (fun c => c <> sep) s.

(** A field is numeric when, after leading white space and an optional
    sign, it starts with [Infinity], a digit, or a point and a digit. *)
Definition startsNumber (s : JSString) : bool :=
  let s := trimStart s in
  let r := match s with
           | 43%N :: r => r
           | 45%N :: r => r
           | _ => s
           end in
  startsWith (lit "Infinity") r ||
  match r with
  | c :: r' =>
      isDigit c ||
      ((c =? 46)%N && match r' with d :: _ => isDigit d | [] => false end)
  | [] => false
  end.

Lemma split_app_sep (sep : N) (s t : JSString) :
  freeOf sep s -> split sep (s ++ sep :: t) = s :: split sep t.
Proof.
  induction 1 as [|c r Hc Hr IH]; simpl.
  - rewrite N.eqb_refl. reflexivity.
  - apply N.eqb_neq in Hc. rewrite Hc, IH. reflexivity.
Qed.

Lemma split_free (sep : N) (s : JSString) :
  freeOf sep s -> split sep s = [s].
Proof.
  induction 1 as [|c r Hc Hr IH]; simpl; [reflexivity|].
  apply N.eqb_neq in Hc. rewrite Hc, IH. reflexivity.
Qed.

Lemma split_join (sep : N) (p : JSString) (rest : list JSString) :
  Forall (freeOf sep) (p :: rest) -> split sep (join sep (p :: rest)) = p :: rest.
Proof.
  revert p. induction rest as [|q rest IH]; intros p H.
  - apply split_free. inversion H; assumption.
  - inversion H as [|? ? Hp Hrest]; subst.
    change (join sep (p :: q :: rest)) with (p ++ sep :: join sep (q :: rest)).
    rewrite split_app_sep by assumption. rewrite IH by assumption. reflexivity.
Qed.

Lemma spanDigits_digit (c : N) (r : JSString) :
  isDigit c = true -> exists ds rest, spanDigits (c :: r) = (c :: ds, rest).
Proof.
  intros H. simpl. rewrite H. destruct (spanDigits r) as [ds rest]. eauto.
Qed.

Lemma spanDigits_other (s : JSString) :
  match s with c :: _ => isDigit c = false | [] => True end ->
  spanDigits s = ([], s).
Proof.
  destruct s as [|c r]; simpl; [reflexivity|]. intros ->. reflexivity.
Qed.

(** An unsigned literal is found exactly at a numeric start. *)
Lemma unsignedLiteral_None (r : JSString) :
  unsignedLiteral r = None <->
  startsWith (lit "Infinity") r = false /\
  match r with
  | c :: r' =>
      isDigit c = false /\
      ((c =? 46)%N = false \/ match r' with d :: _ => isDigit d = false | [] => True end)
  | [] => True
  end.
Proof.
  unfold unsignedLiteral.
  destruct (startsWith (lit "Infinity") r) eqn:EI.
  { split; [discriminate | intros [? _]; discriminate]. }
  destruct r as [|c r'].
  { simpl. split; auto. }
  destruct (isDigit c) eqn:Ec.
  - destruct (spanDigits_digit c r' Ec) as (ds & rest & ->).
    split; [|intros [_ [? _]]; discriminate].
    destruct rest as [|d rest']; [discriminate|].
    destruct d; try discriminate.
    repeat (destruct p; try discriminate).
    destruct (spanDigits rest') as [fs r'']. destruct fs; discriminate.
  - rewrite (spanDigits_other (c :: r')) by exact Ec.
    destruct (N.eqb_spec c 46) as [->|Hne].
    + destruct r' as [|d r''].
      * simpl. split; auto.
      * destruct (isDigit d) eqn:Ed.
        -- destruct (spanDigits_digit d r'' Ed) as (ds & rest & ->).
           split; [discriminate|]. intros (_ & _ & [?|?]); discriminate.
        -- rewrite (spanDigits_other (d :: r'')) by exact Ed.
           split; auto.
    + split; [intros _; auto|intros _].
      destruct c as [|p]; [reflexivity|].
      do 6 (try (destruct p as [p|p|]; try reflexivity)).
      congruence.
Qed.

(** [parseFloat] returns NaN exactly on the fields that are not numeric;
    [undefined] is one of them. *)
Lemma parseFloat_NaN (s : JSString) :
  parseFloat (Some s) = NaN <-> startsNumber s = false.
Proof.
  unfold parseFloat, startsNumber.
  set (t := trimStart s).
  set (r := match t with
            | 43%N :: r => r
            | 45%N :: r => r
            | _ => t
            end).
  assert (E : exists negative,
             match t with
             | 43%N :: r => (false, r)
             | 45%N :: r => (true, r)
             | _ => (false, t)
             end = (negative, r)).
  { subst r. destruct t as [|c t']; [eauto|].
    destruct c; [eauto|]. repeat (destruct p; eauto). }
  destruct E as [negative ->].
  pose proof (unsignedLiteral_None r) as HN.
  destruct (unsignedLiteral r) as [n|] eqn:EU.
  - assert (Hn : n <> NaN).
    { unfold unsignedLiteral in EU.
      destruct (startsWith (lit "Infinity") r); [congruence|].
      destruct (spanDigits r) as [int r1].
      destruct (match r1 with
                | 46%N :: r0 => let '(fs, r') := spanDigits r0 in
                                match int, fs with
                                | [], [] => ([], r1)
                                | _, _ => (fs, r')
                                end
                | _ => ([], r1)
                end) as [frac r2].
      destruct int, frac; congruence. }
    split.
    + intros H. destruct negative, n; simpl in H; congruence.
    + intros H. exfalso.
      assert (HU : Some n <> None) by discriminate.
      apply HU, HN. apply orb_false_iff in H as [H1 H2]. split; [exact H1|].
      destruct r as [|c r']; [exact I|].
      apply orb_false_iff in H2 as [H2 H3]. split; [exact H2|].
      apply andb_false_iff in H3 as [H3|H3]; [left; exact H3|right].
      destruct r'; [exact I | exact H3].
  - split; [intros _|reflexivity].
    destruct HN as [HN _]. destruct (HN eq_refl) as [H1 H2].
    rewrite H1. simpl. destruct r as [|c r']; [reflexivity|].
    destruct H2 as [H2 [H3|H3]]; rewrite H2; simpl.
    + rewrite H3. reflexivity.
    + destruct r'; [apply andb_false_r | rewrite H3; apply andb_false_r].
Qed.

(** A host for worked examples: [Math.random] is given, the trigonometric
    functions are constant (their values at angle 0) and a colour's
    channels are its bytes over 255. *)
Definition exampleHost (rnd : nat -> Q) : Platform :=
  {| Math_sin := fun _ => Fin 0;
     Math_cos := fun _ => Fin 1;
     Math_random := rnd;
     Color_rgb := fun hex =>
       (Fin (inject_Z ((hex / 65536) mod 256) / 255),
        Fin (inject_Z ((hex / 256) mod 256) / 255),
        Fin (inject_Z (hex mod 256) / 255)) |}.

Lemma parseLine_fields (fields : list JSString) :
  fields <> [] -> Forall (freeOf 59) fields ->
  parseLine (join 59 fields) =
    Quake.mk (fields !! 0%nat) (fields !! 1%nat) (fields !! 2%nat)
      (parseFloat (fields !! 3%nat)) (parseFloat (fields !! 4%nat))
      (parseFloat (fields !! 5%nat)) (parseFloat (fields !! 6%nat))
      (fields !! 7%nat) (fields !! 8%nat).
Proof.
  intros Hne Hfree. destruct fields as [|f rest]; [congruence|].
  unfold parseLine. rewrite split_join by assumption. reflexivity.
Qed.

Lemma parseText_rows (header : JSString) (rows : list JSString) :
  Forall (freeOf 10) (header :: rows) ->
  parseText (join 10 (header :: rows)) =
    map parseLine (List.filter (fun row => truthy (trim row)) rows).
Proof.
  intros H. unfold parseText. rewrite split_join by assumption. reflexivity.
Qed.


(** The end-to-end table of three rows: depths 10, 40, 100 and magnitudes
    1.0, 2.0, 3.4 give three markers, one per band, of growing size; the
    blank last line gives none. *)
Example three_row_table :
  let text := join 10 [
    lit "id;fecha;hora;latitud;longitud;profundidad;magnitud;departamento;municipio";
    lit "1;2024-01-01;10:00:00;4.75;-75.91;10;1.0;VALLE;CARTAGO";
    lit "2;2024-01-02;11:00:00;4.70;-75.90;40;2.0;VALLE;CARTAGO";
    lit "3;2024-01-03;12:00:00;4.65;-75.85;100;3.4;VALLE;CARTAGO";
    [] ] in
  let app := @init (exampleHost (fun _ => 0%Q)) GeoMap (Resolved text) 0 in
  map Marker.color (earthquakeMarkers app) = [0xff4444; 0xffaa00; 0x4444ff]%Z /\
  match map Marker.radius (earthquakeMarkers app) with
  | [Fin s1; Fin s2; Fin s3] => (s1 < s2)%Q /\ (s2 < s3)%Q
  | _ => False
  end.
Proof. vm_compute. repeat split; reflexivity. Qed.

(** A row with a malformed depth still gives a record and a marker. *)
Example malformed_depth_row :
  let quake := parseLine (lit "7;2024-01-01;10:00:00;4.75;-75.91;n/a;2.0;VALLE;CARTAGO") in
  Quake.profundidad quake = NaN /\
  Marker.color (@createMarker (exampleHost (fun _ => 0%Q)) GeoMap quake) = 0x4444ff%Z.
Proof. vm_compute. split; reflexivity. Qed.

(** C10. The colour function is total: every number, NaN and the
    infinities included, gets one of the three colours; whenever neither
    [depth < 20] nor [depth < 60] holds the colour is the deep one; both
    comparisons are false of NaN, so NaN gets the deep colour, and so does
    the marker built from a record whose depth is NaN. *)
Theorem getColorByDepth_total (depth : number) :
  (getColorByDepth depth = 0xff4444%Z \/ getColorByDepth depth = 0xffaa00%Z \/
   getColorByDepth depth = 0x4444ff%Z) /\
  ((depth <? Fin 20)%num = false -> (depth <? Fin 60)%num = false ->
   getColorByDepth depth = 0x4444ff%Z) /\
  ((NaN <? Fin 20)%num = false /\ (NaN <? Fin 60)%num = false /\
   getColorByDepth NaN = 0x4444ff%Z) /\
  (forall (host : Platform) (v : Variant) (quake : Quake.t),
     Quake.profundidad quake = NaN ->
     Marker.color (createMarker v quake) = 0x4444ff%Z /\
     Marker.originalColor (createMarker v quake) = 0x4444ff%Z).
Proof.
  split; [|split; [|split]].
  - rewrite getColorByDepth_cases.
    destruct (depth <? Fin 20)%num; [auto|].
    destruct (depth <? Fin 60)%num; auto.
  - intros H20 H60. rewrite getColorByDepth_cases, H20, H60. reflexivity.
  - repeat split.
  - intros host v quake H. unfold createMarker. simpl. rewrite H. split; reflexivity.
Qed.

Section Properties.
Context {host : Platform} (v : Variant).

(** ** Particle bursts *)

Lemma explosionLoop_spec (n k : nat) (position : Vector3.t)
    (rgb : number * number * number) :
  explosionLoop v n k position rgb =
    (concat (replicate n [Vector3.x position; Vector3.y position; Vector3.z position]),
     concat (map (fun i => particleVelocity v (k + 3 * i)) (seq 0 n)),
     concat (replicate n [rgb.1.1; rgb.1.2; rgb.2])).
Proof.
  revert k. induction n as [|n IH]; intros k; [reflexivity|].
  cbn [explosionLoop]. rewrite IH. cbn [replicate concat seq map].
  rewrite Nat.mul_0_r, Nat.add_0_r. do 2 f_equal.
  rewrite <- seq_shift, map_map. do 2 f_equal.
  apply map_ext. intros i. f_equal. lia.
Qed.

(** The burst of [n] particles whose first [Math.random] call is the
    [k]-th. *)
Definition burstWith (n k : nat) (position : Vector3.t) (depth : number)
    : Particles.t :=
  let rgb := Color_rgb (getColorByDepth depth) in
  Particles.mk
    (concat (replicate n [Vector3.x position; Vector3.y position; Vector3.z position]))
    (concat (replicate n [rgb.1.1; rgb.1.2; rgb.2]))
    (concat (map (fun i => particleVelocity v (k + 3 * i)) (seq 0 n)))
    (Fin 1) (Fin 1).

(** The number of particles a magnitude gives, when the loop ends. *)
Definition burstCount (magnitude : number) : nat :=
  match loopCount (Num.floor (magnitude * Fin 100)) with
  | Some n => n
  | None => 0
  end.

Lemma burstCount_Fin (m : Q) : burstCount (Fin m) = Z.to_nat (Qfloor (m * 100)).
Proof. unfold burstCount. cbn. rewrite Qceiling_Z. reflexivity. Qed.

Lemma loopCount_burstCount (magnitude : number) :
  magnitude <> Inf false ->
  loopCount (Num.floor (magnitude * Fin 100)) = Some (burstCount magnitude).
Proof.
  intros H. unfold burstCount.
  destruct magnitude as [|[|]|m]; try reflexivity. congruence.
Qed.

(** The loop ends unless the magnitude is [+Infinity]. *)
Lemma createParticleExplosion_returns (position : Vector3.t)
    (magnitude depth : number) (a : App) :
  magnitude <> Inf false ->
  let p := burstWith (burstCount magnitude) (randomCalls a) position depth in
  createParticleExplosion v position magnitude depth a =
    with_particleSystems (particleSystems a ++ [p])
      (log (SceneAdd p)
         (with_randomCalls (randomCalls a + 3 * burstCount magnitude) a)).
Proof.
  intros H. unfold createParticleExplosion, burstWith.
  rewrite (loopCount_burstCount magnitude H), explosionLoop_spec. reflexivity.
Qed.

Lemma createParticleExplosion_hangs (position : Vector3.t) (depth : number)
    (a : App) :
  createParticleExplosion v position (Inf false) depth a = with_hung true a.
Proof. reflexivity. Qed.

Lemma particleSpeed_bounds (r : Q) :
  (0 <= r < 1)%Q ->
  exists s, particleSpeed v (r) = Fin s /\
    match v with
    | GeoMap => (0.15 <= s < 0.55)%Q
    | Planet => (0.1 <= s < 0.4)%Q
    end.
Proof.
  intros [H0 H1]. destruct v; cbn; eexists; (split; [reflexivity|]); lra.
Qed.

Definition spent (p : Particles.t) : bool := (Particles.life p <=? Fin 0)%num.

Lemma updateSystems_spec (deltaTime : number) (systems : list Particles.t) :
  updateSystems deltaTime systems =
    (List.filter (fun p => negb (spent p)) (map (ageSystem deltaTime) systems),
     map Dispose (rev (List.filter spent (map (ageSystem deltaTime) systems)))).
Proof.
  induction systems as [|p rest IH]; [reflexivity|].
  cbn [updateSystems map List.filter]. rewrite IH.
  change (Particles.life (ageSystem deltaTime p) <=? Fin 0)%num
    with (spent (ageSystem deltaTime p)).
  destruct (spent (ageSystem deltaTime p)); cbn [negb].
  - cbn [rev]. rewrite map_app. reflexivity.
  - reflexivity.
Qed.

Lemma updateParticles_spec (deltaTime : number) (a : App) :
  let aged := map (ageSystem deltaTime) (particleSystems a) in
  particleSystems (updateParticles deltaTime a) =
    List.filter (fun p => negb (spent p)) aged /\
  effects (updateParticles deltaTime a) =
    effects a ++ map Dispose (rev (List.filter spent aged)).
Proof.
  unfold updateParticles. rewrite updateSystems_spec. split; reflexivity.
Qed.

Lemma ageSystem_life (d l : Q) (p : Particles.t) :
  Particles.life p = Fin l ->
  Particles.life (ageSystem (Fin d) p) = Fin (l + - (d * 0.5)) /\
  Particles.opacity (ageSystem (Fin d) p) = Particles.life (ageSystem (Fin d) p).
Proof. intros H. unfold ageSystem. cbn. rewrite H. split; reflexivity. Qed.

(** The render loop alone, frame after frame. *)
Definition frames (nows : list Z) (a : App) : App :=
  fold_left (fun a now => animate now a) nows a.

Definition lifeAtMost (bound : Q) (p : Particles.t) : Prop :=
  exists l, Particles.life p = Fin l /\ (l <= bound)%Q.

Lemma animate_systems (now : Z) (a : App) :
  let deltaTime := Fin (inject_Z (now - lastTime a) / 1000) in
  particleSystems (animate now a) =
    List.filter (fun p => negb (spent p))
      (map (ageSystem deltaTime) (particleSystems a)) /\
  lastTime (animate now a) = now.
Proof.
  unfold animate. split.
  - exact (proj1 (updateParticles_spec _ _)).
  - unfold updateParticles. destruct (updateSystems _ _). reflexivity.
Qed.

Lemma animate_lifeAtMost (bound : Q) (now : Z) (a : App) :
  Forall (lifeAtMost bound) (particleSystems a) ->
  Forall (lifeAtMost (bound - inject_Z (now - lastTime a) / 2000))
    (particleSystems (animate now a)).
Proof.
  intros H. destruct (animate_systems now a) as [-> _].
  apply Forall_forall. intros p Hp.
  apply filter_In in Hp as [Hp _]. apply in_map_iff in Hp as (p0 & <- & Hp0).
  rewrite Forall_forall in H. destruct (H p0 Hp0) as (l & Hl & Hb).
  destruct (ageSystem_life (inject_Z (now - lastTime a) / 1000) l p0 Hl) as [Hl' _].
  eexists. split; [exact Hl'|].
  unfold Qdiv. change (/ 1000)%Q with (1 # 1000)%Q. change (/ 2000)%Q with (1 # 2000)%Q.
  lra.
Qed.

Lemma lifeAtMost_le (b b' : Q) (p : Particles.t) :
  (b <= b')%Q -> lifeAtMost b p -> lifeAtMost b' p.
Proof. intros Hb (l & Hl & Hle). exists l. split; [exact Hl | lra]. Qed.

Lemma frames_lifeAtMost (nows : list Z) (bound : Q) (a : App) :
  Forall (lifeAtMost bound) (particleSystems a) ->
  Forall (lifeAtMost (bound - inject_Z (lastTime (frames nows a) - lastTime a) / 2000))
    (particleSystems (frames nows a)).
Proof.
  revert bound a. induction nows as [|now nows IH]; intros bound a H.
  - cbn. eapply List.Forall_impl; [|exact H]. intros p. apply lifeAtMost_le.
    rewrite Z.sub_diag. unfold Qdiv. change (/ 2000)%Q with (1 # 2000)%Q.
    change (inject_Z 0) with 0%Q. lra.
  - cbn [frames fold_left]. fold (frames nows (animate now a)).
    pose proof (animate_lifeAtMost bound now a H) as H1.
    apply IH in H1. destruct (animate_systems now a) as [_ Ht].
    eapply List.Forall_impl; [|exact H1]. intros p. apply lifeAtMost_le.
    rewrite Ht. unfold Qdiv. change (/ 2000)%Q with (1 # 2000)%Q.
    rewrite !inject_Z_sub. lra.
Qed.

(** A burst of life at most 1 is gone from the active list at the first
    frame that comes 2000 ms or more after [lastTime], whatever frames
    came in between. *)
Lemma bursts_expire (nows : list Z) (now : Z) (a : App) :
  Forall (lifeAtMost 1) (particleSystems a) ->
  (lastTime a + 2000 <= now)%Z ->
  particleSystems (animate now (frames nows a)) = [].
Proof.
  intros H Hnow.
  pose proof (frames_lifeAtMost nows 1 a H) as H1.
  apply (animate_lifeAtMost _ now) in H1.
  destruct (particleSystems (animate now (frames nows a))) as [|p rest] eqn:E;
    [reflexivity|exfalso].
  assert (Hin : In p (particleSystems (animate now (frames nows a)))).
  { rewrite E. left. reflexivity. }
  inversion H1 as [|? ? (l & Hl & Hb) _]; subst.
  destruct (animate_systems now (frames nows a)) as [Hs _].
  rewrite Hs in Hin. apply filter_In in Hin as [_ Hkept].
  unfold spent in Hkept. rewrite Hl in Hkept. cbn in Hkept.
  apply negb_true_iff in Hkept.
  assert (Hpos : ~ (l <= 0)%Q).
  { intros Hle. apply Qle_bool_iff in Hle. congruence. }
  apply Hpos. revert Hb. unfold Qdiv. change (/ 2000)%Q with (1 # 2000)%Q.
  rewrite !inject_Z_sub. intros Hb.
  assert (Hq : (inject_Z (lastTime a) + 2000 <= inject_Z now)%Q).
  { change 2000%Q with (inject_Z 2000). rewrite <- inject_Z_plus.
    rewrite <- Zle_Qle. exact Hnow. }
  lra.
Qed.

Lemma length_concat_replicate {A : Type} (n : nat) (chunk : list A) :
  length (concat (replicate n chunk)) = (n * length chunk)%nat.
Proof.
  induction n as [|n IH]; [reflexivity|].
  cbn [replicate concat]. rewrite length_app, IH. lia.
Qed.


(** ** Records and markers are never lost *)

(** The records, and what each marker was given at creation. *)
Definition sceneData (a : App) : list Quake.t * list Marker.Fixed :=
  (earthquakes a, map Marker.fixed (earthquakeMarkers a)).

Lemma fixed_set_line (o : number) (m : Marker.t) :
  Marker.fixed (Marker.set_line o m) = Marker.fixed m.
Proof.
  unfold Marker.fixed, Marker.hasLine, Marker.set_line. cbn.
  destruct (Marker.depthLine m); reflexivity.
Qed.

Lemma map_fixed_alter (f : Marker.t -> Marker.t) (i : nat) (ms : list Marker.t) :
  (forall m, Marker.fixed (f m) = Marker.fixed m) ->
  map Marker.fixed (alter f i ms) = map Marker.fixed ms.
Proof.
  intros Hf. revert i. induction ms as [|m ms IH]; intros [|i]; cbn; try reflexivity.
  - rewrite Hf. reflexivity.
  - f_equal. apply IH.
Qed.

Lemma map_fixed_map (f : Marker.t -> Marker.t) (ms : list Marker.t) :
  (forall m, Marker.fixed (f m) = Marker.fixed m) ->
  map Marker.fixed (map f ms) = map Marker.fixed ms.
Proof.
  intros Hf. rewrite map_map. apply map_ext. exact Hf.
Qed.

Lemma sceneData_updateMarker (i : nat) (f : Marker.t -> Marker.t) (a : App) :
  (forall m, Marker.fixed (f m) = Marker.fixed m) ->
  sceneData (updateMarker i f a) = sceneData a.
Proof.
  intros Hf. unfold sceneData, updateMarker. cbn.
  rewrite map_fixed_alter by exact Hf. reflexivity.
Qed.

Lemma sceneData_fold {A : Type} (f : App -> A -> App) (l : list A) (a : App) :
  (forall a x, sceneData (f a x) = sceneData a) ->
  sceneData (fold_left f l a) = sceneData a.
Proof.
  intros Hf. revert a. induction l as [|x l IH]; intros a; [reflexivity|].
  cbn. rewrite IH. apply Hf.
Qed.

Lemma sceneData_createParticleExplosion (position : Vector3.t)
    (magnitude depth : number) (a : App) :
  sceneData (createParticleExplosion v position magnitude depth a) = sceneData a.
Proof.
  unfold createParticleExplosion.
  destruct (loopCount _); [|reflexivity].
  destruct (explosionLoop _ _ _ _ _) as [[ps vs] cs]. reflexivity.
Qed.

Lemma sceneData_andThen (a : App) (k : App -> App) :
  (forall b, sceneData (k b) = sceneData b) ->
  sceneData (andThen a k) = sceneData a.
Proof. intros Hk. unfold andThen. destruct (hung a); [reflexivity | apply Hk]. Qed.

Lemma sceneData_updateParticles (deltaTime : number) (a : App) :
  sceneData (updateParticles deltaTime a) = sceneData a.
Proof. unfold updateParticles. destruct (updateSystems _ _). reflexivity. Qed.

Lemma fixed_resetMarker (m : Marker.t) : Marker.fixed (resetMarker v m) = Marker.fixed m.
Proof. unfold resetMarker. destruct v; rewrite ?fixed_set_line; reflexivity. Qed.

Lemma fixed_dimMarker (m : Marker.t) : Marker.fixed (dimMarker v m) = Marker.fixed m.
Proof. unfold dimMarker. destruct v; rewrite ?fixed_set_line; reflexivity. Qed.

Lemma fixed_revealMarker (m : Marker.t) : Marker.fixed (revealMarker v m) = Marker.fixed m.
Proof. unfold revealMarker. destruct v; rewrite ?fixed_set_line; reflexivity. Qed.

Lemma sceneData_enterMode (mode : JSString) (a : App) :
  sceneData (enterMode v mode a) = sceneData a.
Proof.
  unfold enterMode, sceneData. cbn.
  rewrite map_fixed_map by apply fixed_resetMarker.
  unfold clearModeInterval. destruct (modeInterval a); reflexivity.
Qed.

Lemma sceneData_startHistoryMode (a : App) :
  sceneData (startHistoryMode v a) = sceneData a.
Proof.
  unfold startHistoryMode, sceneData. cbn.
  rewrite map_fixed_map by apply fixed_dimMarker. reflexivity.
Qed.

Lemma sceneData_historyTick (a : App) : sceneData (historyTick v a) = sceneData a.
Proof.
  unfold historyTick.
  destruct (historyIndex a <? length (earthquakeMarkers a))%nat.
  - destruct (earthquakeMarkers a !! historyIndex a); [|reflexivity].
    rewrite sceneData_andThen by reflexivity.
    rewrite sceneData_createParticleExplosion.
    apply sceneData_updateMarker, fixed_revealMarker.
  - unfold sceneData. cbn. rewrite map_fixed_map by apply fixed_dimMarker. reflexivity.
Qed.

Lemma sceneData_pulse (now : Z) (index : nat) (startTime : Z)
    (duration : number) (a : App) :
  sceneData (pulse v now index startTime duration a) = sceneData a.
Proof.
  unfold pulse. destruct (negb _); [reflexivity|].
  change (sceneData (requestAnimationFrame ?cb ?b)) with (sceneData b).
  destruct v; apply sceneData_updateMarker; intros m;
    rewrite ?fixed_set_line; reflexivity.
Qed.

Lemma sceneData_chaosMarker (now : Z) (a : App) (index : nat) :
  sceneData (chaosMarker v now a index) = sceneData a.
Proof.
  unfold chaosMarker. cbn [random].
  match goal with |- context [if ?c then _ else _] => destruct c end.
  - change (sceneData (setTimeout ?cb ?ms ?b)) with (sceneData b).
    change (sceneData (with_randomCalls ?n ?b)) with (sceneData b).
    change (sceneData (with_randomCalls ?n ?b)) with (sceneData b).
    rewrite sceneData_pulse. reflexivity.
  - change (sceneData (with_randomCalls ?n ?b)) with (sceneData b).
    rewrite sceneData_pulse. reflexivity.
Qed.

Lemma sceneData_startChaosMode (now : Z) (a : App) :
  sceneData (startChaosMode v now a) = sceneData a.
Proof. apply sceneData_fold. intros. apply sceneData_chaosMarker. Qed.

Lemma sceneData_chaosBurst (index : nat) (a : App) :
  sceneData (chaosBurst v index a) = sceneData a.
Proof.
  unfold chaosBurst. destruct (earthquakeMarkers a !! index); [|reflexivity].
  apply sceneData_createParticleExplosion.
Qed.

Lemma sceneData_fall (now : Z) (index : nat) (startTime : Z)
    (startY targetY fallDuration : number) (a : App) :
  sceneData (fall v now index startTime startY targetY fallDuration a) = sceneData a.
Proof.
  unfold fall. destruct (earthquakeMarkers a !! index); [|reflexivity].
  destruct (negb _).
  { apply sceneData_updateMarker. reflexivity. }
  match goal with |- context [if ?c then _ else _] => destruct c end.
  - rewrite sceneData_andThen
      by (intros; apply sceneData_updateMarker; reflexivity).
    rewrite sceneData_createParticleExplosion.
    apply sceneData_updateMarker. reflexivity.
  - change (sceneData (requestAnimationFrame ?cb ?b)) with (sceneData b).
    apply sceneData_updateMarker. reflexivity.
Qed.

Lemma sceneData_fallStart (now : Z) (index : nat) (captured : option number)
    (fallDuration : number) (a : App) :
  sceneData (fallStart v now index captured fallDuration a) = sceneData a.
Proof.
  unfold fallStart. destruct (earthquakeMarkers a !! index); [|reflexivity].
  apply sceneData_fall.
Qed.

Lemma sceneData_rainMarker (a : App) (index : nat) :
  sceneData (rainMarker v a index) = sceneData a.
Proof.
  unfold rainMarker. destruct (earthquakeMarkers a !! index); [|reflexivity].
  change (sceneData (setTimeout ?cb ?ms ?b)) with (sceneData b).
  apply sceneData_updateMarker. reflexivity.
Qed.

Lemma sceneData_startRainMode (a : App) :
  sceneData (startRainMode v a) = sceneData a.
Proof. apply sceneData_fold. intros. apply sceneData_rainMarker. Qed.

Lemma sceneData_setMode (mode : JSString) (now : Z) (a : App) :
  sceneData (setMode v mode now a) = sceneData a.
Proof.
  unfold setMode, startMode.
  destruct (strEqb mode (lit "history")).
  { rewrite sceneData_startHistoryMode. apply sceneData_enterMode. }
  destruct (strEqb mode (lit "chaos")).
  { rewrite sceneData_startChaosMode. apply sceneData_enterMode. }
  destruct (strEqb mode (lit "rain")).
  { rewrite sceneData_startRainMode. apply sceneData_enterMode. }
  apply sceneData_enterMode.
Qed.

Lemma sceneData_onMouseMove (hit : option nat) (a : App) :
  sceneData (onMouseMove v hit a) = sceneData a.
Proof.
  unfold onMouseMove.
  assert (H : forall i s b, sceneData (updateMarker i (Marker.set_scale s) b) = sceneData b)
    by (intros; apply sceneData_updateMarker; reflexivity).
  assert (H' : forall i s b, sceneData (updateMarker i (Marker.set_line s) b) = sceneData b)
    by (intros; apply sceneData_updateMarker, fixed_set_line).
  destruct hit as [j|], (hoveredMarker a) as [i|], v;
    repeat first
      [ rewrite H | rewrite H'
      | progress change (sceneData (with_hoveredMarker ?h ?b)) with (sceneData b) ];
    reflexivity.
Qed.

Lemma sceneData_onClick (a : App) : sceneData (onClick a) = sceneData a.
Proof.
  unfold onClick. destruct (hoveredMarker a); [|reflexivity].
  match goal with |- context [if ?c then _ else _] => destruct c end; reflexivity.
Qed.

Lemma sceneData_onDoubleClick (a : App) : sceneData (onDoubleClick v a) = sceneData a.
Proof. unfold onDoubleClick. destruct (hoveredMarker a); reflexivity. Qed.

Lemma sceneData_doubleClickBurst (a : App) :
  sceneData (doubleClickBurst v a) = sceneData a.
Proof.
  unfold doubleClickBurst. destruct (hoveredMarker a); [|reflexivity].
  destruct (earthquakeMarkers a !! n); [|reflexivity].
  apply sceneData_createParticleExplosion.
Qed.

Lemma sceneData_animate (now : Z) (a : App) : sceneData (animate now a) = sceneData a.
Proof. unfold animate. rewrite sceneData_updateParticles. reflexivity. Qed.

Lemma sceneData_runCallback (now : Z) (cb : Callback) (a : App) :
  sceneData (runCallback v now cb a) = sceneData a.
Proof.
  destruct cb; cbn [runCallback].
  - apply sceneData_historyTick.
  - apply sceneData_pulse.
  - apply sceneData_chaosBurst.
  - apply sceneData_fallStart.
  - apply sceneData_fall.
  - apply sceneData_doubleClickBurst.
  - apply sceneData_animate.
Qed.

Lemma sceneData_step (e : Event) (a : App) : sceneData (step v e a) = sceneData a.
Proof.
  unfold step. destruct (hung a); [reflexivity|].
  destruct e.
  - unfold fireTimer. destruct (List.find _ _) as [t|]; [|reflexivity].
    rewrite sceneData_runCallback. destruct (repeats t); reflexivity.
  - unfold runFrame.
    rewrite sceneData_fold; [reflexivity|].
    intros b cb. apply sceneData_andThen. intros. apply sceneData_runCallback.
  - apply sceneData_setMode.
  - unfold onKeyDown. destruct key as [k|]; [|reflexivity].
    destruct (_ && _); [|reflexivity].
    destruct (_ !! _); [|reflexivity]. apply sceneData_setMode.
  - apply sceneData_onMouseMove.
  - apply sceneData_onClick.
  - apply sceneData_onDoubleClick.
Qed.

Lemma lookup_map {A B : Type} (f : A -> B) (l : list A) (i : nat) :
  map f l !! i = option_map f (l !! i).
Proof.
  revert i. induction l as [|x l IH]; intros [|i]; cbn; try reflexivity. apply IH.
Qed.

(** The states a session goes through. *)
Inductive reachable : App -> Prop :=
| reachable_init (r : Fetched) (now : Z) : reachable (init v r now)
| reachable_step (e : Event) (a : App) : reachable a -> reachable (step v e a).

Lemma sceneData_init (r : Fetched) (now : Z) :
  map Marker.fixed (earthquakeMarkers (init v r now)) =
    map (fun quake => Marker.fixed (createMarker v quake)) (earthquakes (init v r now)).
Proof.
  pose proof (sceneData_animate now
    (createEarthquakeMarkers v (loadEarthquakeData r constructor))) as H.
  unfold init. unfold sceneData in H. injection H as -> ->.
  destruct r; cbn; rewrite ?map_map; reflexivity.
Qed.

Lemma sceneData_reachable (a : App) :
  reachable a ->
  map Marker.fixed (earthquakeMarkers a) =
    map (fun quake => Marker.fixed (createMarker v quake)) (earthquakes a).
Proof.
  induction 1 as [r now|e a Ha IH].
  - apply sceneData_init.
  - pose proof (sceneData_step e a) as H. unfold sceneData in H.
    injection H as -> ->. exact IH.
Qed.

(** C9. Scene build makes one marker per record, in order.  No event
    (timer, frame, mode switch, key, pointer move, click, double click)
    changes the records, the number of markers, or what a marker was
    given at creation: its colour, its radius, its record, its
    [originalColor], [originalScale] and [originalPosition].  So in every
    state of a session there are as many markers as records, and the
    marker at each index has the colour of its own record's depth and the
    size of its own record's magnitude. *)
Theorem markers_fixed_for_session :
  (forall (r : Fetched) (now : Z),
     earthquakeMarkers (init v r now) = map (createMarker v) (earthquakes (init v r now))) /\
  (forall (e : Event) (a : App),
     earthquakes (step v e a) = earthquakes a /\
     length (earthquakeMarkers (step v e a)) = length (earthquakeMarkers a) /\
     map Marker.fixed (earthquakeMarkers (step v e a)) =
       map Marker.fixed (earthquakeMarkers a)) /\
  (forall a : App,
     reachable a ->
     length (earthquakeMarkers a) = length (earthquakes a) /\
     forall (i : nat) (quake : Quake.t),
       earthquakes a !! i = Some quake ->
       exists marker,
         earthquakeMarkers a !! i = Some marker /\
         Marker.quake marker = quake /\
         Marker.color marker = getColorByDepth (Quake.profundidad quake) /\
         Marker.radius marker = markerSize v (Quake.magnitud quake)).
Proof.
  split; [|split].
  - intros r now. unfold init, animate, updateParticles. cbn.
    destruct r; reflexivity.
  - intros e a. pose proof (sceneData_step e a) as H. unfold sceneData in H.
    injection H as H1 H2. repeat split; try assumption.
    rewrite <- (length_map Marker.fixed), H2. apply length_map.
  - intros a Ha. pose proof (sceneData_reachable a Ha) as H. split.
    + rewrite <- (length_map Marker.fixed), H. apply length_map.
    + intros i quake Hq.
      assert (E : map Marker.fixed (earthquakeMarkers a) !! i =
                  Some (Marker.fixed (createMarker v quake))).
      { rewrite H, lookup_map, Hq. reflexivity. }
      rewrite lookup_map in E.
      destruct (earthquakeMarkers a !! i) as [marker|]; [|discriminate].
      exists marker. cbn in E. injection E as E1 E2 E3 E4 E5 E6 E7.
      repeat split; assumption.
Qed.

(** ** Mode entry *)

Lemma cons_inv {A : Type} (x y : A) (l l' : list A) :
  x :: l = y :: l' -> x = y /\ l = l'.
Proof. intros H. injection H as -> ->. split; reflexivity. Qed.

(** A reset marker is the marker as it was built. *)
Lemma resetMarker_createMarker (m : Marker.t) (quake : Quake.t) :
  Marker.fixed m = Marker.fixed (createMarker v quake) ->
  resetMarker v m = createMarker v quake.
Proof.
  destruct m as [pos sc op col rad q oc os opos line].
  unfold Marker.fixed, Marker.hasLine, createMarker, resetMarker. cbn.
  intros H. injection H as -> -> -> -> -> -> Hline.
  destruct v; cbn in *.
  - destruct line; [reflexivity | discriminate].
  - destruct line; [discriminate | reflexivity].
Qed.

Lemma map_resetMarker_createMarker (ms : list Marker.t) (quakes : list Quake.t) :
  map Marker.fixed ms = map (fun quake => Marker.fixed (createMarker v quake)) quakes ->
  map (resetMarker v) ms = map (createMarker v) quakes.
Proof.
  revert quakes. induction ms as [|m ms IH]; intros [|q quakes] H;
    try discriminate; [reflexivity|].
  cbn [map] in *. apply cons_inv in H as [Hm Hms].
  rewrite (resetMarker_createMarker m q Hm), (IH quakes Hms). reflexivity.
Qed.

Lemma earthquakeMarkers_enterMode (mode : JSString) (a : App) :
  earthquakeMarkers (enterMode v mode a) = map (resetMarker v) (earthquakeMarkers a).
Proof.
  unfold enterMode, clearModeInterval. destruct (modeInterval a); reflexivity.
Qed.

Lemma resetMarker_base (m : Marker.t) :
  Marker.scale (resetMarker v m) = Vector3.mk (Fin 1) (Fin 1) (Fin 1) /\
  Marker.position (resetMarker v m) = Marker.originalPosition (resetMarker v m) /\
  Marker.position (resetMarker v m) = Marker.originalPosition m /\
  Marker.opacity (resetMarker v m) = Fin 0.9.
Proof. unfold resetMarker. destruct v; repeat split. Qed.

(** C2. [setMode] is the reset followed by the start of the new mode.
    When the start runs, the mode is stored and every marker has scale
    (1, 1, 1), its position equal to the cached [originalPosition] and
    opacity 0.9, while what it was given at creation is untouched.  In a
    session the reset markers are exactly the markers as they were built
    from the records, whatever the markers looked like before; so
    entering a mode twice, or after any other mode, starts from the same
    markers. *)
Theorem setMode_resets_first (mode : JSString) (now : Z) (a : App) :
  setMode v mode now a = startMode v mode now (enterMode v mode a) /\
  currentMode (enterMode v mode a) = mode /\
  Forall (fun m =>
            Marker.scale m = Vector3.mk (Fin 1) (Fin 1) (Fin 1) /\
            Marker.position m = Marker.originalPosition m /\
            Marker.opacity m = Fin 0.9)
         (earthquakeMarkers (enterMode v mode a)) /\
  map Marker.fixed (earthquakeMarkers (enterMode v mode a)) =
    map Marker.fixed (earthquakeMarkers a) /\
  (reachable a ->
   earthquakeMarkers (enterMode v mode a) = map (createMarker v) (earthquakes a) /\
   forall (mode' : JSString) (now' : Z),
     earthquakeMarkers (enterMode v mode' (setMode v mode now a)) =
       earthquakeMarkers (enterMode v mode a)).
Proof.
  split; [reflexivity|]. split.
  { unfold enterMode. reflexivity. }
  split.
  { rewrite earthquakeMarkers_enterMode. apply Forall_forall. intros m Hm.
    apply in_map_iff in Hm as (m0 & <- & _).
    destruct (resetMarker_base m0) as (H1 & H2 & _ & H4). auto. }
  split.
  { rewrite earthquakeMarkers_enterMode. apply map_fixed_map, fixed_resetMarker. }
  intros Ha.
  pose proof (sceneData_reachable a Ha) as Hfixed.
  split.
  { rewrite earthquakeMarkers_enterMode.
    apply map_resetMarker_createMarker, Hfixed. }
  intros mode' now'.
  rewrite !earthquakeMarkers_enterMode.
  pose proof (sceneData_setMode mode now a) as E. unfold sceneData in E.
  apply pair_equal_spec in E as [_ E].
  rewrite (map_resetMarker_createMarker (earthquakeMarkers a) (earthquakes a) Hfixed).
  apply map_resetMarker_createMarker. rewrite E. exact Hfixed.
Qed.

(** ** History mode *)

(** No marker has magnitude [+Infinity] (the one magnitude for which the
    particle loop never ends). *)
Definition burstsEnd (ms : list Marker.t) : Prop :=
  Forall (fun m => Quake.magnitud (Marker.quake m) <> Inf false) ms.

(** The burst fired for marker [m] when [k] calls of [Math.random] have
    been made. *)
Definition markerBurst (k : nat) (m : Marker.t) : Particles.t :=
  burstWith (burstCount (Quake.magnitud (Marker.quake m))) k
    (Marker.originalPosition m) (Quake.profundidad (Marker.quake m)).

Lemma dimMarker_revealMarker (m : Marker.t) :
  dimMarker v (revealMarker v m) = dimMarker v m.
Proof.
  destruct m as [pos sc op col rad q oc os opos line].
  unfold dimMarker, revealMarker. destruct v, line; reflexivity.
Qed.

Lemma dimMarker_idem (m : Marker.t) : dimMarker v (dimMarker v m) = dimMarker v m.
Proof.
  destruct m as [pos sc op col rad q oc os opos line].
  unfold dimMarker. destruct v, line; reflexivity.
Qed.

Lemma historyTick_reveal (a : App) (m : Marker.t) :
  hung a = false ->
  earthquakeMarkers a !! historyIndex a = Some m ->
  Quake.magnitud (Marker.quake m) <> Inf false ->
  let p := markerBurst (randomCalls a) m in
  historyTick v a =
    with_historyIndex (S (historyIndex a))
      (with_particleSystems (particleSystems a ++ [p])
         (log (SceneAdd p)
            (with_randomCalls
               (randomCalls a + 3 * burstCount (Quake.magnitud (Marker.quake m)))
               (updateMarker (historyIndex a) (revealMarker v) a)))).
Proof.
  intros Hh Hm Hmag p. unfold historyTick.
  assert (Hlt : (historyIndex a < length (earthquakeMarkers a))%nat)
    by (eapply lookup_lt_Some; exact Hm).
  apply Nat.ltb_lt in Hlt. rewrite Hlt, Hm.
  rewrite createParticleExplosion_returns by exact Hmag.
  unfold andThen. cbn. rewrite Hh. reflexivity.
Qed.

Lemma historyTick_wrap (a : App) :
  (length (earthquakeMarkers a) <= historyIndex a)%nat ->
  historyTick v a =
    with_earthquakeMarkers (map (dimMarker v) (earthquakeMarkers a))
      (with_historyIndex 0%nat a).
Proof.
  intros H. unfold historyTick. apply Nat.ltb_ge in H. rewrite H. reflexivity.
Qed.

Lemma historyTick_empty (a : App) :
  earthquakeMarkers a = [] -> historyIndex a = 0%nat -> historyTick v a = a.
Proof.
  intros Hm Hi. rewrite historyTick_wrap by (rewrite Hm; cbn; lia).
  destruct a. cbn in *. subst. reflexivity.
Qed.

(** After [k] ticks from index 0: the first [k] markers are revealed, in
    order, one burst each; nothing else of the mode machinery moved. *)
Lemma history_reveals (a : App) (k : nat) :
  historyIndex a = 0%nat -> hung a = false -> burstsEnd (earthquakeMarkers a) ->
  (k <= length (earthquakeMarkers a))%nat ->
  let ms := earthquakeMarkers a in
  let b := Nat.iter k (historyTick v) a in
  historyIndex b = k /\ hung b = false /\
  earthquakeMarkers b = map (revealMarker v) (take k ms) ++ drop k ms /\
  timers b = timers a /\ modeInterval b = modeInterval a /\
  currentMode b = currentMode a /\ frameRequests b = frameRequests a /\
  exists ks, length ks = k /\
    particleSystems b = particleSystems a ++ zip_with markerBurst ks (take k ms) /\
    effects b = effects a ++ map SceneAdd (zip_with markerBurst ks (take k ms)).
Proof.
  intros Hi Hh Hmag. cbv zeta.
  remember (earthquakeMarkers a) as ms eqn:Hms.
  induction k as [|k IH]; intros Hk.
  - cbn. repeat split; try assumption; [symmetry; exact Hms|].
    exists []. split; [reflexivity|]. cbn. rewrite !app_nil_r. split; reflexivity.
  - destruct IH as (Ei & Eh & Em & Et & Emi & Ec & Ef & ks & Hks & Ep & Ee); [lia|].
    rewrite Nat.iter_succ. set (c := Nat.iter k (historyTick v) a) in *.
    destruct (lookup_lt_is_Some_2 ms k) as [m Hm]; [lia|].
    assert (Hcm : earthquakeMarkers c !! historyIndex c = Some m).
    { rewrite Ei, Em. rewrite lookup_app_r; rewrite length_map, length_take.
      - replace (k - k `min` length ms)%nat with 0%nat by lia.
        rewrite lookup_drop, Nat.add_0_r. exact Hm.
      - lia. }
    assert (Hmm : Quake.magnitud (Marker.quake m) <> Inf false).
    { unfold burstsEnd in Hmag. rewrite Forall_forall in Hmag. apply Hmag.
      apply list_elem_of_In. eapply list_elem_of_lookup_2. exact Hm. }
    rewrite (historyTick_reveal c m Eh Hcm Hmm). cbn.
    rewrite Ei, Eh, Et, Emi, Ec, Ef, Em, Ep, Ee.
    repeat split.
    + rewrite (take_S_r ms k m Hm), map_app. cbn [map].
      rewrite <- app_assoc. cbn [app].
      replace k with (length (map (revealMarker v) (take k ms)) + 0)%nat at 1
        by (rewrite length_map, length_take; lia).
      rewrite alter_app_r. f_equal.
      rewrite (drop_S ms m k Hm). reflexivity.
    + exists (ks ++ [randomCalls c]). split.
      * rewrite length_app, Hks. cbn. lia.
      * rewrite (take_S_r ms k m Hm).
        rewrite zip_with_app by (rewrite Hks, length_take; lia).
        rewrite map_app, <- !app_assoc. split; reflexivity.
Qed.

Definition dimmed (ms : list Marker.t) : Prop := map (dimMarker v) ms = ms.

(** One full cycle: [n] reveals and the wrapping tick bring the index and
    the markers back; one burst per marker has been added, in load
    order. *)
Lemma history_cycle (a : App) :
  historyIndex a = 0%nat -> hung a = false ->
  burstsEnd (earthquakeMarkers a) -> dimmed (earthquakeMarkers a) ->
  let ms := earthquakeMarkers a in
  let b := Nat.iter (S (length ms)) (historyTick v) a in
  historyIndex b = 0%nat /\ hung b = false /\ earthquakeMarkers b = ms /\
  timers b = timers a /\ modeInterval b = modeInterval a /\
  currentMode b = currentMode a /\ frameRequests b = frameRequests a /\
  exists ks, length ks = length ms /\
    particleSystems b = particleSystems a ++ zip_with markerBurst ks ms /\
    effects b = effects a ++ map SceneAdd (zip_with markerBurst ks ms).
Proof.
  intros Hi Hh Hmag Hdim. cbv zeta.
  destruct (history_reveals a (length (earthquakeMarkers a)) Hi Hh Hmag (Nat.le_refl _))
    as (Ei & Eh & Em & Et & Emi & Ec & Ef & ks & Hks & Ep & Ee).
  rewrite Nat.iter_succ.
  set (c := Nat.iter (length (earthquakeMarkers a)) (historyTick v) a) in *.
  rewrite firstn_all, skipn_all, app_nil_r in Em. rewrite firstn_all in Ep, Ee.
  rewrite historyTick_wrap by (rewrite Ei, Em, length_map; lia). cbn.
  rewrite Eh, Et, Emi, Ec, Ef, Em, Ep, Ee. repeat split.
  - unfold dimmed in Hdim. rewrite map_map. rewrite <- Hdim at 2.
    apply map_ext, dimMarker_revealMarker.
  - exists ks. repeat split. exact Hks.
Qed.

(** [c] full cycles and [k] more ticks. *)
Lemma history_replays (c k : nat) (a : App) :
  historyIndex a = 0%nat -> hung a = false ->
  burstsEnd (earthquakeMarkers a) -> dimmed (earthquakeMarkers a) ->
  (k <= length (earthquakeMarkers a))%nat ->
  let ms := earthquakeMarkers a in
  let b := Nat.iter (c * S (length ms) + k) (historyTick v) a in
  historyIndex b = k /\ hung b = false /\
  earthquakeMarkers b = map (revealMarker v) (take k ms) ++ drop k ms /\
  timers b = timers a /\ modeInterval b = modeInterval a /\
  currentMode b = currentMode a /\ frameRequests b = frameRequests a /\
  exists ks, length ks = (c * length ms + k)%nat /\
    particleSystems b =
      particleSystems a ++ zip_with markerBurst ks (concat (replicate c ms) ++ take k ms) /\
    effects b =
      effects a ++
      map SceneAdd (zip_with markerBurst ks (concat (replicate c ms) ++ take k ms)).
Proof.
  revert a. induction c as [|c IH]; intros a Hi Hh Hmag Hdim Hk; cbv zeta.
  - cbn [Nat.mul Nat.add replicate concat app]. apply history_reveals; assumption.
  - destruct (history_cycle a Hi Hh Hmag Hdim)
      as (Ei & Eh & Em & Et & Emi & Ec & Ef & ks1 & Hks1 & Ep & Ee).
    set (a' := Nat.iter (S (length (earthquakeMarkers a))) (historyTick v) a) in *.
    replace (S c * S (length (earthquakeMarkers a)) + k)%nat
      with ((c * S (length (earthquakeMarkers a)) + k) + S (length (earthquakeMarkers a)))%nat
      by lia.
    rewrite Nat.iter_add. fold a'.
    specialize (IH a'). rewrite Em in IH.
    destruct (IH Ei Eh Hmag Hdim Hk)
      as (Fi & Fh & Fm & Ft & Fmi & Fc & Ff & ks2 & Hks2 & Fp & Fe).
    rewrite Fi, Fh, Fm, Ft, Fmi, Fc, Ff, Fp, Fe, Et, Emi, Ec, Ef, Ep, Ee.
    repeat split.
    exists (ks1 ++ ks2). split; [|split].
    + rewrite length_app, Hks1, Hks2. lia.
    + cbn [replicate concat]. rewrite <- !app_assoc. f_equal.
      rewrite zip_with_app by exact Hks1. reflexivity.
    + cbn [replicate concat]. rewrite <- !app_assoc. f_equal.
      rewrite zip_with_app by exact Hks1. rewrite map_app. reflexivity.
Qed.

(** ** The host's timers *)

(** Handles are handed out in increasing order. *)
Definition timersFresh (a : App) : Prop :=
  Forall (fun t => (timerId t < nextTimerId a)%positive) (timers a).

Lemma find_app {A : Type} (p : A -> bool) (l1 l2 : list A) :
  List.find p (l1 ++ l2) =
    match List.find p l1 with Some x => Some x | None => List.find p l2 end.
Proof.
  induction l1 as [|x l1 IH]; [reflexivity|]. cbn. destruct (p x); [reflexivity|exact IH].
Qed.

Lemma find_fresh (id : positive) (ts : list Timer) :
  Forall (fun t => (timerId t < id)%positive) ts ->
  List.find (fun t => (timerId t =? id)%positive) ts = None.
Proof.
  induction 1 as [|t ts Ht Hts IH]; [reflexivity|]. cbn.
  destruct (Pos.eqb_spec (timerId t) id) as [E|_]; [lia | exact IH].
Qed.

Lemma Forall_filter {A : Type} (P : A -> Prop) (p : A -> bool) (l : list A) :
  Forall P l -> Forall P (List.filter p l).
Proof.
  induction 1 as [|x l Hx Hl IH]; [constructor|]. cbn.
  destruct (p x); [constructor; assumption | exact IH].
Qed.

(** Entering History mode from a state that has not hung. *)
Lemma setMode_history (now : Z) (a : App) :
  hung a = false -> timersFresh a ->
  let a0 := setMode v (lit "history") now a in
  let id := nextTimerId a in
  historyIndex a0 = 0%nat /\ hung a0 = false /\
  earthquakeMarkers a0 = map (dimMarker v) (map (resetMarker v) (earthquakeMarkers a)) /\
  modeInterval a0 = Some id /\
  particleSystems a0 = particleSystems a /\
  exists ms, List.find (fun t => (timerId t =? id)%positive) (timers a0) =
               Some (mkTimer id true ms HistoryTick).
Proof.
  intros Hh Hfresh. cbv zeta.
  unfold setMode, startMode.
  change (strEqb (lit "history") (lit "history")) with true. cbv iota.
  unfold startHistoryMode, setInterval, enterMode, clearModeInterval.
  destruct (modeInterval a) as [old|]; cbn;
    (repeat split; try assumption; eexists; rewrite find_app;
     rewrite find_fresh; [cbn; rewrite Pos.eqb_refl; reflexivity|]).
  - apply Forall_filter, Hfresh.
  - exact Hfresh.
Qed.

Lemma tick_event (id : positive) (ms : number) (now : Z) (b : App) :
  hung b = false ->
  List.find (fun t => (timerId t =? id)%positive) (timers b) =
    Some (mkTimer id true ms HistoryTick) ->
  step v (TimerFires id now) b = historyTick v b.
Proof.
  intros Hh Hfind. unfold step, fireTimer. rewrite Hh, Hfind. reflexivity.
Qed.

Lemma run_snoc (events : list Event) (e : Event) (a : App) :
  run v (events ++ [e]) a = step v e (run v events a).
Proof. unfold run. rewrite fold_left_app. reflexivity. Qed.

(** The interval's firings are ticks. *)
Lemma run_ticks (id : positive) (ms : number) (nows : list Z) (a : App) :
  historyIndex a = 0%nat -> hung a = false ->
  burstsEnd (earthquakeMarkers a) -> dimmed (earthquakeMarkers a) ->
  List.find (fun t => (timerId t =? id)%positive) (timers a) =
    Some (mkTimer id true ms HistoryTick) ->
  run v (map (TimerFires id) nows) a = Nat.iter (length nows) (historyTick v) a.
Proof.
  intros Hi Hh Hmag Hdim Hfind.
  induction nows as [|now nows IH] using rev_ind; [reflexivity|].
  rewrite map_app. cbn [map]. rewrite run_snoc, IH, length_app, Nat.add_comm.
  cbn [length Nat.add].
  rewrite Nat.iter_succ.
  set (n := length (earthquakeMarkers a)).
  pose proof (Nat.div_mod_eq (length nows) (S n)) as Hdiv.
  pose proof (Nat.mod_upper_bound (length nows) (S n) ltac:(lia)) as Hmod.
  destruct (history_replays (length nows / S n) (length nows mod S n) a Hi Hh Hmag Hdim)
    as (_ & Eh & _ & Et & _); [fold n; lia|].
  fold n in Eh, Et.
  replace (length nows / S n * S n + length nows mod S n)%nat
    with (length nows) in Eh, Et by lia.
  apply (tick_event id ms); [exact Eh | rewrite Et; exact Hfind].
Qed.

Lemma opacity_revealMarker (m : Marker.t) :
  Marker.opacity (revealMarker v m) = Fin 0.9.
Proof. unfold revealMarker. destruct v; reflexivity. Qed.

Lemma opacity_dimMarker (m : Marker.t) :
  Marker.opacity (dimMarker v m) = Fin 0.1.
Proof. unfold dimMarker. destruct v; reflexivity. Qed.


(** [b] differs from [a], on the host's side, by timers and frame requests
    added at the end, with new handles and callbacks in [P];
    [modeInterval] is the same. *)
Definition extendsBy (P : Callback -> Prop) (a b : App) : Prop :=
  modeInterval b = modeInterval a /\
  (nextTimerId a <= nextTimerId b)%positive /\
  (exists new,
     timers b = timers a ++ new /\
     Forall (fun t => (nextTimerId a <= timerId t < nextTimerId b)%positive /\
                      P (callback t)) new) /\
  (exists new, frameRequests b = frameRequests a ++ new /\ Forall P new).

Lemma extendsBy_refl (P : Callback -> Prop) (a : App) : extendsBy P a a.
Proof.
  repeat split; try lia; exists []; rewrite app_nil_r; split; auto.
Qed.

Lemma extendsBy_trans (P : Callback -> Prop) (a b c : App) :
  extendsBy P a b -> extendsBy P b c -> extendsBy P a c.
Proof.
  intros (Hm1 & Hn1 & (t1 & Ht1 & Hf1) & (f1 & Hr1 & Hg1))
         (Hm2 & Hn2 & (t2 & Ht2 & Hf2) & (f2 & Hr2 & Hg2)).
  split; [congruence|]. split; [lia|]. split.
  - exists (t1 ++ t2). split; [rewrite Ht2, Ht1, app_assoc; reflexivity|].
    apply Forall_app. split.
    + eapply List.Forall_impl; [|exact Hf1]. cbn. intros t [H ?]. split; [lia|assumption].
    + eapply List.Forall_impl; [|exact Hf2]. cbn. intros t [H ?]. split; [lia|assumption].
  - exists (f1 ++ f2). split; [rewrite Hr2, Hr1, app_assoc; reflexivity|].
    apply Forall_app. split; assumption.
Qed.

Lemma extendsBy_weaken (P Q : Callback -> Prop) (a b : App) :
  (forall cb, P cb -> Q cb) -> extendsBy P a b -> extendsBy Q a b.
Proof.
  intros HPQ (Hm & Hn & (t & Ht & Hf) & (f & Hr & Hg)).
  repeat split; try assumption.
  - exists t. split; [exact Ht|].
    eapply List.Forall_impl; [|exact Hf]. cbn. intros ? [? ?]. auto.
  - exists f. split; [exact Hr|]. eapply List.Forall_impl; [|exact Hg]. exact HPQ.
Qed.

(** A state that agrees with [a] on the host's fields extends it. *)
Lemma extendsBy_same (P : Callback -> Prop) (a b : App) :
  modeInterval b = modeInterval a -> nextTimerId b = nextTimerId a ->
  timers b = timers a -> frameRequests b = frameRequests a ->
  extendsBy P a b.
Proof.
  intros H1 H2 H3 H4. unfold extendsBy. rewrite H1, H2, H3, H4.
  apply extendsBy_refl.
Qed.

Lemma extendsBy_fold {A : Type} (P : Callback -> Prop) (f : App -> A -> App)
    (l : list A) (a : App) :
  (forall a x, extendsBy P a (f a x)) -> extendsBy P a (fold_left f l a).
Proof.
  intros Hf. revert a. induction l as [|x l IH]; intros a; [apply extendsBy_refl|].
  cbn. eapply extendsBy_trans; [apply Hf | apply IH].
Qed.

Section Extensions.
Variable P : Callback -> Prop.

Lemma extendsBy_setTimeout (cb : Callback) (ms : number) (a : App) :
  P cb -> extendsBy P a (setTimeout cb ms a).
Proof.
  intros Hcb. unfold extendsBy, setTimeout. cbn. repeat split; try lia.
  - exists [mkTimer (nextTimerId a) false ms cb]. split; [reflexivity|].
    repeat constructor; cbn; try lia. exact Hcb.
  - exists []. rewrite app_nil_r. split; auto.
Qed.

Lemma extendsBy_requestAnimationFrame (cb : Callback) (a : App) :
  P cb -> extendsBy P a (requestAnimationFrame cb a).
Proof.
  intros Hcb. unfold extendsBy, requestAnimationFrame. cbn. repeat split; try lia.
  - exists []. rewrite app_nil_r. split; auto.
  - exists [cb]. split; [reflexivity|]. repeat constructor. exact Hcb.
Qed.

Lemma extendsBy_updateMarker (i : nat) (f : Marker.t -> Marker.t) (a : App) :
  extendsBy P a (updateMarker i f a).
Proof. apply extendsBy_same; reflexivity. Qed.

Lemma extendsBy_createParticleExplosion (position : Vector3.t)
    (magnitude depth : number) (a : App) :
  extendsBy P a (createParticleExplosion v position magnitude depth a).
Proof.
  unfold createParticleExplosion.
  destruct (loopCount _); [|apply extendsBy_same; reflexivity].
  destruct (explosionLoop _ _ _ _ _) as [[ps vs] cs].
  apply extendsBy_same; reflexivity.
Qed.

Lemma extendsBy_andThen (a : App) (k : App -> App) :
  (forall b, extendsBy P b (k b)) -> extendsBy P a (andThen a k).
Proof.
  intros Hk. unfold andThen. destruct (hung a); [apply extendsBy_refl | apply Hk].
Qed.

Lemma extendsBy_historyTick (a : App) : extendsBy P a (historyTick v a).
Proof.
  unfold historyTick.
  destruct (historyIndex a <? length (earthquakeMarkers a))%nat;
    [|apply extendsBy_same; reflexivity].
  destruct (earthquakeMarkers a !! historyIndex a); [|apply extendsBy_same; reflexivity].
  eapply extendsBy_trans;
    [|apply extendsBy_andThen; intros; apply extendsBy_same; reflexivity].
  eapply extendsBy_trans; [apply extendsBy_updateMarker|].
  apply extendsBy_createParticleExplosion.
Qed.

Lemma extendsBy_pulse (now : Z) (index : nat) (startTime : Z)
    (duration : number) (a : App) :
  P (Pulse index startTime duration) ->
  extendsBy P a (pulse v now index startTime duration a).
Proof.
  intros HP. unfold pulse. destruct (negb _); [apply extendsBy_refl|].
  eapply extendsBy_trans; [|apply extendsBy_requestAnimationFrame; exact HP].
  destruct v; apply extendsBy_updateMarker.
Qed.

Lemma extendsBy_chaosMarker (now : Z) (a : App) (index : nat) :
  (forall startTime duration, P (Pulse index startTime duration)) ->
  P (ChaosBurst index) ->
  extendsBy P a (chaosMarker v now a index).
Proof.
  intros HP HB. unfold chaosMarker. cbn [random].
  set (a1 := with_randomCalls (S (randomCalls a)) a).
  set (a2 := pulse v now index now _ a1).
  assert (H12 : extendsBy P a a2).
  { eapply extendsBy_trans; [|apply extendsBy_pulse, HP].
    apply extendsBy_same; reflexivity. }
  match goal with |- context [if ?c then _ else _] => destruct c end.
  - eapply extendsBy_trans; [exact H12|].
    eapply extendsBy_trans; [|apply extendsBy_setTimeout; exact HB].
    eapply extendsBy_trans; apply extendsBy_same; reflexivity.
  - eapply extendsBy_trans; [exact H12|]. apply extendsBy_same; reflexivity.
Qed.

Lemma extendsBy_startChaosMode (now : Z) (a : App) :
  (forall index startTime duration, P (Pulse index startTime duration)) ->
  (forall index, P (ChaosBurst index)) ->
  extendsBy P a (startChaosMode v now a).
Proof.
  intros HP HB. apply extendsBy_fold. intros. apply extendsBy_chaosMarker; auto.
Qed.

Lemma extendsBy_chaosBurst (index : nat) (a : App) :
  extendsBy P a (chaosBurst v index a).
Proof.
  unfold chaosBurst. destruct (earthquakeMarkers a !! index); [|apply extendsBy_refl].
  apply extendsBy_createParticleExplosion.
Qed.

Lemma extendsBy_fall (now : Z) (index : nat) (startTime : Z)
    (startY targetY fallDuration : number) (a : App) :
  P (Fall index startTime startY targetY fallDuration) ->
  extendsBy P a (fall v now index startTime startY targetY fallDuration a).
Proof.
  intros HP. unfold fall.
  destruct (earthquakeMarkers a !! index); [|apply extendsBy_refl].
  destruct (negb _); [apply extendsBy_updateMarker|].
  match goal with |- context [if ?c then _ else _] => destruct c end.
  - eapply extendsBy_trans;
      [|apply extendsBy_andThen; intros; apply extendsBy_updateMarker].
    eapply extendsBy_trans; [apply extendsBy_updateMarker|].
    apply extendsBy_createParticleExplosion.
  - eapply extendsBy_trans; [apply extendsBy_updateMarker|].
    apply extendsBy_requestAnimationFrame. exact HP.
Qed.

Lemma extendsBy_fallStart (now : Z) (index : nat) (captured : option number)
    (fallDuration : number) (a : App) :
  (forall startTime startY targetY,
     P (Fall index startTime startY targetY fallDuration)) ->
  extendsBy P a (fallStart v now index captured fallDuration a).
Proof.
  intros HP. unfold fallStart.
  destruct (earthquakeMarkers a !! index); [|apply extendsBy_refl].
  apply extendsBy_fall, HP.
Qed.

Lemma extendsBy_rainMarker (a : App) (index : nat) :
  (forall startY fallDuration, P (FallStart index startY fallDuration)) ->
  extendsBy P a (rainMarker v a index).
Proof.
  intros HP. unfold rainMarker.
  destruct (earthquakeMarkers a !! index); [|apply extendsBy_refl].
  eapply extendsBy_trans; [apply extendsBy_updateMarker|].
  apply extendsBy_setTimeout, HP.
Qed.

Lemma extendsBy_startRainMode (a : App) :
  (forall index startY fallDuration, P (FallStart index startY fallDuration)) ->
  extendsBy P a (startRainMode v a).
Proof. intros HP. apply extendsBy_fold. intros. apply extendsBy_rainMarker, HP. Qed.

Lemma extendsBy_doubleClickBurst (a : App) : extendsBy P a (doubleClickBurst v a).
Proof.
  unfold doubleClickBurst.
  destruct (hoveredMarker a); [|apply extendsBy_same; reflexivity].
  destruct (earthquakeMarkers a !! n); [|apply extendsBy_same; reflexivity].
  apply extendsBy_createParticleExplosion.
Qed.

Lemma extendsBy_animate (now : Z) (a : App) :
  P Animate -> extendsBy P a (animate now a).
Proof.
  intros HP. unfold animate.
  eapply extendsBy_trans; [apply (extendsBy_requestAnimationFrame Animate), HP|].
  unfold updateParticles. destruct (updateSystems _ _). apply extendsBy_same; reflexivity.
Qed.

End Extensions.

(** What a callback may ask the host to run later. *)
Definition spawns (cb cb' : Callback) : Prop :=
  match cb with
  | Pulse index startTime duration => cb' = Pulse index startTime duration
  | FallStart index _ fallDuration =>
      exists startTime startY targetY,
        cb' = Fall index startTime startY targetY fallDuration
  | Fall index startTime startY targetY fallDuration =>
      cb' = Fall index startTime startY targetY fallDuration
  | Animate => cb' = Animate
  | HistoryTick | ChaosBurst _ | DoubleClickBurst => False
  end.

Lemma extendsBy_runCallback (now : Z) (cb : Callback) (a : App) :
  extendsBy (spawns cb) a (runCallback v now cb a).
Proof.
  destruct cb; cbn [runCallback].
  - apply extendsBy_historyTick.
  - apply extendsBy_pulse. reflexivity.
  - apply extendsBy_chaosBurst.
  - apply extendsBy_fallStart. intros. cbn. eauto.
  - apply extendsBy_fall. reflexivity.
  - apply extendsBy_doubleClickBurst.
  - apply extendsBy_animate. reflexivity.
Qed.

(** The host's side of a state is in order: handles are fresh, the only
    timer that can run the History tick is the one [modeInterval] holds,
    and no frame request runs it. *)
Definition hostOk (a : App) : Prop :=
  timersFresh a /\
  (forall t, In t (timers a) -> callback t = HistoryTick ->
             modeInterval a = Some (timerId t)) /\
  (forall cb, In cb (frameRequests a) -> cb <> HistoryTick).

Definition noHistoryTimer (a : App) : Prop :=
  forall t, In t (timers a) -> callback t <> HistoryTick.

Lemma hostOk_extendsBy (P : Callback -> Prop) (a b : App) :
  (forall cb, P cb -> cb <> HistoryTick) ->
  hostOk a -> extendsBy P a b -> hostOk b.
Proof.
  intros HP (Hfresh & Htrack & Hframes) (Hm & Hn & (t & Ht & Hf) & (f & Hr & Hg)).
  unfold hostOk, timersFresh. rewrite Ht, Hr, Hm. repeat split.
  - apply Forall_app. split.
    + eapply List.Forall_impl; [|exact Hfresh]. cbn. intros; lia.
    + eapply List.Forall_impl; [|exact Hf]. cbn. intros ? [? _]. lia.
  - intros t0 Hin Hcb. apply in_app_or in Hin as [Hin|Hin]; [auto|].
    rewrite Forall_forall in Hf. destruct (Hf t0 Hin) as [_ Hp].
    exfalso. exact (HP _ Hp Hcb).
  - intros cb Hin. apply in_app_or in Hin as [Hin|Hin]; [auto|].
    rewrite Forall_forall in Hg. apply HP, Hg, Hin.
Qed.

Lemma noHistoryTimer_extendsBy (P : Callback -> Prop) (a b : App) :
  (forall cb, P cb -> cb <> HistoryTick) ->
  noHistoryTimer a -> extendsBy P a b -> noHistoryTimer b.
Proof.
  intros HP Hno (_ & _ & (t & Ht & Hf) & _) t0 Hin. rewrite Ht in Hin.
  apply in_app_or in Hin as [Hin|Hin]; [auto|].
  rewrite Forall_forall in Hf. destruct (Hf t0 Hin) as [_ Hp]. apply HP, Hp.
Qed.

Lemma spawns_not_history (cb cb' : Callback) : spawns cb cb' -> cb' <> HistoryTick.
Proof.
  destruct cb; cbn; try contradiction; try (intros ->; discriminate).
  intros (? & ? & ? & ->). discriminate.
Qed.

Lemma hostOk_removeTimer (id : positive) (a : App) :
  hostOk a -> hostOk (clearInterval id a).
Proof.
  intros (Hfresh & Htrack & Hframes). unfold hostOk, timersFresh, clearInterval. cbn.
  repeat split; try assumption.
  - apply Forall_filter, Hfresh.
  - intros t Hin. apply filter_In in Hin as [Hin _]. auto.
Qed.

(** The reset of [setMode] leaves no timer that runs the History tick. *)
Lemma hostOk_enterMode (mode : JSString) (a : App) :
  hostOk a ->
  hostOk (enterMode v mode a) /\ modeInterval (enterMode v mode a) = None /\
  noHistoryTimer (enterMode v mode a).
Proof.
  intros (Hfresh & Htrack & Hframes).
  unfold enterMode, clearModeInterval, hostOk, timersFresh, noHistoryTimer.
  destruct (modeInterval a) as [id|] eqn:E; cbn.
  - assert (Hno : forall t, In t (List.filter (fun t => negb (timerId t =? id)%positive) (timers a)) ->
                            callback t <> HistoryTick).
    { intros t Hin Hcb. apply filter_In in Hin as [Hin Hne].
      specialize (Htrack t Hin Hcb). injection Htrack as Hid.
      rewrite <- Hid, Pos.eqb_refl in Hne. discriminate. }
    repeat split; try assumption.
    + apply Forall_filter, Hfresh.
    + intros t Hin Hcb. exfalso. exact (Hno t Hin Hcb).
  - assert (Hno : forall t, In t (timers a) -> callback t <> HistoryTick).
    { intros t Hin Hcb. specialize (Htrack t Hin Hcb). discriminate. }
    repeat split; try assumption.
    intros t Hin Hcb. exfalso. exact (Hno t Hin Hcb).
Qed.

Lemma hostOk_startHistoryMode (a : App) :
  hostOk a -> noHistoryTimer a -> hostOk (startHistoryMode v a).
Proof.
  intros (Hfresh & Htrack & Hframes) Hno.
  unfold startHistoryMode, setInterval, hostOk, timersFresh. cbn. repeat split.
  - apply Forall_app. split.
    + eapply List.Forall_impl; [|exact Hfresh]. cbn. intros; lia.
    + repeat constructor. cbn. lia.
  - intros t Hin Hcb. apply in_app_or in Hin as [Hin|[<-|[]]].
    + exfalso. exact (Hno t Hin Hcb).
    + reflexivity.
  - exact Hframes.
Qed.

Lemma hostOk_setMode (mode : JSString) (now : Z) (a : App) :
  hostOk a -> hostOk (setMode v mode now a).
Proof.
  intros Ha. destruct (hostOk_enterMode mode a Ha) as (Hok & _ & Hno).
  unfold setMode, startMode.
  destruct (strEqb mode (lit "history")); [apply hostOk_startHistoryMode; assumption|].
  destruct (strEqb mode (lit "chaos")).
  { eapply (hostOk_extendsBy (fun cb => cb <> HistoryTick)); [auto|exact Hok|].
    apply extendsBy_startChaosMode; discriminate. }
  destruct (strEqb mode (lit "rain")); [|exact Hok].
  eapply (hostOk_extendsBy (fun cb => cb <> HistoryTick)); [auto|exact Hok|].
  apply extendsBy_startRainMode; discriminate.
Qed.

Lemma hostOk_runCallback (now : Z) (cb : Callback) (a : App) :
  hostOk a -> hostOk (runCallback v now cb a).
Proof.
  intros Ha. eapply hostOk_extendsBy; [|exact Ha|apply extendsBy_runCallback].
  apply spawns_not_history.
Qed.

Lemma hostOk_andThen (a : App) (k : App -> App) :
  (forall b, hostOk b -> hostOk (k b)) -> hostOk a -> hostOk (andThen a k).
Proof. intros Hk Ha. unfold andThen. destruct (hung a); auto. Qed.

Lemma hostOk_step (e : Event) (a : App) : hostOk a -> hostOk (step v e a).
Proof.
  intros Ha. unfold step. destruct (hung a); [exact Ha|].
  destruct e.
  - unfold fireTimer. destruct (List.find _ _) as [t|]; [|exact Ha].
    apply hostOk_runCallback. destruct (repeats t); [exact Ha|].
    apply hostOk_removeTimer, Ha.
  - unfold runFrame.
    assert (H0 : hostOk (with_frameRequests [] a)).
    { destruct Ha as (H1 & H2 & H3). repeat split; try assumption.
      intros cb []. }
    revert H0. generalize (with_frameRequests [] a).
    induction (frameRequests a) as [|cb cbs IH]; intros b Hb; [exact Hb|].
    cbn. apply IH. apply hostOk_andThen; [|exact Hb].
    intros. apply hostOk_runCallback. assumption.
  - apply hostOk_setMode, Ha.
  - unfold onKeyDown. destruct key as [k|]; [|exact Ha].
    destruct (_ && _); [|exact Ha].
    destruct (_ !! _); [|exact Ha]. apply hostOk_setMode, Ha.
  - eapply (hostOk_extendsBy (fun _ => False)); [contradiction|exact Ha|].
    apply extendsBy_same; unfold onMouseMove;
      destruct hit, (hoveredMarker a), v; reflexivity.
  - eapply (hostOk_extendsBy (fun _ => False)); [contradiction|exact Ha|].
    apply extendsBy_same; unfold onClick;
      destruct (hoveredMarker a); try reflexivity;
      match goal with |- context [if ?c then _ else _] => destruct c end; reflexivity.
  - unfold onDoubleClick. destruct (hoveredMarker a); [|exact Ha].
    eapply (hostOk_extendsBy (fun cb => cb <> HistoryTick)); [auto|exact Ha|].
    apply extendsBy_setTimeout. discriminate.
Qed.

Lemma hostOk_init (r : Fetched) (now : Z) : hostOk (init v r now).
Proof.
  eapply (hostOk_extendsBy (fun cb => cb <> HistoryTick)); [auto| |].
  2: { unfold init. apply extendsBy_animate. discriminate. }
  destruct r; repeat split; cbn; try constructor; intros ? [].
Qed.

Lemma hostOk_reachable (a : App) : reachable a -> hostOk a.
Proof.
  induction 1 as [r now|e a _ IH]; [apply hostOk_init | apply hostOk_step, IH].
Qed.

(** ** Where a marker is *)

(** The current mode, and the position of marker [i] with its resting
    position. *)
Definition poseAt (i : nat) (a : App) : JSString * option (Vector3.t * Vector3.t) :=
  (currentMode a,
   option_map (fun m => (Marker.position m, Marker.originalPosition m))
     (earthquakeMarkers a !! i)).

Definition keepsPose (f : Marker.t -> Marker.t) : Prop :=
  forall m, Marker.position (f m) = Marker.position m /\
            Marker.originalPosition (f m) = Marker.originalPosition m.

Lemma keepsPose_set_scale (s : number) : keepsPose (Marker.set_scale s).
Proof. intros m. split; reflexivity. Qed.

Lemma keepsPose_set_opacity (o : number) : keepsPose (Marker.set_opacity o).
Proof. intros m. split; reflexivity. Qed.

Lemma keepsPose_set_line (o : number) : keepsPose (Marker.set_line o).
Proof. intros m. split; reflexivity. Qed.

Lemma keepsPose_compose (f g : Marker.t -> Marker.t) :
  keepsPose f -> keepsPose g -> keepsPose (fun m => f (g m)).
Proof.
  intros Hf Hg m. destruct (Hf (g m)) as [-> ->]. apply Hg.
Qed.

Lemma keepsPose_dimMarker : keepsPose (dimMarker v).
Proof. intros m. unfold dimMarker. destruct v; split; reflexivity. Qed.

Lemma keepsPose_revealMarker : keepsPose (revealMarker v).
Proof. intros m. unfold revealMarker. destruct v; split; reflexivity. Qed.

Lemma poseAt_updateMarker (i j : nat) (f : Marker.t -> Marker.t) (a : App) :
  j <> i \/ keepsPose f -> poseAt i (updateMarker j f a) = poseAt i a.
Proof.
  intros H. unfold poseAt, updateMarker. cbn. f_equal.
  destruct (Nat.eq_dec j i) as [->|Hne].
  - destruct H as [H|H]; [congruence|].
    rewrite list_lookup_alter_eq. destruct (earthquakeMarkers a !! i) as [m|]; [|reflexivity].
    cbn. destruct (H m) as [-> ->]. reflexivity.
  - rewrite list_lookup_alter_ne by exact Hne. reflexivity.
Qed.

Lemma poseAt_map (i : nat) (f : Marker.t -> Marker.t) (a : App) :
  keepsPose f ->
  poseAt i (with_earthquakeMarkers (map f (earthquakeMarkers a)) a) = poseAt i a.
Proof.
  intros H. unfold poseAt. cbn. f_equal. rewrite lookup_map.
  destruct (earthquakeMarkers a !! i) as [m|]; [|reflexivity].
  cbn. destruct (H m) as [-> ->]. reflexivity.
Qed.

Lemma poseAt_fold {A : Type} (i : nat) (f : App -> A -> App) (l : list A) (a : App) :
  (forall a x, poseAt i (f a x) = poseAt i a) ->
  poseAt i (fold_left f l a) = poseAt i a.
Proof.
  intros Hf. revert a. induction l as [|x l IH]; intros a; [reflexivity|].
  cbn. rewrite IH. apply Hf.
Qed.

Lemma poseAt_createParticleExplosion (i : nat) (position : Vector3.t)
    (magnitude depth : number) (a : App) :
  poseAt i (createParticleExplosion v position magnitude depth a) = poseAt i a.
Proof.
  unfold createParticleExplosion.
  destruct (loopCount _); [|reflexivity].
  destruct (explosionLoop _ _ _ _ _) as [[ps vs] cs]. reflexivity.
Qed.

Lemma poseAt_andThen (i : nat) (a : App) (k : App -> App) :
  (forall b, poseAt i (k b) = poseAt i b) -> poseAt i (andThen a k) = poseAt i a.
Proof. intros Hk. unfold andThen. destruct (hung a); [reflexivity | apply Hk]. Qed.

Lemma poseAt_historyTick (i : nat) (a : App) : poseAt i (historyTick v a) = poseAt i a.
Proof.
  unfold historyTick.
  destruct (historyIndex a <? length (earthquakeMarkers a))%nat.
  - destruct (earthquakeMarkers a !! historyIndex a); [|reflexivity].
    rewrite poseAt_andThen by reflexivity.
    rewrite poseAt_createParticleExplosion.
    apply poseAt_updateMarker. right. apply keepsPose_revealMarker.
  - apply (poseAt_map i (dimMarker v) (with_historyIndex 0%nat a)), keepsPose_dimMarker.
Qed.

Lemma poseAt_pulse (i : nat) (now : Z) (index : nat) (startTime : Z)
    (duration : number) (a : App) :
  poseAt i (pulse v now index startTime duration a) = poseAt i a.
Proof.
  unfold pulse. destruct (negb _); [reflexivity|].
  change (poseAt i (requestAnimationFrame ?cb ?b)) with (poseAt i b).
  destruct v; apply poseAt_updateMarker; right.
  - apply (keepsPose_compose (Marker.set_line _) (Marker.set_scale _));
      [apply keepsPose_set_line | apply keepsPose_set_scale].
  - apply keepsPose_set_scale.
Qed.

Lemma poseAt_chaosMarker (i : nat) (now : Z) (a : App) (index : nat) :
  poseAt i (chaosMarker v now a index) = poseAt i a.
Proof.
  unfold chaosMarker. cbn [random].
  match goal with |- context [if ?c then _ else _] => destruct c end.
  - change (poseAt i (setTimeout ?cb ?ms ?b)) with (poseAt i b).
    change (poseAt i (with_randomCalls ?n ?b)) with (poseAt i b).
    change (poseAt i (with_randomCalls ?n ?b)) with (poseAt i b).
    rewrite poseAt_pulse. reflexivity.
  - change (poseAt i (with_randomCalls ?n ?b)) with (poseAt i b).
    rewrite poseAt_pulse. reflexivity.
Qed.

Lemma poseAt_startChaosMode (i : nat) (now : Z) (a : App) :
  poseAt i (startChaosMode v now a) = poseAt i a.
Proof. apply poseAt_fold. intros. apply poseAt_chaosMarker. Qed.

Lemma poseAt_chaosBurst (i index : nat) (a : App) :
  poseAt i (chaosBurst v index a) = poseAt i a.
Proof.
  unfold chaosBurst. destruct (earthquakeMarkers a !! index); [|reflexivity].
  apply poseAt_createParticleExplosion.
Qed.

Lemma poseAt_doubleClickBurst (i : nat) (a : App) :
  poseAt i (doubleClickBurst v a) = poseAt i a.
Proof.
  unfold doubleClickBurst. destruct (hoveredMarker a); [|reflexivity].
  destruct (earthquakeMarkers a !! n); [|reflexivity].
  apply poseAt_createParticleExplosion.
Qed.

Lemma poseAt_animate (i : nat) (now : Z) (a : App) :
  poseAt i (animate now a) = poseAt i a.
Proof. unfold animate, updateParticles. destruct (updateSystems _ _). reflexivity. Qed.

Lemma poseAt_onMouseMove (i : nat) (hit : option nat) (a : App) :
  poseAt i (onMouseMove v hit a) = poseAt i a.
Proof.
  unfold onMouseMove.
  assert (H : forall j s b, poseAt i (updateMarker j (Marker.set_scale s) b) = poseAt i b)
    by (intros; apply poseAt_updateMarker; right; apply keepsPose_set_scale).
  assert (H' : forall j s b, poseAt i (updateMarker j (Marker.set_line s) b) = poseAt i b)
    by (intros; apply poseAt_updateMarker; right; apply keepsPose_set_line).
  destruct hit as [j|], (hoveredMarker a) as [k|], v;
    repeat first
      [ rewrite H | rewrite H'
      | progress change (poseAt i (with_hoveredMarker ?h ?b)) with (poseAt i b) ];
    reflexivity.
Qed.

Lemma poseAt_onClick (i : nat) (a : App) : poseAt i (onClick a) = poseAt i a.
Proof.
  unfold onClick. destruct (hoveredMarker a); [|reflexivity].
  match goal with |- context [if ?c then _ else _] => destruct c end; reflexivity.
Qed.

Lemma poseAt_onDoubleClick (i : nat) (a : App) :
  poseAt i (onDoubleClick v a) = poseAt i a.
Proof. unfold onDoubleClick. destruct (hoveredMarker a); reflexivity. Qed.

(** A fall moves its own marker only. *)
Lemma poseAt_fall (i : nat) (now : Z) (index : nat) (startTime : Z)
    (startY targetY fallDuration : number) (a : App) :
  index <> i ->
  poseAt i (fall v now index startTime startY targetY fallDuration a) = poseAt i a.
Proof.
  intros Hne. unfold fall. destruct (earthquakeMarkers a !! index); [|reflexivity].
  destruct (negb _); [apply poseAt_updateMarker; left; exact Hne|].
  match goal with |- context [if ?c then _ else _] => destruct c end.
  - rewrite poseAt_andThen by (intros; apply poseAt_updateMarker; left; exact Hne).
    rewrite poseAt_createParticleExplosion.
    apply poseAt_updateMarker. left. exact Hne.
  - change (poseAt i (requestAnimationFrame ?cb ?b)) with (poseAt i b).
    apply poseAt_updateMarker. left. exact Hne.
Qed.

Lemma poseAt_fallStart (i : nat) (now : Z) (index : nat) (captured : option number)
    (fallDuration : number) (a : App) :
  index <> i ->
  poseAt i (fallStart v now index captured fallDuration a) = poseAt i a.
Proof.
  intros Hne. unfold fallStart. destruct (earthquakeMarkers a !! index); [|reflexivity].
  apply poseAt_fall, Hne.
Qed.

(** The callbacks of the fall of marker [i]. *)
Definition fallOf (i : nat) (cb : Callback) : Prop :=
  match cb with
  | FallStart index _ _ => index = i
  | Fall index _ _ _ _ => index = i
  | _ => False
  end.

Lemma poseAt_runCallback (i : nat) (now : Z) (cb : Callback) (a : App) :
  ~ fallOf i cb -> poseAt i (runCallback v now cb a) = poseAt i a.
Proof.
  intros Hcb. destruct cb; cbn [runCallback].
  - apply poseAt_historyTick.
  - apply poseAt_pulse.
  - apply poseAt_chaosBurst.
  - apply poseAt_fallStart. exact Hcb.
  - apply poseAt_fall. exact Hcb.
  - apply poseAt_doubleClickBurst.
  - apply poseAt_animate.
Qed.

(** ** Rain mode *)

(** [progress] and the altitude written by [fall], as functions of the
    elapsed time. *)
Definition fallProgress (fallDuration : number) (elapsed : Z) : number :=
  Num.min (Num.of_Z elapsed / fallDuration) (Fin 1).

Definition fallAltitude (startY targetY fallDuration : number) (elapsed : Z) : number :=
  let progress := fallProgress fallDuration elapsed in
  (startY + (targetY - startY) * (progress * progress))%num.

Lemma fall_unfold (now : Z) (index : nat) (startTime : Z)
    (startY targetY fallDuration : number) (a : App) (marker : Marker.t) :
  earthquakeMarkers a !! index = Some marker ->
  fall v now index startTime startY targetY fallDuration a =
    if negb (isMode "rain" a) then updateMarker index snapToRest a
    else
      let a' := updateMarker index
                  (set_position_y
                     (fallAltitude startY targetY fallDuration (now - startTime))) a in
      if (fallProgress fallDuration (now - startTime) >=? Fin 1)%num then
        andThen
          (createParticleExplosion v (Marker.originalPosition marker)
             (Quake.magnitud (Marker.quake marker))
             (Quake.profundidad (Marker.quake marker)) a')
          (updateMarker index snapToRest)
      else requestAnimationFrame (Fall index startTime startY targetY fallDuration) a'.
Proof. intros H. unfold fall. rewrite H. reflexivity. Qed.

(** The progress of a fall of positive duration. *)
Lemma fallProgress_value (d : Q) (e : Z) :
  (0 < d)%Q ->
  exists p, fallProgress (Fin d) e = Fin p /\
    ((inject_Z e < d)%Q -> p == inject_Z e / d /\ (p < 1)%Q) /\
    ((d <= inject_Z e)%Q -> p == 1).
Proof.
  intros Hd. unfold fallProgress, Num.of_Z. cbn [Num.div].
  destruct (Qeq_bool d 0) eqn:E0.
  { apply Qeq_bool_eq in E0. lra. }
  cbn [Num.min Num.ltb].
  assert (Hdiv : forall x, (x < d -> x / d < 1)%Q /\ (d <= x -> 1 <= x / d)%Q).
  { intros x. split; intros Hx.
    - apply Qlt_shift_div_r; lra.
    - apply Qle_shift_div_l; lra. }
  destruct (Qltb 1 (inject_Z e / d)) eqn:E1.
  - apply Qltb_true in E1. exists 1%Q. split; [reflexivity|]. split.
    + intros He. apply Hdiv in He. lra.
    + reflexivity.
  - apply Qltb_false in E1. exists (inject_Z e / d)%Q. split; [reflexivity|]. split.
    + intros He. split; [reflexivity | apply Hdiv, He].
    + intros He. apply Hdiv in He. lra.
Qed.

Lemma fallAltitude_value (sy ty d : Q) (e : Z) :
  (0 < d)%Q ->
  exists p y,
    fallProgress (Fin d) e = Fin p /\
    fallAltitude (Fin sy) (Fin ty) (Fin d) e = Fin y /\
    y == sy + (ty - sy) * (p * p).
Proof.
  intros Hd. destruct (fallProgress_value d e Hd) as (p & Hp & _).
  exists p. eexists. split; [exact Hp|]. unfold fallAltitude. rewrite Hp. cbn.
  split; [reflexivity|]. ring.
Qed.

Lemma fallProgress_monotone (d : Q) (e1 e2 : Z) (p1 p2 : Q) :
  (0 < d)%Q -> (0 <= e1 <= e2)%Z ->
  fallProgress (Fin d) e1 = Fin p1 -> fallProgress (Fin d) e2 = Fin p2 ->
  (0 <= p1 <= p2)%Q /\ (p2 <= 1)%Q.
Proof.
  intros Hd [H0 H12] Hp1 Hp2.
  destruct (fallProgress_value d e1 Hd) as (q1 & Hq1 & Hlt1 & Hge1).
  destruct (fallProgress_value d e2 Hd) as (q2 & Hq2 & Hlt2 & Hge2).
  rewrite Hp1 in Hq1. rewrite Hp2 in Hq2.
  injection Hq1 as <-. injection Hq2 as <-.
  assert (Q0 : (0 <= inject_Z e1)%Q).
  { change 0%Q with (inject_Z 0). rewrite <- Zle_Qle. exact H0. }
  assert (Q12 : (inject_Z e1 <= inject_Z e2)%Q) by (rewrite <- Zle_Qle; exact H12).
  assert (Hinv : (0 < / d)%Q) by (apply Qinv_lt_0_compat; exact Hd).
  assert (Hq : forall x y, (0 <= x <= y -> 0 <= x / d <= y / d)%Q).
  { intros x y [Hx Hxy]. unfold Qdiv. split.
    - apply Qmult_le_0_compat; lra.
    - apply Qmult_le_compat_r; lra. }
  destruct (Qlt_le_dec (inject_Z e2) d) as [L2|G2].
  - destruct (Hlt2 L2) as [E2 B2].
    destruct (Hlt1 ltac:(lra)) as [E1 B1].
    rewrite E1, E2. split; [apply Hq; lra|]. rewrite <- E2. lra.
  - specialize (Hge2 G2).
    destruct (Qlt_le_dec (inject_Z e1) d) as [L1|G1].
    + destruct (Hlt1 L1) as [E1 B1]. split; [|lra]. split; [|lra].
      rewrite E1. apply (Hq (inject_Z e1) (inject_Z e1)). lra.
    + specialize (Hge1 G1). lra.
Qed.

(** The altitude written by a fall never rises as the clock advances. *)
Lemma fallAltitude_monotone (sy ty d : Q) (e1 e2 : Z) :
  (0 < d)%Q -> (ty <= sy)%Q -> (0 <= e1 <= e2)%Z ->
  (fallAltitude (Fin sy) (Fin ty) (Fin d) e2 <=?
   fallAltitude (Fin sy) (Fin ty) (Fin d) e1)%num = true.
Proof.
  intros Hd Hty He.
  destruct (fallAltitude_value sy ty d e1 Hd) as (p1 & y1 & Hp1 & Hy1 & E1).
  destruct (fallAltitude_value sy ty d e2 Hd) as (p2 & y2 & Hp2 & Hy2 & E2).
  destruct (fallProgress_monotone d e1 e2 p1 p2 Hd He Hp1 Hp2) as [[H0 H12] _].
  rewrite Hy1, Hy2. apply leb_Fin. rewrite E1, E2.
  assert (Hsq : (p1 * p1 <= p2 * p2)%Q) by nra.
  nra.
Qed.

(** It starts at the start altitude and ends at the target. *)
Lemma fallAltitude_ends (sy ty d : Q) (e : Z) :
  (0 < d)%Q ->
  (e = 0%Z -> Num.eqv (fallAltitude (Fin sy) (Fin ty) (Fin d) e) (Fin sy)) /\
  ((d <= inject_Z e)%Q ->
   Num.eqv (fallAltitude (Fin sy) (Fin ty) (Fin d) e) (Fin ty) /\
   (fallProgress (Fin d) e >=? Fin 1)%num = true) /\
  ((inject_Z e < d)%Q -> (fallProgress (Fin d) e >=? Fin 1)%num = false).
Proof.
  intros Hd.
  destruct (fallAltitude_value sy ty d e Hd) as (p & y & Hp & Hy & E).
  destruct (fallProgress_value d e Hd) as (q & Hq & Hlt & Hge).
  rewrite Hp in Hq. injection Hq as <-.
  rewrite Hy, Hp. unfold Num.geb. cbn [Num.eqv Num.leb].
  split; [|split].
  - intros ->. destruct (Hlt Hd) as [Ep _]. rewrite E, Ep.
    change (inject_Z 0) with 0%Q. field. lra.
  - intros He. specialize (Hge He). split.
    + rewrite E, Hge. ring.
    + apply Qle_bool_iff. lra.
  - intros He. destruct (Hlt He) as [_ Hp1].
    destruct (Qle_bool 1 p) eqn:Eb; [|reflexivity].
    apply Qle_bool_iff in Eb. lra.
Qed.

Lemma alter_fixpoint {A : Type} (f : A -> A) (i : nat) (l : list A) (x : A) :
  l !! i = Some x -> f x = x -> alter f i l = l.
Proof.
  revert i. induction l as [|y l IH]; intros [|i] Hl Hx; cbn in *; try discriminate.
  - injection Hl as ->. rewrite Hx. reflexivity.
  - f_equal. apply IH; assumption.
Qed.

Lemma snapToRest_at_rest (i : nat) (m : Marker.t) (a : App) :
  earthquakeMarkers a !! i = Some m ->
  Marker.position m = Marker.originalPosition m ->
  updateMarker i snapToRest a = a.
Proof.
  intros Hm Hrest. unfold updateMarker.
  rewrite (alter_fixpoint snapToRest i _ m Hm).
  - destruct a. reflexivity.
  - destruct m. cbn in *. subst. reflexivity.
Qed.

(** A fall resumed after the mode has changed only snaps its marker. *)
Lemma fall_aborts (now : Z) (i : nat) (startTime : Z)
    (startY targetY fallDuration : number) (a : App) :
  isMode "rain" a = false ->
  fall v now i startTime startY targetY fallDuration a =
    match earthquakeMarkers a !! i with
    | Some _ => updateMarker i snapToRest a
    | None => a
    end.
Proof. intros H. unfold fall. rewrite H. reflexivity. Qed.

Lemma fall_in_flight (now : Z) (i : nat) (m : Marker.t) (startTime : Z)
    (sy ty d : Q) (a : App) :
  earthquakeMarkers a !! i = Some m -> isMode "rain" a = true ->
  (0 < d)%Q -> (inject_Z (now - startTime) < d)%Q ->
  fall v now i startTime (Fin sy) (Fin ty) (Fin d) a =
    requestAnimationFrame (Fall i startTime (Fin sy) (Fin ty) (Fin d))
      (updateMarker i
         (set_position_y (fallAltitude (Fin sy) (Fin ty) (Fin d) (now - startTime))) a).
Proof.
  intros Hm Hmode Hd He. rewrite (fall_unfold _ _ _ _ _ _ _ m Hm), Hmode. cbn [negb].
  destruct (fallAltitude_ends sy ty d (now - startTime) Hd) as (_ & _ & Hlt).
  cbv zeta. rewrite (Hlt He). reflexivity.
Qed.

Lemma fall_impact (now : Z) (i : nat) (m : Marker.t) (startTime : Z)
    (sy ty d : Q) (a : App) :
  earthquakeMarkers a !! i = Some m -> isMode "rain" a = true ->
  (0 < d)%Q -> (d <= inject_Z (now - startTime))%Q ->
  hung a = false -> Quake.magnitud (Marker.quake m) <> Inf false ->
  let b := fall v now i startTime (Fin sy) (Fin ty) (Fin d) a in
  (exists m', earthquakeMarkers b !! i = Some m' /\
              Marker.position m' = Marker.originalPosition m' /\
              Marker.originalPosition m' = Marker.originalPosition m) /\
  particleSystems b = particleSystems a ++ [markerBurst (randomCalls a) m] /\
  timers b = timers a /\ frameRequests b = frameRequests a /\
  hung b = false /\ currentMode b = currentMode a.
Proof.
  intros Hm Hmode Hd He Hh Hmag. cbv zeta.
  rewrite (fall_unfold _ _ _ _ _ _ _ m Hm), Hmode. cbn [negb].
  destruct (fallAltitude_ends sy ty d (now - startTime) Hd) as (_ & Hge & _).
  destruct (Hge He) as [_ Hp]. cbv zeta. rewrite Hp.
  rewrite createParticleExplosion_returns by exact Hmag.
  unfold andThen. cbn. rewrite Hh. cbn. repeat split; try assumption.
  rewrite !list_lookup_alter_eq, Hm. cbn. eexists. split; [reflexivity|].
  split; reflexivity.
Qed.

(** No fall of marker [i] is waiting in the host. *)
Definition noFallPending (i : nat) (a : App) : Prop :=
  (forall t, In t (timers a) -> ~ fallOf i (callback t)) /\
  (forall cb, In cb (frameRequests a) -> ~ fallOf i cb).

Definition isModeSwitch (e : Event) : Prop :=
  match e with
  | SetMode _ _ | KeyDown _ _ => True
  | _ => False
  end.

Lemma noFallPending_extendsBy (P : Callback -> Prop) (i : nat) (a b : App) :
  (forall cb, P cb -> ~ fallOf i cb) ->
  noFallPending i a -> extendsBy P a b -> noFallPending i b.
Proof.
  intros HP [Ht Hf] (_ & _ & (t & Et & Ft) & (f & Ef & Ff)).
  unfold noFallPending. rewrite Et, Ef. split.
  - intros t0 Hin. apply in_app_or in Hin as [Hin|Hin]; [auto|].
    rewrite Forall_forall in Ft. apply HP, (Ft t0 Hin).
  - intros cb Hin. apply in_app_or in Hin as [Hin|Hin]; [auto|].
    rewrite Forall_forall in Ff. apply HP, (Ff cb Hin).
Qed.

Lemma spawns_fallOf (i : nat) (cb cb' : Callback) :
  ~ fallOf i cb -> spawns cb cb' -> ~ fallOf i cb'.
Proof.
  destruct cb; cbn; intros Hcb Hs; try contradiction; subst; cbn; auto.
  destruct Hs as (? & ? & ? & ->). exact Hcb.
Qed.

Lemma quiet_runCallback (i : nat) (now : Z) (cb : Callback) (a : App) :
  ~ fallOf i cb -> noFallPending i a ->
  noFallPending i (runCallback v now cb a) /\
  poseAt i (runCallback v now cb a) = poseAt i a.
Proof.
  intros Hcb Ha. split; [|apply poseAt_runCallback, Hcb].
  eapply noFallPending_extendsBy; [|exact Ha|apply extendsBy_runCallback].
  intros cb'. apply spawns_fallOf, Hcb.
Qed.

(** Unless the mode is switched, nothing starts a fall of marker [i] or
    moves it when none is pending. *)
Lemma quiet_step (i : nat) (e : Event) (a : App) :
  ~ isModeSwitch e -> noFallPending i a ->
  noFallPending i (step v e a) /\ poseAt i (step v e a) = poseAt i a.
Proof.
  intros He Ha. unfold step. destruct (hung a); [split; [exact Ha|reflexivity]|].
  destruct e; cbn in He; try (exfalso; apply He; exact I).
  - unfold fireTimer.
    destruct (List.find _ _) as [t|] eqn:Ef; [|split; [exact Ha|reflexivity]].
    apply find_some in Ef as [Hin _].
    assert (Hcb : ~ fallOf i (callback t)) by (apply (proj1 Ha), Hin).
    destruct (repeats t); [apply quiet_runCallback; assumption|].
    destruct (quiet_runCallback i now (callback t) (clearInterval id a) Hcb) as [H1 H2].
    { destruct Ha as [Ht Hf]. split; [|exact Hf].
      intros t0 Hin0. apply filter_In in Hin0 as [Hin0 _]. auto. }
    split; [exact H1 | rewrite H2; reflexivity].
  - unfold runFrame.
    assert (H0 : noFallPending i (with_frameRequests [] a) /\
                 poseAt i (with_frameRequests [] a) = poseAt i a).
    { destruct Ha as [Ht Hf]. repeat split; [exact Ht | intros ? []]. }
    assert (Hq : forall cb, In cb (frameRequests a) -> ~ fallOf i cb) by apply (proj2 Ha).
    revert H0 Hq. generalize (with_frameRequests [] a).
    induction (frameRequests a) as [|cb cbs IH]; intros b Hb Hq; [exact Hb|].
    cbn [fold_left]. apply IH; [|intros; apply Hq; right; assumption].
    destruct Hb as [Hb1 Hb2]. unfold andThen.
    destruct (hung b); [split; assumption|].
    destruct (quiet_runCallback i now cb b (Hq cb (or_introl eq_refl)) Hb1) as [H1 H2].
    split; [exact H1 | rewrite H2; exact Hb2].
  - split; [|apply poseAt_onMouseMove].
    eapply (noFallPending_extendsBy (fun _ => False)); [contradiction|exact Ha|].
    apply extendsBy_same; unfold onMouseMove;
      destruct hit, (hoveredMarker a), v; reflexivity.
  - split; [|apply poseAt_onClick].
    eapply (noFallPending_extendsBy (fun _ => False)); [contradiction|exact Ha|].
    apply extendsBy_same; unfold onClick;
      destruct (hoveredMarker a); try reflexivity;
      match goal with |- context [if ?c then _ else _] => destruct c end; reflexivity.
  - split; [|apply poseAt_onDoubleClick].
    unfold onDoubleClick. destruct (hoveredMarker a); [|exact Ha].
    eapply (noFallPending_extendsBy (fun cb => cb = DoubleClickBurst)); [|exact Ha|].
    + intros cb ->. cbn. auto.
    + apply extendsBy_setTimeout. reflexivity.
Qed.

Lemma quiet_run (i : nat) (events : list Event) (a : App) :
  Forall (fun e => ~ isModeSwitch e) events -> noFallPending i a ->
  noFallPending i (run v events a) /\ poseAt i (run v events a) = poseAt i a.
Proof.
  intros He. revert a. induction He as [|e events He _ IH]; intros a Ha.
  - split; [exact Ha | reflexivity].
  - change (run v (e :: events) a) with (run v events (step v e a)).
    destruct (quiet_step i e a He Ha) as [H1 H2].
    destruct (IH _ H1) as [H3 H4]. split; [exact H3 | rewrite H4; exact H2].
Qed.


(** ** Stale callbacks *)

(** Outside Rain mode every marker is at its resting position. *)
Definition restful (pose : JSString * option (Vector3.t * Vector3.t)) : Prop :=
  strEqb pose.1 (lit "rain") = false ->
  match pose.2 with
  | Some (position, originalPosition) => position = originalPosition
  | None => True
  end.

Definition restOutsideRain (a : App) : Prop := forall i, restful (poseAt i a).

Lemma currentMode_fall (now : Z) (index : nat) (startTime : Z)
    (startY targetY fallDuration : number) (a : App) :
  currentMode (fall v now index startTime startY targetY fallDuration a) = currentMode a.
Proof.
  pose proof (poseAt_fall (S index) now index startTime startY targetY fallDuration a
                ltac:(lia)) as H.
  exact (f_equal fst H).
Qed.

Lemma restful_fall (now : Z) (index : nat) (startTime : Z)
    (startY targetY fallDuration : number) (a : App) :
  restOutsideRain a ->
  restOutsideRain (fall v now index startTime startY targetY fallDuration a).
Proof.
  intros Ha i. destruct (Nat.eq_dec index i) as [->|Hne].
  - unfold restful, poseAt. cbn [fst snd]. rewrite currentMode_fall. intros Hmode.
    rewrite fall_aborts by exact Hmode.
    destruct (earthquakeMarkers a !! i) as [m|] eqn:Em; [|rewrite Em; exact I].
    unfold updateMarker. cbn. rewrite list_lookup_alter_eq, Em. reflexivity.
  - rewrite poseAt_fall by exact Hne. apply Ha.
Qed.

Lemma restful_runCallback (now : Z) (cb : Callback) (a : App) :
  restOutsideRain a -> restOutsideRain (runCallback v now cb a).
Proof.
  intros Ha. destruct cb; cbn [runCallback].
  - intros i. rewrite poseAt_historyTick. apply Ha.
  - intros i. rewrite poseAt_pulse. apply Ha.
  - intros i. rewrite poseAt_chaosBurst. apply Ha.
  - unfold fallStart. destruct (earthquakeMarkers a !! marker); [|exact Ha].
    apply restful_fall, Ha.
  - apply restful_fall, Ha.
  - intros i. rewrite poseAt_doubleClickBurst. apply Ha.
  - intros i. rewrite poseAt_animate. apply Ha.
Qed.

Lemma currentMode_startRainMode (a : App) :
  currentMode (startRainMode v a) = currentMode a.
Proof.
  unfold startRainMode. generalize (seq 0 (length (earthquakeMarkers a))).
  intros l. revert a. induction l as [|x l IH]; intros a; [reflexivity|].
  cbn. rewrite IH. unfold rainMarker.
  destruct (earthquakeMarkers a !! x); reflexivity.
Qed.

Lemma restful_setMode (mode : JSString) (now : Z) (a : App) :
  restOutsideRain (setMode v mode now a).
Proof.
  assert (H0 : restOutsideRain (enterMode v mode a)).
  { intros i _. unfold poseAt. cbn [snd]. rewrite earthquakeMarkers_enterMode, lookup_map.
    destruct (earthquakeMarkers a !! i) as [m|]; [|exact I]. cbn.
    destruct (resetMarker_base m) as (_ & H & _). exact H. }
  unfold setMode, startMode.
  destruct (strEqb mode (lit "history")).
  { intros i. unfold startHistoryMode, setInterval. cbn.
    change (restful (poseAt i (with_earthquakeMarkers
              (map (dimMarker v) (earthquakeMarkers (enterMode v mode a)))
              (enterMode v mode a)))).
    rewrite poseAt_map by apply keepsPose_dimMarker. apply H0. }
  destruct (strEqb mode (lit "chaos")).
  { intros i. rewrite poseAt_startChaosMode. apply H0. }
  destruct (strEqb mode (lit "rain")) eqn:E; [|exact H0].
  intros i Hmode. exfalso. unfold poseAt in Hmode. cbn [fst] in Hmode.
  rewrite currentMode_startRainMode in Hmode.
  change (currentMode (enterMode v mode a)) with mode in Hmode. congruence.
Qed.

Lemma restful_step (e : Event) (a : App) :
  restOutsideRain a -> restOutsideRain (step v e a).
Proof.
  intros Ha. unfold step. destruct (hung a); [exact Ha|].
  destruct e.
  - unfold fireTimer. destruct (List.find _ _) as [t|]; [|exact Ha].
    apply restful_runCallback. destruct (repeats t); exact Ha.
  - unfold runFrame.
    assert (H0 : restOutsideRain (with_frameRequests [] a)) by exact Ha.
    revert H0. generalize (with_frameRequests [] a).
    induction (frameRequests a) as [|cb cbs IH]; intros b Hb; [exact Hb|].
    cbn [fold_left]. apply IH. unfold andThen.
    destruct (hung b); [exact Hb | apply restful_runCallback, Hb].
  - apply restful_setMode.
  - unfold onKeyDown. destruct key as [k|]; [|exact Ha].
    destruct (_ && _); [|exact Ha].
    destruct (_ !! _); [|exact Ha]. apply restful_setMode.
  - intros i. rewrite poseAt_onMouseMove. apply Ha.
  - intros i. rewrite poseAt_onClick. apply Ha.
  - intros i. rewrite poseAt_onDoubleClick. apply Ha.
Qed.

Lemma restful_init (r : Fetched) (now : Z) : restOutsideRain (init v r now).
Proof.
  intros i _. unfold init. rewrite poseAt_animate. unfold poseAt. cbn [snd].
  unfold createEarthquakeMarkers. cbn.
  destruct r; cbn; [exact I|]. rewrite lookup_map.
  destruct (parseText text !! i); [reflexivity | exact I].
Qed.

Lemma restful_reachable (a : App) : reachable a -> restOutsideRain a.
Proof.
  induction 1 as [r now|e a _ IH]; [apply restful_init | apply restful_step, IH].
Qed.

Lemma strEqb_eq (s t : JSString) : strEqb s t = true -> s = t.
Proof.
  revert t. induction s as [|c s IH]; intros [|d t] H; cbn in H;
    try discriminate; [reflexivity|].
  apply andb_true_iff in H as [Hc Hs]. apply N.eqb_eq in Hc.
  rewrite Hc, (IH t Hs). reflexivity.
Qed.

(** A pulse resumed outside Chaos mode does nothing and is not heard of
    again. *)
Lemma pulse_stale (now : Z) (i : nat) (startTime : Z) (duration : number) (a : App) :
  isMode "chaos" a = false -> pulse v now i startTime duration a = a.
Proof. intros H. unfold pulse. rewrite H. reflexivity. Qed.

(** So does a fall resumed outside Rain mode: its marker is at rest
    already. *)
Lemma fall_stale (now : Z) (i : nat) (startTime : Z)
    (startY targetY fallDuration : number) (a : App) :
  restOutsideRain a -> isMode "rain" a = false ->
  fall v now i startTime startY targetY fallDuration a = a.
Proof.
  intros Ha Hmode. rewrite fall_aborts by exact Hmode.
  destruct (earthquakeMarkers a !! i) as [m|] eqn:Em; [|reflexivity].
  apply (snapToRest_at_rest i m a Em).
  specialize (Ha i Hmode). unfold poseAt in Ha. cbn [snd] in Ha.
  rewrite Em in Ha. exact Ha.
Qed.

Lemma fallStart_stale (now : Z) (i : nat) (captured : option number)
    (fallDuration : number) (a : App) :
  restOutsideRain a -> isMode "rain" a = false ->
  fallStart v now i captured fallDuration a = a.
Proof.
  intros Ha Hmode. unfold fallStart.
  destruct (earthquakeMarkers a !! i); [|reflexivity].
  apply fall_stale; assumption.
Qed.

(** After [setMode] the only timer that runs the History tick, if any, is
    the one this very call created. *)
Lemma setMode_clears_history (mode : JSString) (now : Z) (a : App) (t : Timer) :
  hostOk a ->
  In t (timers (setMode v mode now a)) -> callback t = HistoryTick ->
  timerId t = nextTimerId a /\ mode = lit "history".
Proof.
  intros Ha Hin Hcb.
  destruct (hostOk_enterMode mode a Ha) as (Hok & Hmi & Hno).
  assert (Hnext : nextTimerId (enterMode v mode a) = nextTimerId a).
  { unfold enterMode, clearModeInterval. destruct (modeInterval a); reflexivity. }
  revert Hin. unfold setMode, startMode.
  destruct (strEqb mode (lit "history")) eqn:E.
  { unfold startHistoryMode, setInterval. cbn. intros Hin.
    apply in_app_or in Hin as [Hin|[<-|[]]].
    - exfalso. exact (Hno t Hin Hcb).
    - cbn. split; [exact Hnext | apply strEqb_eq, E]. }
  assert (Hext : forall b, extendsBy (fun cb => cb <> HistoryTick) (enterMode v mode a) b ->
                           In t (timers b) -> timerId t = nextTimerId a /\ mode = lit "history").
  { intros b Hb Hin. exfalso.
    exact (noHistoryTimer_extendsBy _ _ b (fun _ H => H) Hno Hb t Hin Hcb). }
  destruct (strEqb mode (lit "chaos")).
  { apply Hext, extendsBy_startChaosMode; discriminate. }
  destruct (strEqb mode (lit "rain")).
  { apply Hext, extendsBy_startRainMode; discriminate. }
  apply Hext, extendsBy_refl.
Qed.

(** C1 (amended). In every state of a session: [setMode] leaves no timer
    of the History tick but the one it may just have created (for mode
    "history"), and no frame request ever runs the tick; a Chaos pulse
    resumed while the mode is not "chaos" leaves the state as it is and
    does not ask for another frame; a Rain fall, and the timer that starts
    one, resumed while the mode is not "rain" leave the state as it is and
    ask for nothing.  (A callback resumed once its own mode is current
    again carries on; the delayed bursts of Chaos mode are not covered
    here.) *)
Theorem stale_callbacks_end (a : App) :
  reachable a ->
  (forall (mode : JSString) (now : Z) (t : Timer),
     In t (timers (setMode v mode now a)) -> callback t = HistoryTick ->
     timerId t = nextTimerId a /\ mode = lit "history") /\
  (forall (mode : JSString) (now : Z) (cb : Callback),
     In cb (frameRequests (setMode v mode now a)) -> cb <> HistoryTick) /\
  (forall (now : Z) (i : nat) (startTime : Z) (duration : number),
     isMode "chaos" a = false ->
     runCallback v now (Pulse i startTime duration) a = a) /\
  (forall (now : Z) (i : nat) (startTime : Z) (startY targetY fallDuration : number),
     isMode "rain" a = false ->
     runCallback v now (Fall i startTime startY targetY fallDuration) a = a) /\
  (forall (now : Z) (i : nat) (startY : option number) (fallDuration : number),
     isMode "rain" a = false ->
     runCallback v now (FallStart i startY fallDuration) a = a).
Proof.
  intros Ha.
  pose proof (hostOk_reachable a Ha) as Hok.
  pose proof (restful_reachable a Ha) as Hrest.
  split; [|split; [|split; [|split]]].
  - intros mode now t. apply setMode_clears_history, Hok.
  - intros mode now cb.
    destruct (hostOk_setMode mode now a Hok) as (_ & _ & Hf). apply Hf.
  - intros now i startTime duration. apply pulse_stale.
  - intros now i startTime startY targetY fallDuration. apply fall_stale, Hrest.
  - intros now i startY fallDuration. apply fallStart_stale, Hrest.
Qed.

End Properties.

(* ================================================================== *)
(** * Worked sessions *)

Module Session.

Definition header : JSString :=
  lit "id;fecha;hora;latitud;longitud;profundidad;magnitud;departamento;municipio".

(** A record at depth 15 km with magnitude 3.4: on the map it rests at
    altitude -5, and in Rain mode its fall lasts 3000 ms. *)
Definition row : JSString :=
  lit "1;2024-01-01;10:00:00;4.75;-75.91;15;3.4;VALLE;CARTAGO".

(** The map with [n] such records, its render loop started at time 0;
    [Math.random] always returns [r]. *)
Definition start (r : Q) (n : nat) : App :=
  @init (exampleHost (fun _ => r)) GeoMap (Resolved (join 10 (header :: repeat row n))) 0.

Definition play (r : Q) (events : list Event) (a : App) : App :=
  @run (exampleHost (fun _ => r)) GeoMap events a.

(** The altitude of marker [i]. *)
Definition altitudeOf (i : nat) (a : App) : number :=
  match earthquakeMarkers a !! i with
  | Some m => Vector3.y (Marker.position m)
  | None => NaN
  end.

Definition restAltitudeOf (i : nat) (a : App) : number :=
  match earthquakeMarkers a !! i with
  | Some m => Vector3.y (Marker.originalPosition m)
  | None => NaN
  end.

(** The handles of the pending timers that start a fall of marker [i]. *)
Definition fallTimers (i : nat) (a : App) : list positive :=
  flat_map (fun t => match callback t with
                     | FallStart j _ _ => if (j =? i)%nat then [timerId t] else []
                     | _ => []
                     end) (timers a).

(** The start times of the falls of marker [i] that wait for a frame. *)
Definition fallsUnderWay (i : nat) (a : App) : list Z :=
  flat_map (fun cb => match cb with
                      | Fall j startTime _ _ _ => if (j =? i)%nat then [startTime] else []
                      | _ => []
                      end) (frameRequests a).

(** Rain is entered at 0 ms, left at 100 ms and entered again at
    200 ms.  Marker 10 is due to start falling 300 ms after each entry. *)
Definition rainTwice : list Event :=
  [SetMode (lit "rain") 0; SetMode (lit "explorer") 100; SetMode (lit "rain") 200].

End Session.

(** Counterexample to C1 as stated.  Eleven markers on the map.  Rain
    mode, entered at 0 ms, sets timer 11 to start the fall of marker 10 at
    300 ms.  The switch to Explorer at 100 ms does not cancel it, nor does
    the return to Rain at 200 ms, which sets timer 22 for the same marker.
    Timer 11 fires at 300 ms, finds the mode to be "rain" and starts a
    fall; at the frame of 400 ms that fall has moved marker 10 from 85 to
    84.9 although the fall of the current activation (timer 22) has not
    started.  At the frame of 3300 ms the same stale fall fires a burst
    while the current fall, begun at 500 ms, is still under way. *)
Lemma stale_fall_acts_after_switch :
  let a0 := Session.start 0 11 in
  let at_ events := Session.play 0 events a0 in
  Session.fallTimers 10 (at_ [SetMode (lit "rain") 0]) = [11%positive] /\
  Session.fallTimers 10 (at_ [SetMode (lit "rain") 0; SetMode (lit "explorer") 100])
    = [11%positive] /\
  currentMode (at_ [SetMode (lit "rain") 0; SetMode (lit "explorer") 100])
    = lit "explorer" /\
  Session.fallTimers 10 (at_ Session.rainTwice) = [11; 22]%positive /\
  Num.eqv (Session.altitudeOf 10 (at_ Session.rainTwice)) (Fin 85) /\
  (let b := at_ (Session.rainTwice ++ [TimerFires 11 300; Frame 400]) in
   Session.fallTimers 10 b = [22%positive] /\
   Session.fallsUnderWay 10 b = [300%Z] /\
   Num.eqv (Session.altitudeOf 10 b) (Fin 84.9)) /\
  (let b := at_ (Session.rainTwice ++
                 [TimerFires 11 300; Frame 400; TimerFires 22 500; Frame 3300]) in
   Session.fallsUnderWay 10 b = [500%Z] /\
   length (particleSystems b) = 1%nat).
Proof. vm_compute. repeat split; reflexivity. Qed.


(** The delayed burst of Chaos mode has no mode check: set at the entry
    into Chaos, it still fires after the switch to Explorer. *)
Example chaos_burst_after_switch :
  let a0 := Session.start 0.99 1 in
  let a1 := Session.play 0.99 [SetMode (lit "chaos") 0; SetMode (lit "explorer") 100] a0 in
  map callback (timers a1) = [ChaosBurst 0] /\
  length (particleSystems a1) = 0%nat /\
  length (particleSystems (Session.play 0.99 [TimerFires 1 2970] a1)) = 1%nat.
Proof. vm_compute. repeat split; reflexivity. Qed.

(** An undisturbed fall: Rain entered once; marker 0 starts at once, is
    half way in time at 1500 ms and lands, with one burst, at 3000 ms. *)
Example rain_fall_undisturbed :
  let a := Session.play 0 [SetMode (lit "rain") 0; TimerFires 1 0] (Session.start 0 1) in
  Num.eqv (Session.altitudeOf 0 a) (Fin 80) /\
  Num.eqv (Session.altitudeOf 0 (Session.play 0 [Frame 1500] a)) (Fin 58.75) /\
  (let b := Session.play 0 [Frame 1500; Frame 3000] a in
   Num.eqv (Session.altitudeOf 0 b) (Fin (-5)) /\
   length (particleSystems b) = 1%nat /\ Session.fallsUnderWay 0 b = []).
Proof. vm_compute. repeat split; reflexivity. Qed.

(** ** The theorems at work on these sessions *)



(** Chaos is entered at 0 ms and left for Explorer at 100 ms: the pulse of
    marker 0 that Chaos started, resumed at the next frame, changes
    nothing and asks for no further frame. *)
Lemma stale_callbacks_end_witness :
  let host := exampleHost (fun _ => 0%Q) in
  let a := @step host GeoMap (SetMode (lit "explorer") 100)
             (@step host GeoMap (SetMode (lit "chaos") 0) (Session.start 0 1)) in
  @reachable host GeoMap a /\
  isMode "chaos" a = false /\
  @runCallback host GeoMap 116 (Pulse 0 0 (Fin 500)) a = a.
Proof.
  intros host a.
  assert (Hr : @reachable host GeoMap a) by (do 2 apply reachable_step; apply reachable_init).
  assert (Hmode : isMode "chaos" a = false) by reflexivity.
  split; [exact Hr|]. split; [exact Hmode|].
  apply (proj1 (proj2 (proj2 (@stale_callbacks_end host GeoMap a Hr)))). exact Hmode.
Defined.

(* ================================================================== *)
(** * The rest of the scene *)

(** ** Where the map puts a record *)

Lemma latLngToXZ_Fin (lat lng : Q) :
  exists x z, latLngToXZ (Fin lat) (Fin lng) = (Fin x, Fin z) /\
    x == (lng + 76.01) * (100 # 19) * 100 - 50 /\
    z == 50 - (lat - 4.61) * (100 # 21) * 100.
Proof.
  unfold latLngToXZ. cbn. eexists. eexists. split; [reflexivity|].
  unfold Qdiv.
  repeat match goal with
         | |- context [Qinv ?q] =>
             let t := eval vm_compute in (Qinv q) in progress change (Qinv q) with t
         end.
  split; ring.
Qed.

Lemma depthToY_Fin (depth : Q) :
  exists y, depthToY (Fin depth) = Fin y /\ y == - depth / 3.
Proof.
  unfold depthToY. cbn. eexists. split; [reflexivity|].
  unfold Qdiv. change (/ 150)%Q with (1 # 150)%Q. change (/ 3)%Q with (1 # 3)%Q. ring.
Qed.

(** X1. A record of finite latitude, longitude and depth is placed inside the
    map square exactly when its coordinates are inside [geoBounds], and
    between the surface and the lowest depth plane exactly when its depth
    is between 0 and 150 km; nothing is clamped.  East is [+x], north is
    [-z], deeper is lower. *)
Theorem map_placement {host : Platform} (quake quake' : Quake.t)
    (lat lng depth lat' lng' depth' : Q) :
  (Quake.latitud quake, Quake.longitud quake, Quake.profundidad quake)
    = (Fin lat, Fin lng, Fin depth) ->
  (Quake.latitud quake', Quake.longitud quake', Quake.profundidad quake')
    = (Fin lat', Fin lng', Fin depth') ->
  exists x y z x' y' z',
    Marker.position (createMarker GeoMap quake) = Vector3.mk (Fin x) (Fin y) (Fin z) /\
    Marker.originalPosition (createMarker GeoMap quake)
      = Vector3.mk (Fin x) (Fin y) (Fin z) /\
    Marker.position (createMarker GeoMap quake') = Vector3.mk (Fin x') (Fin y') (Fin z') /\
    ((-50 <= x <= 50)%Q <-> (-76.01 <= lng <= -75.82)%Q) /\
    ((-50 <= z <= 50)%Q <-> (4.61 <= lat <= 4.82)%Q) /\
    ((-50 <= y <= 0)%Q <-> (0 <= depth <= 150)%Q) /\
    ((x <= x')%Q <-> (lng <= lng')%Q) /\
    ((z' <= z)%Q <-> (lat <= lat')%Q) /\
    ((y' <= y)%Q <-> (depth <= depth')%Q).
Proof.
  intros E E'. injection E as Elat Elng Edepth. injection E' as Elat' Elng' Edepth'.
  destruct (latLngToXZ_Fin lat lng) as (x & z & Hxz & Hx & Hz).
  destruct (latLngToXZ_Fin lat' lng') as (x' & z' & Hxz' & Hx' & Hz').
  destruct (depthToY_Fin depth) as (y & Hy & Ey).
  destruct (depthToY_Fin depth') as (y' & Hy' & Ey').
  exists x, y, z, x', y', z'.
  unfold createMarker, markerPosition. cbn [Marker.position Marker.originalPosition].
  rewrite Elat, Elng, Edepth, Elat', Elng', Edepth', Hxz, Hxz', Hy, Hy'.
  revert Ey Ey'. unfold Qdiv. change (/ 3)%Q with (1 # 3)%Q. intros Ey Ey'.
  repeat split; try reflexivity; lra.
Qed.

Lemma map_placement_witness :
  let quake := parseLine (lit "1;2024-01-01;10:00:00;4.75;-75.91;15;3.4;VALLE;CARTAGO") in
  let quake' := parseLine (lit "2;2024-01-02;11:00:00;4.80;-75.85;100;2.0;VALLE;CARTAGO") in
  exists x y z x' y' z',
    Marker.position (createMarker (host := exampleHost (fun _ => 0%Q)) GeoMap quake)
      = Vector3.mk (Fin x) (Fin y) (Fin z) /\
    Marker.position (createMarker (host := exampleHost (fun _ => 0%Q)) GeoMap quake')
      = Vector3.mk (Fin x') (Fin y') (Fin z') /\
    (-50 <= x <= 50)%Q /\ (-50 <= z <= 50)%Q /\ (-50 <= y <= 0)%Q /\
    (x <= x')%Q /\ (z' <= z)%Q /\ (y' <= y)%Q.
Proof.
  intros quake quake'.
  destruct (map_placement (host := exampleHost (fun _ => 0%Q)) quake quake'
              (475 / 100) (-7591 / 100) 15 (480 / 100) (-7585 / 100) 100)
    as (x & y & z & x' & y' & z' & H1 & _ & H2 & Hx & Hz & Hy & Hxx & Hzz & Hyy).
  - vm_compute. reflexivity.
  - vm_compute. reflexivity.
  - exists x, y, z, x', y', z'.
    split; [exact H1|]. split; [exact H2|].
    split; [apply Hx; vm_compute; split; discriminate|].
    split; [apply Hz; vm_compute; split; discriminate|].
    split; [apply Hy; vm_compute; split; discriminate|].
    split; [apply Hxx; vm_compute; discriminate|].
    split; [apply Hzz; vm_compute; discriminate|].
    apply Hyy; vm_compute; discriminate.
Defined.

(** ** Depth planes *)

Module DepthIndicators.

(** A wireframe plane of [createDepthIndicators] with its label: the
    altitude [plane.position.y], the number shown before "km", and the
    material's opacity. *)
Record Plane : Type := mkPlane {
  altitude : number;
  realDepth : number;
  opacity : number
}.

(** The body of the loop for [i]. *)
Definition plane (i : nat) : Plane :=
  let maxDepth := Fin (-50) in
  let depth := ((maxDepth / Fin 5) * Num.of_nat i)%num in
  let realDepth := ((Fin 150 / Fin 5) * Num.of_nat i)%num in
  mkPlane depth realDepth (Fin 0.05 + Num.of_nat i * Fin 0.03)%num.

(** [for (let i = 0; i <= 5; i++)] *)
Definition createDepthIndicators : list Plane := map plane (seq 0 6).

End DepthIndicators.


(** ** The starfield *)

Section Starfield.
Context {host : Platform} (v : Variant).

(** The [x, y, z] pushed to [vertices] by the iteration whose first
    [Math.random] call is the [k]-th. *)
Definition starVertex (k : nat) : list number :=
  match v with
  | GeoMap =>
      [ ((Fin (Math_random k) - Fin 0.5) * Fin 1000)%num;
        (Fin (Math_random (k + 1)) * Fin 500 + Fin 100)%num;
        ((Fin (Math_random (k + 2)) - Fin 0.5) * Fin 1000)%num ]
  | Planet =>
      [ ((Fin (Math_random k) - Fin 0.5) * Fin 2000)%num;
        ((Fin (Math_random (k + 1)) - Fin 0.5) * Fin 2000)%num;
        ((Fin (Math_random (k + 2)) - Fin 0.5) * Fin 2000)%num ]
  end.

(** The three numbers pushed to [colors] for the draw [colorVar]. *)
Definition starColor (colorVar : number) : list number :=
  if (colorVar >? Fin 0.8)%num then [Fin 0.6; Fin 0.7; Fin 1]
  else if (colorVar >? Fin 0.9)%num then [Fin 1; Fin 0.6; Fin 1]
  else [Fin 1; Fin 1; Fin 1].

(** The loop of [createStarfield], [n] iterations from random call [k] on:
    the [vertices] and [colors] arrays. *)
Fixpoint starfieldLoop (n k : nat) : list number * list number :=
  match n with
  | O => ([], [])
  | S n' =>
      let '(vertices, colors) := starfieldLoop n' (k + 4) in
      (starVertex k ++ vertices, starColor (Fin (Math_random (k + 3))) ++ colors)
  end.

Definition starCount : nat :=
  match v with GeoMap => Z.to_nat 8000 | Planet => Z.to_nat 15000 end.

(** [createStarfield] when [k] calls of [Math.random] have been made. *)
Definition createStarfield (k : nat) : list number * list number :=
  starfieldLoop starCount k.

Lemma starfieldLoop_spec (n k : nat) :
  starfieldLoop n k =
    (concat (map (fun i => starVertex (k + 4 * i)) (seq 0 n)),
     concat (map (fun i => starColor (Fin (Math_random (k + 4 * i + 3)))) (seq 0 n))).
Proof.
  revert k. induction n as [|n IH]; intros k; [reflexivity|].
  cbn [starfieldLoop]. rewrite IH. cbn [seq map concat].
  rewrite Nat.mul_0_r, !Nat.add_0_r.
  rewrite <- seq_shift, !map_map.
  f_equal; f_equal; f_equal; apply map_ext; intros i.
  - replace (k + 4 + 4 * i)%nat with (k + 4 * S i)%nat by lia. reflexivity.
  - replace (k + 4 + 4 * i + 3)%nat with (k + 4 * S i + 3)%nat by lia. reflexivity.
Qed.

Lemma starColor_cases (colorVar : number) :
  (starColor colorVar = [Fin 0.6; Fin 0.7; Fin 1] /\ (colorVar >? Fin 0.8)%num = true) \/
  (starColor colorVar = [Fin 1; Fin 1; Fin 1] /\ (colorVar >? Fin 0.8)%num = false).
Proof.
  unfold starColor. destruct (colorVar >? Fin 0.8)%num eqn:E8; [left; auto|right].
  split; [|reflexivity].
  destruct (colorVar >? Fin 0.9)%num eqn:E9; [exfalso|reflexivity].
  destruct colorVar as [|[|]|c]; cbn in *; try discriminate.
  apply Qltb_true in E9. apply Qltb_false in E8. lra.
Qed.

Lemma starVertex_bounds (k : nat) :
  random_in_range host ->
  exists x y z, starVertex k = [Fin x; Fin y; Fin z] /\
    match v with
    | GeoMap => (-500 <= x < 500)%Q /\ (100 <= y < 600)%Q /\ (-500 <= z < 500)%Q
    | Planet => (-1000 <= x < 1000)%Q /\ (-1000 <= y < 1000)%Q /\ (-1000 <= z < 1000)%Q
    end.
Proof.
  intros Hr. pose proof (Hr k) as H0. pose proof (Hr (k + 1)%nat) as H1.
  pose proof (Hr (k + 2)%nat) as H2.
  unfold starVertex. destruct v; cbn; do 3 eexists; (split; [reflexivity|]);
    repeat split; lra.
Qed.

(** X3. The starfield has 8000 stars on the map and 15000 around the planet,
    four calls of [Math.random] each.  Every star is blue-white
    (0.6, 0.7, 1) when its colour draw exceeds 0.8 and white otherwise:
    the branch that pushes (1, 0.6, 1) is never taken.  When [Math.random]
    stays in [0, 1), the stars of the map lie in a box 1000 wide between
    altitudes 100 and 600, and those of the planet in a cube 2000 wide. *)
Theorem starfield_stars (k : nat) :
  let stars :=
    map (fun i => (starVertex (k + 4 * i), starColor (Fin (Math_random (k + 4 * i + 3)))))
        (seq 0 starCount) in
  createStarfield k = (concat (map fst stars), concat (map snd stars)) /\
  length (fst (createStarfield k)) = (3 * starCount)%nat /\
  length (snd (createStarfield k)) = (3 * starCount)%nat /\
  Forall (fun star =>
            snd star <> [Fin 1; Fin 0.6; Fin 1] /\
            (snd star = [Fin 0.6; Fin 0.7; Fin 1] \/ snd star = [Fin 1; Fin 1; Fin 1]))
         stars /\
  (random_in_range host ->
   Forall (fun star =>
             exists x y z, fst star = [Fin x; Fin y; Fin z] /\
               match v with
               | GeoMap => (-500 <= x < 500)%Q /\ (100 <= y < 600)%Q /\ (-500 <= z < 500)%Q
               | Planet =>
                   (-1000 <= x < 1000)%Q /\ (-1000 <= y < 1000)%Q /\ (-1000 <= z < 1000)%Q
               end) stars).
Proof.
  intros stars. unfold createStarfield. rewrite starfieldLoop_spec.
  assert (Hlen : forall (A : Type) (f : nat -> list A) (n : nat),
            (forall i, length (f i) = 3%nat) ->
            length (concat (map f (seq 0 n))) = (3 * n)%nat).
  { intros A f n Hf.
    assert (H : forall s, length (concat (map f (seq s n))) = (3 * n)%nat); [|apply H].
    induction n as [|n IH]; intros s; [reflexivity|].
    cbn [seq map concat]. rewrite length_app, Hf, IH. lia. }
  split; [|split; [|split; [|split]]].
  - unfold stars. rewrite !map_map. reflexivity.
  - cbn [fst]. apply Hlen. intros i. unfold starVertex. destruct v; reflexivity.
  - cbn [snd]. apply Hlen. intros i.
    destruct (starColor_cases (Fin (Math_random (k + 4 * i + 3)))) as [[-> _]|[-> _]];
      reflexivity.
  - apply List.Forall_forall. intros star Hin. apply in_map_iff in Hin as (i & <- & _).
    cbn [snd].
    destruct (starColor_cases (Fin (Math_random (k + 4 * i + 3)))) as [[-> _]|[-> _]];
      (split; [discriminate|auto]).
  - intros Hr. apply List.Forall_forall. intros star Hin.
    apply in_map_iff in Hin as (i & <- & _). cbn [fst]. apply starVertex_bounds, Hr.
Qed.

End Starfield.

(** ** Tweens: the record counter and the camera *)

(** The closure [update] of [animateCounter], run when [elapsed] ms have
    passed: the number written to [element.textContent], and whether
    another frame is requested. *)
Definition counterUpdate (start end_ duration : number) (elapsed : Z) : number * bool :=
  let progress := Num.min (Num.of_Z elapsed / duration) (Fin 1) in
  let value := Num.floor (start + (end_ - start) * progress)%num in
  (value, (progress <? Fin 1)%num).

(** The counter of [setupUI]: from 0 to the number of records in 2000 ms. *)
Definition totalQuakesCounter (a : App) (elapsed : Z) : number * bool :=
  counterUpdate (Fin 0) (Num.of_nat (length (earthquakes a))) (Fin 2000) elapsed.

(** [Math.pow(x, 3)] *)
Definition Math_pow3 (x : number) : number := (x * x * x)%num.

(** The closure [move] of a camera flight of [durationMs], run when
    [elapsed] ms have passed: the factor handed to [lerpVectors], and
    whether another frame is requested. *)
Definition cameraMove (durationMs : number) (elapsed : Z) : number * bool :=
  let progress := Num.min (Num.of_Z elapsed / durationMs) (Fin 1) in
  let eased := (Fin 1 - Math_pow3 (Fin 1 - progress))%num in
  (eased, (progress <? Fin 1)%num).

(** [smoothCameraMove(targetPos, duration)] of the planet, [duration] in
    seconds. *)
Definition smoothCameraMove (duration : number) (elapsed : Z) : number * bool :=
  cameraMove (duration * Fin 1000)%num elapsed.

(** The flight started by [onDoubleClick]. *)
Definition doubleClickMove (v : Variant) (elapsed : Z) : number * bool :=
  match v with
  | GeoMap => cameraMove (Fin 1000) elapsed
  | Planet => smoothCameraMove (Fin 1.5) elapsed
  end.

Lemma progress_value (d : Q) (e : Z) :
  (0 < d)%Q ->
  exists p, Num.min (Num.of_Z e / Fin d) (Fin 1) = Fin p /\
    ((0 <= e)%Z -> (0 <= p <= 1)%Q) /\
    ((inject_Z e < d)%Q -> p == inject_Z e / d /\ (p < 1)%Q) /\
    ((d <= inject_Z e)%Q -> p == 1) /\
    ((Fin p <? Fin 1)%num = true <-> (inject_Z e < d)%Q).
Proof.
  intros Hd. destruct (fallProgress_value d e Hd) as (p & Hp & Hlt & Hge).
  exists p. split; [exact Hp|]. split; [|split; [exact Hlt|split; [exact Hge|]]].
  - intros He.
    assert (Q0 : (0 <= inject_Z e)%Q).
    { change 0%Q with (inject_Z 0). rewrite <- Zle_Qle. exact He. }
    destruct (Qlt_le_dec (inject_Z e) d) as [L|G].
    + destruct (Hlt L) as [E B]. split; [|lra]. rewrite E.
      apply Qle_shift_div_l; lra.
    + rewrite (Hge G). lra.
  - cbn [Num.ltb]. rewrite Qltb_true. split.
    + intros Hp1. destruct (Qlt_le_dec (inject_Z e) d) as [L|G]; [exact L|].
      rewrite (Hge G) in Hp1. lra.
    + intros L. apply Hlt, L.
Qed.

Lemma progress_monotone (d : Q) (e1 e2 : Z) (p1 p2 : Q) :
  (0 < d)%Q -> (0 <= e1 <= e2)%Z ->
  Num.min (Num.of_Z e1 / Fin d) (Fin 1) = Fin p1 ->
  Num.min (Num.of_Z e2 / Fin d) (Fin 1) = Fin p2 ->
  (0 <= p1 <= p2)%Q /\ (p2 <= 1)%Q.
Proof. apply fallProgress_monotone. Qed.

(** X4. A counter from [start] up to [end_] over a positive [duration] shows
    whole numbers that never decrease as time passes and stay between
    [floor start] and [floor end_]; it shows [floor start] at once; it asks
    for another frame exactly while the elapsed time is short of the
    duration; from the duration on it shows [floor end_] and stops. *)
Theorem animateCounter_counts (start end_ duration : Q) (e1 e2 : Z) :
  (start <= end_)%Q -> (0 < duration)%Q -> (0 <= e1 <= e2)%Z ->
  exists n1 n2 : Z,
    fst (counterUpdate (Fin start) (Fin end_) (Fin duration) e1) = Fin (inject_Z n1) /\
    fst (counterUpdate (Fin start) (Fin end_) (Fin duration) e2) = Fin (inject_Z n2) /\
    (Qfloor start <= n1 <= n2)%Z /\ (n2 <= Qfloor end_)%Z /\
    (e1 = 0%Z -> n1 = Qfloor start) /\
    ((duration <= inject_Z e2)%Q -> n2 = Qfloor end_) /\
    (snd (counterUpdate (Fin start) (Fin end_) (Fin duration) e2) = true <->
     (inject_Z e2 < duration)%Q).
Proof.
  intros Hse Hd He. unfold counterUpdate.
  destruct (progress_value duration e1 Hd) as (p1 & Hp1 & B1 & L1 & G1 & C1).
  destruct (progress_value duration e2 Hd) as (p2 & Hp2 & B2 & L2 & G2 & C2).
  destruct (progress_monotone duration e1 e2 p1 p2 Hd He Hp1 Hp2) as [[H0 H12] H1].
  cbv zeta. rewrite Hp1, Hp2. cbn [fst snd Num.sub Num.neg Num.add Num.mul Num.floor].
  do 2 eexists. split; [reflexivity|]. split; [reflexivity|].
  split; [split|split; [|split; [|split]]].
  - apply Qfloor_resp_le. nra.
  - apply Qfloor_resp_le. nra.
  - apply Qfloor_resp_le. nra.
  - intros ->. destruct (L1 Hd) as [E _].
    assert (E0 : p1 == 0).
    { rewrite E. change (inject_Z 0) with 0%Q. unfold Qdiv. ring. }
    apply Qfloor_comp. rewrite E0. ring.
  - intros G. apply Qfloor_comp. rewrite (G2 G). ring.
  - exact C2.
Qed.

Lemma animateCounter_counts_witness :
  let a := Session.start 0 3 in
  (0 <= 3)%Q /\ (0 < 2000)%Q /\ (0 <= 1000 <= 2000)%Z /\
  fst (totalQuakesCounter a 1000) = Fin (inject_Z 1) /\
  fst (totalQuakesCounter a 2000) = Fin (inject_Z 3) /\
  snd (totalQuakesCounter a 2000) = false.
Proof.
  intros a.
  assert (H1 : (0 <= 3)%Q) by discriminate.
  assert (H2 : (0 < 2000)%Q) by reflexivity.
  assert (H3 : (0 <= 1000 <= 2000)%Z) by lia.
  destruct (animateCounter_counts 0 3 2000 1000 2000 H1 H2 H3)
    as (n1 & n2 & E1 & E2 & _ & _ & _ & Hend & Hstop).
  change (totalQuakesCounter a) with (counterUpdate (Fin 0) (Fin 3) (Fin 2000)).
  split; [exact H1|]. split; [exact H2|]. split; [exact H3|].
  split; [|split].
  - rewrite E1. vm_compute in E1. injection E1 as <-. reflexivity.
  - rewrite E2. f_equal. f_equal. apply Hend. discriminate.
  - destruct (snd (counterUpdate (Fin 0) (Fin 3) (Fin 2000) 2000)); [|reflexivity].
    exfalso. assert (Hlt : (inject_Z 2000 < 2000)%Q) by (apply Hstop; reflexivity).
    revert Hlt. vm_compute. discriminate.
Defined.

(** X5. A camera flight of positive duration: the factor handed to
    [lerpVectors] starts at 0, never decreases, stays within [0, 1] and is
    1 from the duration on; the closure asks for another frame exactly
    while the elapsed time is short of the duration. *)
Theorem cameraMove_eases (duration : Q) (e1 e2 : Z) :
  (0 < duration)%Q -> (0 <= e1 <= e2)%Z ->
  exists t1 t2 : Q,
    fst (cameraMove (Fin duration) e1) = Fin t1 /\
    fst (cameraMove (Fin duration) e2) = Fin t2 /\
    (0 <= t1 <= t2)%Q /\ (t2 <= 1)%Q /\
    (e1 = 0%Z -> t1 == 0) /\
    ((duration <= inject_Z e2)%Q -> t2 == 1) /\
    (snd (cameraMove (Fin duration) e2) = true <-> (inject_Z e2 < duration)%Q).
Proof.
  intros Hd He. unfold cameraMove, Math_pow3.
  destruct (progress_value duration e1 Hd) as (p1 & Hp1 & B1 & L1 & G1 & C1).
  destruct (progress_value duration e2 Hd) as (p2 & Hp2 & B2 & L2 & G2 & C2).
  destruct (progress_monotone duration e1 e2 p1 p2 Hd He Hp1 Hp2) as [[H0 H12] H1].
  cbv zeta. rewrite Hp1, Hp2. cbn [fst snd Num.sub Num.neg Num.add Num.mul].
  do 2 eexists. split; [reflexivity|]. split; [reflexivity|].
  set (u := (1 + - p1)%Q). set (w := (1 + - p2)%Q).
  assert (Hu : (0 <= w <= u)%Q /\ (u <= 1)%Q) by (unfold u, w; lra).
  assert (Hsq : (w * w <= u * u)%Q) by nra.
  assert (Hww : (0 <= w * w)%Q) by nra.
  assert (Huu : (u * u <= 1)%Q) by nra.
  assert (Hcube : (w * w * w <= u * u * u)%Q) by nra.
  assert (Hw0 : (0 <= w * w * w)%Q) by nra.
  assert (Hu1 : (u * u * u <= 1)%Q) by nra.
  split; [split; lra|]. split; [lra|]. split; [|split].
  - intros ->. destruct (L1 Hd) as [E _].
    assert (E0 : p1 == 0).
    { rewrite E. change (inject_Z 0) with 0%Q. unfold Qdiv. ring. }
    unfold u. rewrite E0. ring.
  - intros G. unfold w. rewrite (G2 G). ring.
  - exact C2.
Qed.

Lemma cameraMove_eases_witness :
  (0 < 1000)%Q /\ (0 <= 500 <= 1000)%Z /\
  Num.eqv (fst (doubleClickMove GeoMap 500)) (Fin 0.875) /\
  Num.eqv (fst (doubleClickMove GeoMap 1000)) (Fin 1) /\
  snd (doubleClickMove GeoMap 1000) = false.
Proof.
  assert (H1 : (0 < 1000)%Q) by reflexivity.
  assert (H2 : (0 <= 500 <= 1000)%Z) by lia.
  destruct (cameraMove_eases 1000 500 1000 H1 H2)
    as (t1 & t2 & E1 & E2 & _ & _ & _ & Hend & Hstop).
  split; [exact H1|]. split; [exact H2|].
  change (doubleClickMove GeoMap) with (cameraMove (Fin 1000)).
  split; [|split].
  - vm_compute. reflexivity.
  - rewrite E2. apply Hend. discriminate.
  - destruct (snd (cameraMove (Fin 1000) 1000)); [|reflexivity].
    exfalso. assert (Hlt : (inject_Z 1000 < 1000)%Q) by (apply Hstop; reflexivity).
    revert Hlt. vm_compute. discriminate.
Defined.

(** ** The rotating fact *)

(** [FUN_FACTS], each text as its UTF-8 bytes. *)
Definition FUN_FACTS (v : Variant) : list string :=
  match v with
  | GeoMap =>
      [ "¿Sabías que Cartago ha resistido más de 255 sismos desde 1994?";
        "El sismo más superficial registrado fue a solo 0 km de profundidad";
        "El sismo más profundo alcanzó 149.7 km bajo la superficie";
        "Enero de 2024 registró la mayor actividad sísmica";
        "La magnitud más alta registrada fue de 3.4 Mi";
        "Cartago: 30 años de datos sísmicos, 30 años de resiliencia 💪";
        "Sismos superficiales (<20km) = erupciones rojas 🔴";
        "Sismos profundos (>60km) = implosiones azules 🔵";
        "Cartago está en 4.75°N, 75.91°W en el Valle del Cauca";
        "La visualización muestra coordenadas geográficas REALES" ]%string
  | Planet =>
      [ "¿Sabías que Cartago ha resistido más de 255 sismos desde 1994?";
        "El sismo más superficial registrado fue a solo 0 km de profundidad";
        "El sismo más profundo alcanzó 149.7 km bajo la superficie";
        "Enero de 2024 registró la mayor actividad sísmica con múltiples eventos";
        "La magnitud más alta registrada fue de 3.4 Mi";
        "Cartago: 30 años de datos sísmicos, 30 años de resiliencia 💪";
        "Los sismos superficiales (<20km) se ven como erupciones rojas 🔴";
        "Los sismos profundos (>60km) se ven como implosiones azules 🔵" ]%string
  end.

(** [array[index]]: [undefined], here [None], unless the index is a whole
    number within the array. *)
Definition at_index {A : Type} (array : list A) (index : number) : option A :=
  match index with
  | Fin q =>
      if Qeq_bool q (inject_Z (Qfloor q)) && (0 <=? Qfloor q)%Z
      then array !! Z.to_nat (Qfloor q)
      else None
  | _ => None
  end.

(** [FUN_FACTS[Math.floor(Math.random() * FUN_FACTS.length)]] for the
    draw [r]. *)
Definition randomFact (v : Variant) (r : Q) : option string :=
  at_index (FUN_FACTS v)
    (Num.floor (Fin r * Num.of_nat (length (FUN_FACTS v))))%num.

(** X6. Whatever [Math.random] returns within [0, 1), the fact picked is one
    of the list, never [undefined]; and every fact of the list is picked by
    some draw. *)
Theorem randomFact_defined (v : Variant) :
  (forall r : Q, (0 <= r < 1)%Q ->
     exists fact, randomFact v r = Some fact /\ In fact (FUN_FACTS v)) /\
  (forall fact, In fact (FUN_FACTS v) ->
     exists r : Q, (0 <= r < 1)%Q /\ randomFact v r = Some fact) /\
  randomFact v 1 = None.
Proof.
  assert (Hidx : forall (r : Q) (n : nat),
            at_index (FUN_FACTS v) (Num.floor (Fin r * Num.of_nat n))%num =
              if (0 <=? Qfloor (r * inject_Z (Z.of_nat n)))%Z
              then FUN_FACTS v !! Z.to_nat (Qfloor (r * inject_Z (Z.of_nat n)))
              else None).
  { intros r n. unfold at_index, Num.floor, Num.mul, Num.of_nat, Num.of_Z.
    rewrite Qfloor_Z. rewrite (proj2 (Qeq_bool_iff _ _)) by reflexivity. reflexivity. }
  split; [|split].
  - intros r [H0 H1]. unfold randomFact. rewrite Hidx.
    set (n := length (FUN_FACTS v)).
    assert (Hn : (0 < inject_Z (Z.of_nat n))%Q) by (unfold n; destruct v; reflexivity).
    assert (Hlo : (0 <= Qfloor (r * inject_Z (Z.of_nat n)))%Z).
    { change 0%Z with (Qfloor 0). apply Qfloor_resp_le. nra. }
    assert (Hhi : (Qfloor (r * inject_Z (Z.of_nat n)) < Z.of_nat n)%Z).
    { rewrite Zlt_Qlt. pose proof (Qfloor_le (r * inject_Z (Z.of_nat n))). nra. }
    rewrite (proj2 (Z.leb_le _ _) Hlo).
    destruct (lookup_lt_is_Some_2 (FUN_FACTS v)
                (Z.to_nat (Qfloor (r * inject_Z (Z.of_nat n))))) as [fact Hf].
    { fold n. lia. }
    exists fact. split; [exact Hf|].
    apply list_elem_of_In. eapply list_elem_of_lookup_2. exact Hf.
  - intros fact Hin. apply list_elem_of_In in Hin.
    apply list_elem_of_lookup_1 in Hin as [i Hi].
    pose proof (lookup_lt_Some _ _ _ Hi) as Hlt.
    set (n := length (FUN_FACTS v)) in *.
    assert (Hn : (0 < inject_Z (Z.of_nat n))%Q).
    { change 0%Q with (inject_Z 0). rewrite <- Zlt_Qlt. lia. }
    exists (inject_Z (Z.of_nat i) / inject_Z (Z.of_nat n))%Q. split.
    + split.
      * apply Qle_shift_div_l; [exact Hn|]. rewrite Qmult_0_l.
        change 0%Q with (inject_Z 0). rewrite <- Zle_Qle. lia.
      * apply Qlt_shift_div_r; [exact Hn|]. rewrite Qmult_1_l.
        rewrite <- Zlt_Qlt. lia.
    + unfold randomFact. rewrite Hidx. fold n.
      assert (E : (inject_Z (Z.of_nat i) / inject_Z (Z.of_nat n) * inject_Z (Z.of_nat n)
                   == inject_Z (Z.of_nat i))%Q) by (field; lra).
      rewrite (Qfloor_comp _ _ E), Qfloor_Z, Nat2Z.id.
      rewrite (proj2 (Z.leb_le _ _)) by lia. exact Hi.
  - destruct v; reflexivity.
Qed.

(** ** Pointer and screen coordinates *)

(** [this.mouse.x] and [this.mouse.y] as [onMouseMove] sets them. *)
Definition mouseOf (clientX clientY innerWidth innerHeight : number) : number * number :=
  (((clientX / innerWidth) * Fin 2 - Fin 1)%num,
   ((- (clientY / innerHeight)) * Fin 2 + Fin 1)%num).

(** The [x] and [y] of [createDataConfetti]: where on the screen the
    projected [vector] is. *)
Definition confettiOrigin (vector : number * number) (innerWidth innerHeight : number)
    : number * number :=
  (((fst vector * Fin 0.5 + Fin 0.5) * innerWidth)%num,
   ((snd vector * Fin (-0.5) + Fin 0.5) * innerHeight)%num).

(** X7. In a window of positive size, the pointer is mapped into the square
    [-1, 1] x [-1, 1] exactly when it is inside the window, the top of the
    window being [y = 1]; and the confetti of a marker that projects to
    the pointer starts at the pointer: [confettiOrigin] undoes
    [mouseOf]. *)
Theorem pointer_screen_round_trip (clientX clientY innerWidth innerHeight : Q) :
  (0 < innerWidth)%Q -> (0 < innerHeight)%Q ->
  exists mx my sx sy : Q,
    mouseOf (Fin clientX) (Fin clientY) (Fin innerWidth) (Fin innerHeight)
      = (Fin mx, Fin my) /\
    confettiOrigin (Fin mx, Fin my) (Fin innerWidth) (Fin innerHeight)
      = (Fin sx, Fin sy) /\
    sx == clientX /\ sy == clientY /\
    ((-1 <= mx <= 1)%Q <-> (0 <= clientX <= innerWidth)%Q) /\
    ((-1 <= my <= 1)%Q <-> (0 <= clientY <= innerHeight)%Q) /\
    (clientY == 0 -> my == 1) /\ (clientX == 0 -> mx == -1).
Proof.
  intros Hw Hh. unfold mouseOf, confettiOrigin. cbn [Num.div fst snd].
  assert (Ew : Qeq_bool innerWidth 0 = false).
  { destruct (Qeq_bool innerWidth 0) eqn:E; [|reflexivity].
    apply Qeq_bool_eq in E. lra. }
  assert (Eh : Qeq_bool innerHeight 0 = false).
  { destruct (Qeq_bool innerHeight 0) eqn:E; [|reflexivity].
    apply Qeq_bool_eq in E. lra. }
  rewrite Ew, Eh. cbn [Num.mul Num.sub Num.add Num.neg].
  do 4 eexists. split; [reflexivity|]. split; [reflexivity|].
  assert (Hx : (clientX / innerWidth * innerWidth == clientX)%Q) by (field; lra).
  assert (Hy : (clientY / innerHeight * innerHeight == clientY)%Q) by (field; lra).
  assert (Bx : forall c : Q, (c <= clientX / innerWidth <-> c * innerWidth <= clientX)%Q).
  { intros c. split; intros H.
    - rewrite <- Hx. apply Qmult_le_compat_r; lra.
    - apply Qle_shift_div_l; assumption. }
  assert (Bx' : forall c : Q, (clientX / innerWidth <= c <-> clientX <= c * innerWidth)%Q).
  { intros c. split; intros H.
    - rewrite <- Hx. apply Qmult_le_compat_r; lra.
    - apply Qle_shift_div_r; assumption. }
  assert (By : forall c : Q, (c <= clientY / innerHeight <-> c * innerHeight <= clientY)%Q).
  { intros c. split; intros H.
    - rewrite <- Hy. apply Qmult_le_compat_r; lra.
    - apply Qle_shift_div_l; assumption. }
  assert (By' : forall c : Q, (clientY / innerHeight <= c <-> clientY <= c * innerHeight)%Q).
  { intros c. split; intros H.
    - rewrite <- Hy. apply Qmult_le_compat_r; lra.
    - apply Qle_shift_div_r; assumption. }
  pose proof (Bx 0%Q) as Bx0. pose proof (Bx' 1%Q) as Bx1.
  pose proof (By 0%Q) as By0. pose proof (By' 1%Q) as By1.
  set (u := (clientX / innerWidth)%Q) in *. set (w := (clientY / innerHeight)%Q) in *.
  split; [|split; [|split; [|split; [|split]]]].
  - transitivity (u * innerWidth)%Q; [ring|exact Hx].
  - transitivity (w * innerHeight)%Q; [ring|exact Hy].
  - destruct Bx0 as [A1 A2], Bx1 as [A3 A4]. split; intros H.
    + assert (U0 : (0 <= u)%Q) by lra. assert (U1 : (u <= 1)%Q) by lra.
      specialize (A1 U0). specialize (A3 U1). lra.
    + assert (U0 : (0 <= u)%Q) by (apply A2; lra).
      assert (U1 : (u <= 1)%Q) by (apply A4; lra). lra.
  - destruct By0 as [A1 A2], By1 as [A3 A4]. split; intros H.
    + assert (U0 : (0 <= w)%Q) by lra. assert (U1 : (w <= 1)%Q) by lra.
      specialize (A1 U0). specialize (A3 U1). lra.
    + assert (U0 : (0 <= w)%Q) by (apply A2; lra).
      assert (U1 : (w <= 1)%Q) by (apply A4; lra). lra.
  - intros E. assert (Ew0 : w == 0) by (unfold w; rewrite E; unfold Qdiv; ring).
    rewrite Ew0. ring.
  - intros E. assert (Eu0 : u == 0) by (unfold u; rewrite E; unfold Qdiv; ring).
    rewrite Eu0. ring.
Qed.

Lemma pointer_screen_round_trip_witness :
  (0 < 1920)%Q /\ (0 < 1080)%Q /\
  exists mx my : Q,
    mouseOf (Fin 480) (Fin 270) (Fin 1920) (Fin 1080) = (Fin mx, Fin my) /\
    mx == -0.5 /\ my == 0.5 /\
    Num.eqv (fst (confettiOrigin (Fin mx, Fin my) (Fin 1920) (Fin 1080))) (Fin 480).
Proof.
  assert (Hw : (0 < 1920)%Q) by reflexivity.
  assert (Hh : (0 < 1080)%Q) by reflexivity.
  destruct (pointer_screen_round_trip 480 270 1920 1080 Hw Hh)
    as (mx & my & sx & sy & Em & Es & Ex & _).
  split; [exact Hw|]. split; [exact Hh|].
  exists mx, my. split; [exact Em|].
  assert (E : mx == -0.5 /\ my == 0.5).
  { vm_compute in Em. injection Em as <- <-. split; reflexivity. }
  split; [apply E|]. split; [apply E|].
  rewrite Es. exact Ex.
Defined.

(* ================================================================== *)
(** * What a session can do to the scene *)

Section Ledger.
Context {host : Platform} (v : Variant).

(** What the bursts and the user interface see of a state. *)
Definition books (a : App) : list Particles.t * list Effect * bool * nat :=
  (particleSystems a, effects a, hung a, clickCount a).

(** A magnitude the application may hand to [createParticleExplosion]: that
    of a marker's record, as it is, halved or doubled. *)
Definition burstMagnitude (a : App) (magnitude : number) : Prop :=
  exists marker,
    In (Marker.fixed marker) (map Marker.fixed (earthquakeMarkers a)) /\
    (magnitude = Quake.magnitud (Marker.quake marker) \/
     magnitude = (Quake.magnitud (Marker.quake marker) * Fin 0.5)%num \/
     magnitude = (Quake.magnitud (Marker.quake marker) * Fin 2)%num).

(** One thing done to the books.  [throws] tells whether a callback may
    end in a TypeError. *)
Inductive move (throws : bool) (a : App) : App -> Prop :=
| move_quiet (b : App) :
    sceneData b = sceneData a -> books b = books a -> move throws a b
| move_burst (position : Vector3.t) (magnitude depth : number) :
    burstMagnitude a magnitude ->
    move throws a (createParticleExplosion v position magnitude depth a)
| move_dispose (deltaTime : number) :
    move throws a (updateParticles deltaTime a)
| move_uncaught : throws = true -> move throws a (log Uncaught a)
| move_click : move throws a (onClick a).

Inductive moves (throws : bool) : App -> App -> Prop :=
| moves_refl (a : App) : moves throws a a
| moves_step (a b c : App) : move throws a b -> moves throws b c -> moves throws a c.

Lemma moves_one (throws : bool) (a b : App) : move throws a b -> moves throws a b.
Proof. intros H. eapply moves_step; [exact H | apply moves_refl]. Qed.

Lemma moves_trans (throws : bool) (a b c : App) :
  moves throws a b -> moves throws b c -> moves throws a c.
Proof.
  induction 1 as [a|a b b' Hab _ IH]; intros Hc; [exact Hc|].
  eapply moves_step; [exact Hab | apply IH, Hc].
Qed.

Lemma moves_weaken (a b : App) : moves false a b -> moves true a b.
Proof.
  induction 1 as [a|a b c Hab _ IH]; [apply moves_refl|].
  eapply moves_step; [|exact IH].
  destruct Hab; [apply move_quiet; assumption | apply move_burst; assumption
                | apply move_dispose | discriminate | apply move_click].
Qed.

Lemma moves_quiet (throws : bool) (a b : App) :
  sceneData b = sceneData a -> books b = books a -> moves throws a b.
Proof. intros H1 H2. apply moves_one, move_quiet; assumption. Qed.

Lemma moves_fold {A : Type} (throws : bool) (f : App -> A -> App) (l : list A) (a : App) :
  (forall a x, moves throws a (f a x)) -> moves throws a (fold_left f l a).
Proof.
  intros Hf. revert a. induction l as [|x l IH]; intros a; [apply moves_refl|].
  cbn. eapply moves_trans; [apply Hf | apply IH].
Qed.

Lemma moves_andThen (throws : bool) (a : App) (k : App -> App) :
  (forall b, moves throws b (k b)) -> moves throws a (andThen a k).
Proof. intros Hk. unfold andThen. destruct (hung a); [apply moves_refl | apply Hk]. Qed.

Lemma moves_updateMarker (throws : bool) (i : nat) (f : Marker.t -> Marker.t) (a : App) :
  (forall m, Marker.fixed (f m) = Marker.fixed m) ->
  moves throws a (updateMarker i f a).
Proof.
  intros Hf. apply moves_quiet; [apply sceneData_updateMarker, Hf | reflexivity].
Qed.

Lemma burstMagnitude_lookup (a : App) (i : nat) (marker : Marker.t) (magnitude : number) :
  earthquakeMarkers a !! i = Some marker ->
  (magnitude = Quake.magnitud (Marker.quake marker) \/
   magnitude = (Quake.magnitud (Marker.quake marker) * Fin 0.5)%num \/
   magnitude = (Quake.magnitud (Marker.quake marker) * Fin 2)%num) ->
  forall b, sceneData b = sceneData a -> burstMagnitude b magnitude.
Proof.
  intros Hm Hmag b Hb. exists marker. split; [|exact Hmag].
  unfold sceneData in Hb. injection Hb as _ ->.
  apply in_map. apply list_elem_of_In. eapply list_elem_of_lookup_2. exact Hm.
Qed.

Lemma moves_burst (throws : bool) (a b : App) (i : nat) (marker : Marker.t)
    (position : Vector3.t) (magnitude depth : number) :
  earthquakeMarkers a !! i = Some marker ->
  (magnitude = Quake.magnitud (Marker.quake marker) \/
   magnitude = (Quake.magnitud (Marker.quake marker) * Fin 0.5)%num \/
   magnitude = (Quake.magnitud (Marker.quake marker) * Fin 2)%num) ->
  sceneData b = sceneData a ->
  moves throws b (createParticleExplosion v position magnitude depth b).
Proof.
  intros Hm Hmag Hb. apply moves_one, move_burst.
  eapply burstMagnitude_lookup; eassumption.
Qed.

Lemma moves_historyTick (throws : bool) (a : App) : moves throws a (historyTick v a).
Proof.
  unfold historyTick.
  destruct (historyIndex a <? length (earthquakeMarkers a))%nat eqn:E.
  - apply Nat.ltb_lt in E. destruct (lookup_lt_is_Some_2 _ _ E) as [marker Hm].
    rewrite Hm.
    eapply moves_trans; [apply moves_updateMarker, fixed_revealMarker|].
    eapply moves_trans.
    + eapply (moves_burst _ a); [exact Hm|left; reflexivity|].
      apply sceneData_updateMarker, fixed_revealMarker.
    + apply moves_andThen. intros b. apply moves_quiet; reflexivity.
  - apply moves_quiet; [|reflexivity].
    unfold sceneData. cbn. rewrite map_fixed_map by apply fixed_dimMarker. reflexivity.
Qed.

Lemma moves_pulse (throws : bool) (now : Z) (index : nat) (startTime : Z)
    (duration : number) (a : App) :
  moves throws a (pulse v now index startTime duration a).
Proof.
  apply moves_quiet; [apply sceneData_pulse|].
  unfold pulse. destruct (negb _); [reflexivity|]. destruct v; reflexivity.
Qed.

Lemma moves_chaosBurst (throws : bool) (index : nat) (a : App) :
  moves throws a (chaosBurst v index a).
Proof.
  unfold chaosBurst. destruct (earthquakeMarkers a !! index) as [marker|] eqn:Hm;
    [|apply moves_refl].
  eapply (moves_burst _ a); [exact Hm|right; left; reflexivity|reflexivity].
Qed.

Lemma moves_fall (throws : bool) (now : Z) (index : nat) (startTime : Z)
    (startY targetY fallDuration : number) (a : App) :
  moves throws a (fall v now index startTime startY targetY fallDuration a).
Proof.
  unfold fall. destruct (earthquakeMarkers a !! index) as [marker|] eqn:Hm;
    [|apply moves_refl].
  destruct (negb _); [apply moves_updateMarker; reflexivity|].
  match goal with |- context [if ?c then _ else _] => destruct c end.
  - eapply moves_trans;
      [|apply moves_andThen; intros b; apply moves_updateMarker; reflexivity].
    eapply moves_trans;
      [|eapply (moves_burst _ a);
        [exact Hm|left; reflexivity|apply sceneData_updateMarker; reflexivity]].
    apply moves_updateMarker. reflexivity.
  - match goal with
    | |- moves _ _ (requestAnimationFrame ?cb ?b) =>
        apply (moves_trans _ a b); [|apply moves_quiet; reflexivity]
    end.
    apply moves_updateMarker. reflexivity.
Qed.

Lemma moves_fallStart (throws : bool) (now : Z) (index : nat) (captured : option number)
    (fallDuration : number) (a : App) :
  moves throws a (fallStart v now index captured fallDuration a).
Proof.
  unfold fallStart. destruct (earthquakeMarkers a !! index); [|apply moves_refl].
  apply moves_fall.
Qed.

Lemma moves_doubleClickBurst (a : App) : moves true a (doubleClickBurst v a).
Proof.
  unfold doubleClickBurst.
  destruct (hoveredMarker a) as [i|]; [|apply moves_one, move_uncaught; reflexivity].
  destruct (earthquakeMarkers a !! i) as [marker|] eqn:Hm;
    [|apply moves_one, move_uncaught; reflexivity].
  eapply (moves_burst _ a); [exact Hm|right; right; reflexivity|reflexivity].
Qed.

Lemma moves_animate (throws : bool) (now : Z) (a : App) : moves throws a (animate now a).
Proof.
  unfold animate.
  eapply moves_trans; [|apply moves_one, move_dispose].
  apply moves_quiet; reflexivity.
Qed.

Definition isDoubleClickBurst (cb : Callback) : bool :=
  match cb with DoubleClickBurst => true | _ => false end.

Lemma moves_runCallback (now : Z) (cb : Callback) (a : App) :
  moves (isDoubleClickBurst cb) a (runCallback v now cb a).
Proof.
  destruct cb; cbn [runCallback isDoubleClickBurst].
  - apply moves_historyTick.
  - apply moves_pulse.
  - apply moves_chaosBurst.
  - apply moves_fallStart.
  - apply moves_fall.
  - apply moves_doubleClickBurst.
  - apply moves_animate.
Qed.

Lemma moves_setMode (throws : bool) (mode : JSString) (now : Z) (a : App) :
  moves throws a (setMode v mode now a).
Proof.
  apply moves_quiet; [apply sceneData_setMode|].
  unfold setMode, startMode.
  assert (He : books (enterMode v mode a) = books a).
  { unfold enterMode, clearModeInterval. destruct (modeInterval a); reflexivity. }
  assert (Hfold : forall (A : Type) (f : App -> A -> App) (l : list A) (b : App),
            (forall b x, books (f b x) = books b) -> books (fold_left f l b) = books b).
  { intros A f l. induction l as [|x l IH]; intros b Hf; [reflexivity|].
    cbn. rewrite IH by exact Hf. apply Hf. }
  destruct (strEqb mode (lit "history")); [rewrite <- He; reflexivity|].
  destruct (strEqb mode (lit "chaos")).
  { rewrite <- He. apply Hfold. intros b x. unfold chaosMarker. cbn [random].
    assert (Hp : forall n s d c, books (pulse v n x s d c) = books c).
    { intros. unfold pulse. destruct (negb _); [reflexivity|]. destruct v; reflexivity. }
    match goal with |- context [if ?c then _ else _] => destruct c end.
    - change (books (setTimeout ?cb ?ms ?c)) with (books c).
      change (books (with_randomCalls ?n ?c)) with (books c).
      change (books (with_randomCalls ?n ?c)) with (books c).
      rewrite Hp. reflexivity.
    - change (books (with_randomCalls ?n ?c)) with (books c).
      rewrite Hp. reflexivity. }
  destruct (strEqb mode (lit "rain")); [|exact He].
  rewrite <- He. apply Hfold. intros b x. unfold rainMarker.
  destruct (earthquakeMarkers b !! x); reflexivity.
Qed.

(** Whether event [e] may run the burst of a double click. *)
Definition mayThrow (e : Event) (a : App) : bool :=
  match e with
  | TimerFires id _ =>
      match List.find (fun t => (timerId t =? id)%positive) (timers a) with
      | Some t => isDoubleClickBurst (callback t)
      | None => false
      end
  | Frame _ => existsb isDoubleClickBurst (frameRequests a)
  | _ => false
  end.

Lemma moves_step_of (e : Event) (a : App) : moves (mayThrow e a) a (step v e a).
Proof.
  unfold step. destruct (hung a); [apply moves_refl|].
  destruct e; cbn [mayThrow].
  - unfold fireTimer. destruct (List.find _ _) as [t|]; [|apply moves_refl].
    eapply moves_trans; [|apply moves_runCallback].
    destruct (repeats t); [apply moves_refl | apply moves_quiet; reflexivity].
  - unfold runFrame.
    eapply moves_trans; [apply (moves_quiet _ a (with_frameRequests [] a)); reflexivity|].
    generalize (with_frameRequests [] a).
    induction (frameRequests a) as [|cb cbs IH]; intros b; [apply moves_refl|].
    cbn [fold_left existsb].
    eapply moves_trans.
    + apply moves_andThen. intros c.
      pose proof (moves_runCallback now cb c) as H.
      destruct (isDoubleClickBurst cb); cbn [orb]; [exact H|].
      destruct (existsb isDoubleClickBurst cbs); [apply moves_weaken|]; exact H.
    + specialize (IH (andThen b (runCallback v now cb))).
      destruct (isDoubleClickBurst cb); cbn [orb]; [|exact IH].
      destruct (existsb isDoubleClickBurst cbs); [exact IH | apply moves_weaken, IH].
  - apply moves_setMode.
  - unfold onKeyDown. destruct key as [k|]; [|apply moves_refl].
    destruct (_ && _); [|apply moves_refl].
    destruct (_ !! _); [|apply moves_refl]. apply moves_setMode.
  - apply moves_quiet; [apply sceneData_onMouseMove|].
    unfold onMouseMove. destruct hit, (hoveredMarker a), v; reflexivity.
  - apply moves_one, move_click.
  - apply moves_quiet; [apply sceneData_onDoubleClick|].
    unfold onDoubleClick. destruct (hoveredMarker a); reflexivity.
Qed.

(** ** Every callback returns *)

Lemma init_state (r : Fetched) (now : Z) :
  earthquakeMarkers (init v r now) = map (createMarker v) (earthquakes (init v r now)) /\
  particleSystems (init v r now) = [] /\ hung (init v r now) = false /\
  clickCount (init v r now) = 0%nat /\ timers (init v r now) = [] /\
  frameRequests (init v r now) = [Animate] /\
  (effects (init v r now) = [ConsoleError] \/
   effects (init v r now) = [ConsoleLog (length (earthquakes (init v r now)))]).
Proof.
  unfold init, animate, updateParticles. destruct r; cbn; repeat split; auto.
Qed.

Lemma burstsEnd_fixed (ms ms' : list Marker.t) :
  map Marker.fixed ms' = map Marker.fixed ms -> burstsEnd ms -> burstsEnd ms'.
Proof.
  unfold burstsEnd. revert ms'. induction ms as [|m ms IH]; intros [|m' ms'] E H;
    try discriminate; [constructor|].
  cbn in E. apply cons_inv in E as [E1 E2]. inversion H as [|? ? Hm Hms]; subst.
  constructor; [|apply IH; assumption].
  unfold Marker.fixed in E1. injection E1 as _ _ Eq _ _ _ _. rewrite Eq. exact Hm.
Qed.

Lemma burstMagnitude_ends (a : App) (magnitude : number) :
  burstsEnd (earthquakeMarkers a) -> burstMagnitude a magnitude -> magnitude <> Inf false.
Proof.
  intros Hends (marker & Hin & Hmag).
  apply in_map_iff in Hin as (m & Efix & Hin).
  unfold burstsEnd in Hends. rewrite List.Forall_forall in Hends. specialize (Hends m Hin).
  assert (Eq : Marker.quake m = Marker.quake marker).
  { unfold Marker.fixed in Efix. injection Efix as _ _ Eq _ _ _ _. exact Eq. }
  rewrite Eq in Hends.
  destruct (Quake.magnitud (Marker.quake marker)) as [|[|]|q];
    destruct Hmag as [-> | [-> | ->]]; cbn; try discriminate; congruence.
Qed.

Lemma move_returns (throws : bool) (a b : App) :
  move throws a b ->
  burstsEnd (earthquakeMarkers a) -> hung a = false ->
  burstsEnd (earthquakeMarkers b) /\ hung b = false.
Proof.
  intros Hmove Hends Hh. destruct Hmove as [b Hs Hb|position magnitude depth Hmag|dt|_|].
  - unfold sceneData in Hs. injection Hs as _ Hs. unfold books in Hb.
    injection Hb as _ _ Hb _. split; [eapply burstsEnd_fixed; eassumption|congruence].
  - rewrite createParticleExplosion_returns by (eapply burstMagnitude_ends; eassumption).
    split; assumption.
  - unfold updateParticles. destruct (updateSystems _ _). split; assumption.
  - split; assumption.
  - unfold onClick. destruct (hoveredMarker a); [|split; assumption].
    match goal with |- context [if ?c then _ else _] => destruct c end; split; assumption.
Qed.

Lemma moves_return (throws : bool) (a b : App) :
  moves throws a b ->
  burstsEnd (earthquakeMarkers a) -> hung a = false ->
  burstsEnd (earthquakeMarkers b) /\ hung b = false.
Proof.
  induction 1 as [a|a b c Hab _ IH]; intros Hends Hh; [split; assumption|].
  destruct (move_returns _ _ _ Hab Hends Hh) as [Hends' Hh']. apply IH; assumption.
Qed.

Lemma run_returns (events : list Event) (a : App) :
  burstsEnd (earthquakeMarkers a) -> hung a = false ->
  burstsEnd (earthquakeMarkers (run v events a)) /\ hung (run v events a) = false.
Proof.
  revert a. induction events as [|e events IH]; intros a Hends Hh; [split; assumption|].
  change (run v (e :: events) a) with (run v events (step v e a)).
  destruct (moves_return _ _ _ (moves_step_of e a) Hends Hh) as [Hends' Hh'].
  apply IH; assumption.
Qed.


(** ** Bursts in the scene *)

Definition isSceneAdd (e : Effect) : bool :=
  match e with SceneAdd _ => true | _ => false end.

Definition isDispose (e : Effect) : bool :=
  match e with Dispose _ => true | _ => false end.

(** As many bursts are active as were added to the scene and not yet
    disposed of. *)
Definition balanced (a : App) : Prop :=
  length (List.filter isSceneAdd (effects a)) =
    (length (particleSystems a) + length (List.filter isDispose (effects a)))%nat.

Lemma filter_length_split {A : Type} (p : A -> bool) (l : list A) :
  length l = (length (List.filter (fun x => negb (p x)) l) + length (List.filter p l))%nat.
Proof.
  induction l as [|x l IH]; [reflexivity|]. cbn. destruct (p x); cbn; lia.
Qed.

Lemma filter_map_Dispose (l : list Particles.t) :
  List.filter isDispose (map Dispose l) = map Dispose l /\
  List.filter isSceneAdd (map Dispose l) = [].
Proof.
  induction l as [|x l [IH1 IH2]]; [split; reflexivity|]. cbn. rewrite IH1, IH2.
  split; reflexivity.
Qed.

Lemma balanced_move (throws : bool) (a b : App) :
  move throws a b -> balanced a -> balanced b.
Proof.
  unfold balanced. intros Hmove Ha.
  destruct Hmove as [b Hs Hb|position magnitude depth Hmag|dt|_|].
  - unfold books in Hb. injection Hb as -> -> _ _. exact Ha.
  - unfold createParticleExplosion. destruct (loopCount _); [|exact Ha].
    destruct (explosionLoop _ _ _ _ _) as [[ps vs] cs]. cbn.
    rewrite !List.filter_app, !length_app. cbn. lia.
  - destruct (updateParticles_spec dt a) as [-> ->].
    rewrite !List.filter_app, !length_app.
    destruct (filter_map_Dispose
                (rev (List.filter spent (map (ageSystem dt) (particleSystems a)))))
      as [-> ->].
    rewrite length_map, length_rev. cbn [length].
    pose proof (filter_length_split spent (map (ageSystem dt) (particleSystems a))) as H.
    rewrite length_map in H. lia.
  - cbn. rewrite !List.filter_app, !length_app. cbn. lia.
  - unfold onClick. destruct (hoveredMarker a); [|exact Ha].
    match goal with |- context [if ?c then _ else _] => destruct c end;
      cbn; rewrite !List.filter_app, ?length_app; cbn;
      rewrite ?List.filter_app, ?length_app; cbn; lia.
Qed.

Lemma balanced_moves (throws : bool) (a b : App) :
  moves throws a b -> balanced a -> balanced b.
Proof.
  induction 1 as [a|a b c Hab _ IH]; intros Ha; [exact Ha|].
  apply IH. eapply balanced_move; eassumption.
Qed.

(** X9. In every state of a session, whatever the events, the bursts in
    [particleSystems] are as many as the bursts added to the scene less
    those removed and disposed of: a burst leaves the list only by being
    removed from the scene, and enters it only by being added. *)
Theorem scene_accounting (r : Fetched) (now : Z) (events : list Event) :
  balanced (run v events (init v r now)) /\
  (forall (e : Event) (a : App), balanced a -> balanced (step v e a)).
Proof.
  assert (Hstep : forall e a, balanced a -> balanced (step v e a)).
  { intros e a. apply (balanced_moves _ _ _ (moves_step_of e a)). }
  split; [|exact Hstep].
  assert (H0 : balanced (init v r now)).
  { destruct (init_state r now) as (_ & Hp & _ & _ & _ & _ & He).
    unfold balanced. rewrite Hp. destruct He as [-> | ->]; reflexivity. }
  revert H0. generalize (init v r now). induction events as [|e events IH]; intros a Ha;
    [exact Ha|].
  change (run v (e :: events) a) with (run v events (step v e a)). apply IH, Hstep, Ha.
Qed.

(** ** TypeErrors *)

(** No pending callback is the burst of a double click. *)
Definition noDoubleClickPending (a : App) : Prop :=
  Forall (fun t => callback t <> DoubleClickBurst) (timers a) /\
  Forall (fun cb => cb <> DoubleClickBurst) (frameRequests a).

Lemma noDoubleClickPending_extendsBy (P : Callback -> Prop) (a b : App) :
  (forall cb, P cb -> cb <> DoubleClickBurst) ->
  noDoubleClickPending a -> extendsBy P a b -> noDoubleClickPending b.
Proof.
  intros HP [Ht Hf] (_ & _ & (ts & Ets & Hts) & (fs & Efs & Hfs)).
  unfold noDoubleClickPending. rewrite Ets, Efs. split; apply Forall_app; split;
    try assumption.
  - eapply List.Forall_impl; [|exact Hts]. cbn. intros t [_ H]. apply HP, H.
  - eapply List.Forall_impl; [|exact Hfs]. exact HP.
Qed.

Lemma spawns_not_doubleClick (cb cb' : Callback) : spawns cb cb' -> cb' <> DoubleClickBurst.
Proof.
  destruct cb; cbn; try contradiction; try (intros ->; discriminate).
  intros (? & ? & ? & ->). discriminate.
Qed.

Lemma noDoubleClickPending_setMode (mode : JSString) (now : Z) (a : App) :
  noDoubleClickPending a -> noDoubleClickPending (setMode v mode now a).
Proof.
  intros [Ht Hf].
  assert (He : noDoubleClickPending (enterMode v mode a)).
  { unfold enterMode, clearModeInterval, noDoubleClickPending.
    destruct (modeInterval a); cbn; split; try assumption.
    apply Forall_filter, Ht. }
  unfold setMode, startMode.
  destruct (strEqb mode (lit "history")).
  { destruct He as [Ht' Hf']. unfold startHistoryMode, setInterval, noDoubleClickPending.
    cbn. split; [|exact Hf'].
    apply Forall_app. split; [exact Ht'|]. repeat constructor. discriminate. }
  destruct (strEqb mode (lit "chaos")).
  { eapply (noDoubleClickPending_extendsBy (fun cb => cb <> DoubleClickBurst));
      [auto|exact He|].
    apply extendsBy_startChaosMode; discriminate. }
  destruct (strEqb mode (lit "rain")); [|exact He].
  eapply (noDoubleClickPending_extendsBy (fun cb => cb <> DoubleClickBurst));
    [auto|exact He|].
  apply extendsBy_startRainMode; discriminate.
Qed.

Lemma noDoubleClickPending_runCallback (now : Z) (cb : Callback) (a : App) :
  noDoubleClickPending a -> noDoubleClickPending (runCallback v now cb a).
Proof.
  intros Ha. eapply noDoubleClickPending_extendsBy;
    [|exact Ha|apply extendsBy_runCallback].
  apply spawns_not_doubleClick.
Qed.

Lemma noDoubleClickPending_step (e : Event) (a : App) :
  e <> DoubleClick -> noDoubleClickPending a -> noDoubleClickPending (step v e a).
Proof.
  intros He Ha. unfold step. destruct (hung a); [exact Ha|].
  destruct e; try congruence.
  - unfold fireTimer. destruct (List.find _ _) as [t|]; [|exact Ha].
    apply noDoubleClickPending_runCallback. destruct (repeats t); [exact Ha|].
    destruct Ha as [Ht Hf]. split; [|exact Hf]. cbn. apply Forall_filter, Ht.
  - unfold runFrame.
    assert (H0 : noDoubleClickPending (with_frameRequests [] a)).
    { destruct Ha as [Ht Hf]. split; [exact Ht|constructor]. }
    revert H0. generalize (with_frameRequests [] a).
    induction (frameRequests a) as [|cb cbs IH]; intros b Hb; [exact Hb|].
    cbn. apply IH. unfold andThen. destruct (hung b); [exact Hb|].
    apply noDoubleClickPending_runCallback, Hb.
  - apply noDoubleClickPending_setMode, Ha.
  - unfold onKeyDown. destruct key as [k|]; [|exact Ha].
    destruct (_ && _); [|exact Ha].
    destruct (_ !! _); [|exact Ha]. apply noDoubleClickPending_setMode, Ha.
  - eapply (noDoubleClickPending_extendsBy (fun _ => False)); [contradiction|exact Ha|].
    apply extendsBy_same; unfold onMouseMove;
      destruct hit, (hoveredMarker a), v; reflexivity.
  - eapply (noDoubleClickPending_extendsBy (fun _ => False)); [contradiction|exact Ha|].
    apply extendsBy_same; unfold onClick;
      destruct (hoveredMarker a); try reflexivity;
      match goal with |- context [if ?c then _ else _] => destruct c end; reflexivity.
Qed.

Lemma mayThrow_false (e : Event) (a : App) :
  noDoubleClickPending a -> mayThrow e a = false.
Proof.
  intros [Ht Hf]. destruct e; try reflexivity; cbn [mayThrow].
  - destruct (List.find _ _) as [t|] eqn:E; [|reflexivity].
    apply find_some in E as [Hin _]. rewrite List.Forall_forall in Ht.
    specialize (Ht t Hin). destruct (callback t); try reflexivity. congruence.
  - induction Hf as [|cb cbs Hcb _ IH]; [reflexivity|]. cbn. rewrite IH.
    destruct cb; try reflexivity. congruence.
Qed.

Lemma uncaught_move (a b : App) :
  move false a b -> ~ In Uncaught (effects a) -> ~ In Uncaught (effects b).
Proof.
  intros Hmove Ha. destruct Hmove as [b Hs Hb|position magnitude depth Hmag|dt|Habs|].
  - unfold books in Hb. injection Hb as _ -> _ _. exact Ha.
  - unfold createParticleExplosion. destruct (loopCount _); [|exact Ha].
    destruct (explosionLoop _ _ _ _ _) as [[ps vs] cs]. cbn.
    intros Hin. apply in_app_or in Hin as [Hin|[Hin|[]]]; [auto|discriminate].
  - destruct (updateParticles_spec dt a) as [_ ->].
    intros Hin. apply in_app_or in Hin as [Hin|Hin]; [auto|].
    apply in_map_iff in Hin as (? & ? & _). discriminate.
  - discriminate.
  - unfold onClick. destruct (hoveredMarker a); [|exact Ha].
    match goal with |- context [if ?c then _ else _] => destruct c end; cbn;
      intros Hin; repeat (apply in_app_or in Hin as [Hin|Hin]);
      try (destruct Hin as [Hin|[]]; discriminate); auto.
Qed.

Lemma uncaught_moves (a b : App) :
  moves false a b -> ~ In Uncaught (effects a) -> ~ In Uncaught (effects b).
Proof.
  intros H. remember false as throws eqn:E. revert E.
  induction H as [a|a b c Hab _ IH]; intros -> Ha; [exact Ha|].
  apply IH; [reflexivity|]. eapply uncaught_move; eassumption.
Qed.

(** X10. No callback of a session ends in a TypeError as long as the user
    never double-clicks: the only callback that can is the delayed burst
    of a double click, which reads [this.hoveredMarker] when it fires. *)
Theorem no_uncaught_without_double_click (r : Fetched) (now : Z) (events : list Event) :
  Forall (fun e => e <> DoubleClick) events ->
  ~ In Uncaught (effects (run v events (init v r now))).
Proof.
  intros Hev.
  assert (H0 : noDoubleClickPending (init v r now) /\ ~ In Uncaught (effects (init v r now))).
  { destruct (init_state r now) as (_ & _ & _ & _ & Ht & Hf & He). split.
    - unfold noDoubleClickPending. rewrite Ht, Hf. split; repeat constructor. discriminate.
    - destruct He as [-> | ->]; intros [H|[]]; discriminate. }
  revert H0. generalize (init v r now).
  induction Hev as [|e events He _ IH]; intros a [Hp Hu]; [exact Hu|].
  change (run v (e :: events) a) with (run v events (step v e a)). apply IH. split.
  - apply noDoubleClickPending_step; assumption.
  - pose proof (moves_step_of e a) as Hm. rewrite (mayThrow_false e a Hp) in Hm.
    eapply uncaught_moves; eassumption.
Qed.

(** ** The click counter *)

Definition isConfetti (e : Effect) : bool :=
  match e with Confetti _ => true | _ => false end.

Definition isAchievement (e : Effect) : bool :=
  match e with Achievement => true | _ => false end.

Lemma clickCount_move (throws : bool) (a b : App) :
  move throws a b -> (clickCount a < 10)%nat -> (clickCount b < 10)%nat.
Proof.
  intros Hmove Ha. destruct Hmove as [b Hs Hb|position magnitude depth Hmag|dt|_|].
  - unfold books in Hb. injection Hb as _ _ _ ->. exact Ha.
  - unfold createParticleExplosion. destruct (loopCount _); [|exact Ha].
    destruct (explosionLoop _ _ _ _ _) as [[ps vs] cs]. exact Ha.
  - unfold updateParticles. destruct (updateSystems _ _). exact Ha.
  - exact Ha.
  - unfold onClick. destruct (hoveredMarker a) as [j|]; [|exact Ha]. cbn.
    destruct (clickCount a) as [|[|[|[|[|[|[|[|[|[|k]]]]]]]]]]; cbn; lia.
Qed.

Lemma clickCount_moves (throws : bool) (a b : App) :
  moves throws a b -> (clickCount a < 10)%nat -> (clickCount b < 10)%nat.
Proof.
  induction 1 as [a|a b c Hab _ IH]; intros Ha; [exact Ha|].
  apply IH. eapply clickCount_move; eassumption.
Qed.

Lemma clickCount_reachable (a : App) : reachable v a -> (clickCount a < 10)%nat.
Proof.
  induction 1 as [r now|e a _ IH].
  - destruct (init_state r now) as (_ & _ & _ & -> & _). lia.
  - exact (clickCount_moves _ _ _ (moves_step_of e a) IH).
Qed.

(** One click on the hovered marker [i], the counter being below 10. *)
Lemma onClick_hovered (i : nat) (a : App) :
  hoveredMarker a = Some i -> (clickCount a < 10)%nat ->
  let b := onClick a in
  with_effects (effects a) (with_clickCount (clickCount a) b) = a /\
  clickCount b = (S (clickCount a) mod 10)%nat /\
  effects b =
    effects a ++ Confetti i :: (if (clickCount a =? 9)%nat then [Achievement] else []).
Proof.
  intros Hh Hc. unfold onClick. rewrite Hh. cbn.
  destruct a as [qs ms ps hov mode c int idx lt ts fs nid rc eff hg]. cbn in *.
  do 10 (destruct c as [|c]; [cbn; rewrite <- ?app_assoc; repeat split; reflexivity|]).
  lia.
Qed.

(** X11. The click counter stays between 0 and 9 in every state of a session.
    A click with no marker under the pointer does nothing.  [n] clicks on
    the hovered marker [i], the counter being [c], scatter [n] confetti
    for marker [i], show the achievement once each time the counter
    reaches 10, that is [(c + n) / 10] times, leave the counter at
    [(c + n) mod 10], and change nothing else. *)
Theorem click_counter :
  (forall a : App, reachable v a -> (clickCount a < 10)%nat) /\
  (forall a : App, hoveredMarker a = None -> step v Click a = a) /\
  (forall (a : App) (i n : nat),
     hung a = false -> hoveredMarker a = Some i -> (clickCount a < 10)%nat ->
     let b := run v (repeat Click n) a in
     clickCount b = ((clickCount a + n) mod 10)%nat /\
     with_effects (effects a) (with_clickCount (clickCount a) b) = a /\
     exists new,
       effects b = effects a ++ new /\
       Forall (fun e => e = Confetti i \/ e = Achievement) new /\
       length (List.filter isConfetti new) = n /\
       length (List.filter isAchievement new) = ((clickCount a + n) / 10)%nat).
Proof.
  split; [exact clickCount_reachable|]. split.
  { intros a Hh. unfold step, onClick. rewrite Hh. destruct (hung a); reflexivity. }
  intros a i n Hh Hi Hc. revert a Hh Hi Hc. induction n as [|n IH]; intros a Hh Hi Hc.
  - cbv zeta. change (run v (repeat Click 0) a) with a.
    rewrite Nat.add_0_r, Nat.mod_small, Nat.div_small by lia.
    split; [reflexivity|]. split; [destruct a; reflexivity|].
    exists []. rewrite app_nil_r. repeat split; constructor.
  - cbn [repeat]. change (run v (Click :: repeat Click n) a)
      with (run v (repeat Click n) (step v Click a)).
    assert (Es : step v Click a = onClick a) by (unfold step; rewrite Hh; reflexivity).
    rewrite Es. destruct (onClick_hovered i a Hi Hc) as (Hrest & Hcount & Heff).
    assert (Hh' : hung (onClick a) = false).
    { rewrite <- Hh. rewrite <- Hrest at 2. reflexivity. }
    assert (Hi' : hoveredMarker (onClick a) = Some i).
    { rewrite <- Hi. rewrite <- Hrest at 2. reflexivity. }
    assert (Hc' : (clickCount (onClick a) < 10)%nat).
    { rewrite Hcount. apply Nat.mod_upper_bound. lia. }
    specialize (IH (onClick a) Hh' Hi' Hc'). cbv zeta in IH.
    destruct IH as (IHc & IHrest & new & IHe & IHall & IHconf & IHach).
    set (b := run v (repeat Click n) (onClick a)) in *.
    assert (Hnine : (clickCount a =? 9)%nat = true \/ (clickCount a =? 9)%nat = false)
      by (destruct (clickCount a =? 9)%nat; auto).
    split; [|split].
    + rewrite IHc, Hcount. rewrite Nat.Div0.add_mod_idemp_l. f_equal. lia.
    + rewrite <- Hrest at 3. rewrite <- IHrest. destruct b; reflexivity.
    + exists (Confetti i :: (if (clickCount a =? 9)%nat then [Achievement] else []) ++ new).
      rewrite IHe, Heff, <- app_assoc. split; [reflexivity|].
      destruct Hnine as [E9|E9]; rewrite E9; cbn [app List.filter isConfetti isAchievement length].
      * apply Nat.eqb_eq in E9. rewrite E9 in *. split; [|split].
        -- constructor; [left; reflexivity|]. constructor; [right; reflexivity|]. exact IHall.
        -- rewrite IHconf. reflexivity.
        -- rewrite IHach, Hcount. cbn [Nat.modulo]. 
           replace (9 + S n)%nat with (n + 1 * 10)%nat by lia.
           rewrite Nat.div_add by lia. change (10 mod 10)%nat with 0%nat. cbn. lia.
      * apply Nat.eqb_neq in E9. split; [|split].
        -- constructor; [left; reflexivity|]. exact IHall.
        -- rewrite IHconf. reflexivity.
        -- rewrite IHach, Hcount. rewrite Nat.mod_small by lia. f_equal. lia.
Qed.

End Ledger.

(* ================================================================== *)
(** * The History interval *)

Section Interval.
Context {host : Platform} (v : Variant).

Definition isHistoryTimer (t : Timer) : bool :=
  match callback t with HistoryTick => true | _ => false end.

(** The period of the History interval. *)
Definition historyPeriod : number :=
  match v with GeoMap => Fin 120 | Planet => Fin 150 end.

(** The timers that run the History tick are the interval that
    [modeInterval] holds, alone, when the mode is History, and none
    otherwise; handles are handed out once. *)
Definition intervalOk (a : App) : Prop :=
  List.NoDup (map timerId (timers a)) /\ timersFresh a /\
  match modeInterval a with
  | Some id =>
      isMode "history" a = true /\
      List.filter isHistoryTimer (timers a) = [mkTimer id true historyPeriod HistoryTick]
  | None =>
      isMode "history" a = false /\ List.filter isHistoryTimer (timers a) = []
  end.

(** The fields the invariant reads. *)
Definition hostSide (a : App) : list Timer * positive * option positive * JSString :=
  (timers a, nextTimerId a, modeInterval a, currentMode a).

Lemma intervalOk_hostSide (a b : App) : hostSide b = hostSide a -> intervalOk a -> intervalOk b.
Proof.
  unfold hostSide, intervalOk, timersFresh, isMode. intros H. injection H as -> -> -> ->.
  auto.
Qed.

Lemma hostSide_createParticleExplosion (position : Vector3.t) (magnitude depth : number)
    (a : App) :
  hostSide (createParticleExplosion v position magnitude depth a) = hostSide a.
Proof.
  unfold createParticleExplosion. destruct (loopCount _); [|reflexivity].
  destruct (explosionLoop _ _ _ _ _) as [[ps vs] cs]. reflexivity.
Qed.

Lemma hostSide_andThen (a : App) (k : App -> App) :
  (forall b, hostSide (k b) = hostSide b) -> hostSide (andThen a k) = hostSide a.
Proof. intros Hk. unfold andThen. destruct (hung a); [reflexivity|apply Hk]. Qed.

Lemma hostSide_fall (now : Z) (index : nat) (startTime : Z)
    (startY targetY fallDuration : number) (a : App) :
  hostSide (fall v now index startTime startY targetY fallDuration a) = hostSide a.
Proof.
  unfold fall. destruct (earthquakeMarkers a !! index); [|reflexivity].
  destruct (negb _); [reflexivity|].
  match goal with |- context [if ?c then _ else _] => destruct c end; [|reflexivity].
  rewrite hostSide_andThen by reflexivity. rewrite hostSide_createParticleExplosion.
  reflexivity.
Qed.

Lemma hostSide_runCallback (now : Z) (cb : Callback) (a : App) :
  hostSide (runCallback v now cb a) = hostSide a.
Proof.
  destruct cb; cbn [runCallback].
  - unfold historyTick. destruct (_ <? _)%nat; [|reflexivity].
    destruct (earthquakeMarkers a !! historyIndex a); [|reflexivity].
    rewrite hostSide_andThen by reflexivity. rewrite hostSide_createParticleExplosion.
    reflexivity.
  - unfold pulse. destruct (negb _); [reflexivity|]. destruct v; reflexivity.
  - unfold chaosBurst. destruct (earthquakeMarkers a !! marker); [|reflexivity].
    apply hostSide_createParticleExplosion.
  - unfold fallStart. destruct (earthquakeMarkers a !! marker); [|reflexivity].
    apply hostSide_fall.
  - apply hostSide_fall.
  - unfold doubleClickBurst. destruct (hoveredMarker a) as [i|]; [|reflexivity].
    destruct (earthquakeMarkers a !! i); [|reflexivity].
    apply hostSide_createParticleExplosion.
  - unfold animate, updateParticles. destruct (updateSystems _ _). reflexivity.
Qed.

(** A one-shot timer added to an orderly state. *)
Lemma intervalOk_append (a b : App) (t : Timer) :
  timers b = timers a ++ [t] -> nextTimerId b = Pos.succ (nextTimerId a) ->
  modeInterval b = modeInterval a -> currentMode b = currentMode a ->
  timerId t = nextTimerId a -> isHistoryTimer t = false ->
  intervalOk a -> intervalOk b.
Proof.
  intros Ht Hn Hm Hc Hid Hcb (Hdup & Hfresh & Hint).
  unfold intervalOk, timersFresh, isMode in *. rewrite Ht, Hn, Hm, Hc.
  rewrite map_app, List.filter_app. cbn [map List.filter]. rewrite Hcb, app_nil_r.
  split; [|split; [|exact Hint]].
  - apply NoDup_app; [exact Hdup|constructor; [intros []|constructor]|].
    intros id Hin [<-|[]]. apply in_map_iff in Hin as (t' & E & Hin').
    rewrite List.Forall_forall in Hfresh. specialize (Hfresh t' Hin'). lia.
  - apply Forall_app. split.
    + eapply List.Forall_impl; [|exact Hfresh]. cbn. intros; lia.
    + repeat constructor. lia.
Qed.

Lemma intervalOk_fold {A : Type} (f : App -> A -> App) (l : list A) (a : App) :
  (forall b x, intervalOk b -> intervalOk (f b x)) ->
  intervalOk a -> intervalOk (fold_left f l a).
Proof.
  intros Hf. revert a. induction l as [|x l IH]; intros a Ha; [exact Ha|].
  cbn. apply IH, Hf, Ha.
Qed.

Lemma filter_filter_comm {A : Type} (p q : A -> bool) (l : list A) :
  List.filter p (List.filter q l) = List.filter q (List.filter p l).
Proof.
  induction l as [|x l IH]; [reflexivity|]. cbn.
  destruct (p x) eqn:Ep, (q x) eqn:Eq; cbn; rewrite ?Ep, ?Eq, IH; reflexivity.
Qed.

Lemma NoDup_filter_ids (p : Timer -> bool) (ts : list Timer) :
  List.NoDup (map timerId ts) -> List.NoDup (map timerId (List.filter p ts)).
Proof.
  induction ts as [|t ts IH]; intros H; [constructor|].
  cbn in *. apply NoDup_cons_iff in H as [Hnot Hdup].
  destruct (p t); [|apply IH, Hdup]. cbn. apply List.NoDup_cons; [|apply IH, Hdup].
  intros Hin. apply Hnot.
  apply in_map_iff in Hin as (t' & E & Hin). apply filter_In in Hin as [Hin _].
  apply in_map_iff. eauto.
Qed.

(** The reset of [setMode] takes the History interval out. *)
Lemma intervalOk_enterMode (mode : JSString) (a : App) :
  intervalOk a ->
  let b := enterMode v mode a in
  List.NoDup (map timerId (timers b)) /\ timersFresh b /\ modeInterval b = None /\
  List.filter isHistoryTimer (timers b) = [] /\ currentMode b = mode /\
  nextTimerId b = nextTimerId a.
Proof.
  intros (Hdup & Hfresh & Hint). unfold enterMode, clearModeInterval, timersFresh.
  destruct (modeInterval a) as [id|] eqn:E; cbn.
  - destruct Hint as [_ Hf]. repeat split.
    + apply NoDup_filter_ids, Hdup.
    + apply Forall_filter, Hfresh.
    + rewrite filter_filter_comm, Hf. cbn. rewrite Pos.eqb_refl. reflexivity.
  - destruct Hint as [_ Hf]. repeat split; assumption.
Qed.

Lemma intervalOk_setMode (mode : JSString) (now : Z) (a : App) :
  intervalOk a -> intervalOk (setMode v mode now a).
Proof.
  intros Ha. destruct (intervalOk_enterMode mode a Ha) as (Hdup & Hfresh & Hm & Hf & Hc & Hn).
  set (a0 := enterMode v mode a) in *.
  unfold setMode, startMode. fold a0. clearbody a0.
  destruct (strEqb mode (lit "history")) eqn:Eh.
  { unfold startHistoryMode, setInterval, intervalOk, timersFresh, isMode.
    cbn -[lit strEqb]. fold historyPeriod. rewrite Hc, Eh, map_app, List.filter_app, Hf. cbn. repeat split.
    - apply NoDup_app; [exact Hdup|constructor; [intros []|constructor]|].
      intros id Hin [<-|[]]. apply in_map_iff in Hin as (t' & E & Hin').
      unfold timersFresh in Hfresh. rewrite List.Forall_forall in Hfresh.
      specialize (Hfresh t' Hin'). lia.
    - apply Forall_app. split.
      + eapply List.Forall_impl; [|exact Hfresh]. cbn. intros; lia.
      + repeat constructor. cbn. lia. }
  assert (H0 : intervalOk a0).
  { unfold intervalOk, isMode. rewrite Hm, Hc, Eh. auto. }
  destruct (strEqb mode (lit "chaos")).
  { apply intervalOk_fold; [|exact H0]. intros b x Hb. unfold chaosMarker. cbn [random].
    set (b1 := pulse v now x now _ _).
    assert (Hb1 : intervalOk b1).
    { eapply intervalOk_hostSide; [|exact Hb]. unfold b1, pulse.
      destruct (negb _); [reflexivity|]. destruct v; reflexivity. }
    match goal with |- context [if ?c then _ else _] => destruct c end.
    - eapply intervalOk_append; [| | | | | |exact Hb1]; reflexivity.
    - eapply intervalOk_hostSide; [|exact Hb1]. reflexivity. }
  destruct (strEqb mode (lit "rain")); [|exact H0].
  apply intervalOk_fold; [|exact H0]. intros b x Hb. unfold rainMarker.
  destruct (earthquakeMarkers b !! x); [|exact Hb].
  eapply intervalOk_append; [| | | | | |exact Hb]; reflexivity.
Qed.

Lemma intervalOk_runCallback (now : Z) (cb : Callback) (a : App) :
  intervalOk a -> intervalOk (runCallback v now cb a).
Proof. apply intervalOk_hostSide, hostSide_runCallback. Qed.

Lemma find_filter_unique (id : positive) (t t' : Timer) (ts : list Timer) :
  List.NoDup (map timerId ts) ->
  List.find (fun t => (timerId t =? id)%positive) ts = Some t ->
  In t' ts -> timerId t' = id -> t' = t.
Proof.
  induction ts as [|x ts IH]; intros Hdup Hfind Hin Hid; [destruct Hin|].
  cbn in *. apply NoDup_cons_iff in Hdup as [Hnot Hdup].
  destruct (Pos.eqb_spec (timerId x) id) as [E|E].
  - injection Hfind as <-. destruct Hin as [->|Hin]; [reflexivity|].
    exfalso. apply Hnot. apply in_map_iff. exists t'. split; [congruence|exact Hin].
  - destruct Hin as [->|Hin]; [congruence|]. apply IH; assumption.
Qed.

Lemma intervalOk_step (e : Event) (a : App) : intervalOk a -> intervalOk (step v e a).
Proof.
  intros Ha. unfold step. destruct (hung a); [exact Ha|].
  destruct e.
  - unfold fireTimer. destruct (List.find _ _) as [t|] eqn:Efind; [|exact Ha].
    apply intervalOk_runCallback. destruct (repeats t) eqn:Erep; [exact Ha|].
    destruct Ha as (Hdup & Hfresh & Hint).
    unfold intervalOk, timersFresh, clearInterval, isMode. cbn.
    split; [apply NoDup_filter_ids, Hdup|]. split; [apply Forall_filter, Hfresh|].
    rewrite filter_filter_comm.
    destruct (modeInterval a) as [h|]; destruct Hint as [Hmode Hf]; rewrite Hf;
      (split; [exact Hmode|]); [|reflexivity].
    cbn. destruct (Pos.eqb_spec h id) as [E|_]; [exfalso|reflexivity].
    assert (Hin : In (mkTimer h true historyPeriod HistoryTick) (timers a)).
    { eapply (proj1 (filter_In isHistoryTimer _ _)). rewrite Hf. left. reflexivity. }
    pose proof (find_filter_unique id t _ (timers a) Hdup Efind Hin E) as Et.
    rewrite <- Et in Erep. discriminate.
  - unfold runFrame.
    assert (H0 : intervalOk (with_frameRequests [] a))
      by (eapply intervalOk_hostSide; [|exact Ha]; reflexivity).
    revert H0. generalize (with_frameRequests [] a).
    induction (frameRequests a) as [|cb cbs IH]; intros b Hb; [exact Hb|].
    cbn. apply IH. unfold andThen. destruct (hung b); [exact Hb|].
    apply intervalOk_runCallback, Hb.
  - apply intervalOk_setMode, Ha.
  - unfold onKeyDown. destruct key as [k|]; [|exact Ha].
    destruct (_ && _); [|exact Ha].
    destruct (_ !! _); [|exact Ha]. apply intervalOk_setMode, Ha.
  - eapply intervalOk_hostSide; [|exact Ha].
    unfold onMouseMove. destruct hit, (hoveredMarker a), v; reflexivity.
  - eapply intervalOk_hostSide; [|exact Ha].
    unfold onClick. destruct (hoveredMarker a); [|reflexivity].
    match goal with |- context [if ?c then _ else _] => destruct c end; reflexivity.
  - unfold onDoubleClick. destruct (hoveredMarker a); [|exact Ha].
    eapply intervalOk_append; [| | | | | |exact Ha]; reflexivity.
Qed.

(** X20. In every state of a session the History interval is pending exactly
    when the mode is History: [modeInterval] then holds its handle, it is
    the only timer that runs the History tick, it repeats, and its period
    is 120 ms on the map and 150 ms around the planet; in any other mode
    [modeInterval] is null and no timer runs the History tick.  No two
    pending timers share a handle. *)
Theorem history_interval_tracks_mode (a : App) :
  reachable v a ->
  List.NoDup (map timerId (timers a)) /\
  match modeInterval a with
  | Some id =>
      isMode "history" a = true /\
      List.filter isHistoryTimer (timers a) = [mkTimer id true historyPeriod HistoryTick]
  | None =>
      isMode "history" a = false /\ List.filter isHistoryTimer (timers a) = []
  end.
Proof.
  intros Hr.
  assert (H : intervalOk a).
  { induction Hr as [r now|e a _ IH]; [|apply intervalOk_step, IH].
    unfold init, animate, updateParticles, intervalOk, timersFresh.
    destruct r; cbn; repeat split; constructor. }
  destruct H as (H1 & _ & H3). split; assumption.
Qed.

End Interval.

(* ================================================================== *)
(** * Pointer, Chaos and Rain *)

Section Interaction.
Context {host : Platform} (v : Variant).

(** ** Double click *)

Lemma lookup_fixed (ms ms' : list Marker.t) (i : nat) (m : Marker.t) :
  map Marker.fixed ms' = map Marker.fixed ms -> ms !! i = Some m ->
  exists m', ms' !! i = Some m' /\ Marker.fixed m' = Marker.fixed m.
Proof.
  intros E Hm.
  assert (H : map Marker.fixed ms' !! i = Some (Marker.fixed m)).
  { rewrite E, lookup_map, Hm. reflexivity. }
  rewrite lookup_map in H. destruct (ms' !! i) as [m'|]; [|discriminate].
  exists m'. split; [reflexivity|]. cbn in H. congruence.
Qed.

Lemma onMouseMove_host (hit : option nat) (a : App) :
  let b := onMouseMove v hit a in
  hoveredMarker b = hit /\ timers b = timers a /\ frameRequests b = frameRequests a /\
  nextTimerId b = nextTimerId a /\ randomCalls b = randomCalls a /\
  particleSystems b = particleSystems a /\ effects b = effects a /\ hung b = hung a /\
  currentMode b = currentMode a /\ clickCount b = clickCount a /\
  earthquakes b = earthquakes a /\ modeInterval b = modeInterval a /\
  historyIndex b = historyIndex a /\ lastTime b = lastTime a.
Proof.
  unfold onMouseMove. destruct (hoveredMarker a) as [h|] eqn:E; destruct hit, v; cbn;
    repeat split; try reflexivity; exact E.
Qed.

Lemma App_ext (a b : App) :
  earthquakes a = earthquakes b -> earthquakeMarkers a = earthquakeMarkers b ->
  particleSystems a = particleSystems b -> hoveredMarker a = hoveredMarker b ->
  currentMode a = currentMode b -> clickCount a = clickCount b ->
  modeInterval a = modeInterval b -> historyIndex a = historyIndex b ->
  lastTime a = lastTime b -> timers a = timers b ->
  frameRequests a = frameRequests b -> nextTimerId a = nextTimerId b ->
  randomCalls a = randomCalls b -> effects a = effects b -> hung a = hung b ->
  a = b.
Proof. destruct a, b. cbn. intros. subst. reflexivity. Qed.

(** X12. A double click on a hovered marker sets one timer, due when the camera
    flight ends (1000 ms on the map, 1500 ms around the planet).  When the
    timer fires, the burst is made for the marker under the pointer at
    that time, with twice its magnitude, not for the marker that was
    double-clicked; if the pointer is over no marker by then, the callback
    ends in a TypeError and makes no burst.  Either way the timer is gone
    afterwards. *)
Theorem double_click_burst (a : App) (i : nat) (hit : option nat) (now : Z) :
  hung a = false -> timersFresh a -> hoveredMarker a = Some i ->
  let id := nextTimerId a in
  let wait := match v with GeoMap => Fin 1000 | Planet => Fin 1500 end in
  let a1 := step v DoubleClick a in
  let a2 := step v (MouseMove hit) a1 in
  let a3 := step v (TimerFires id now) a2 in
  timers a1 = timers a ++ [mkTimer id false wait DoubleClickBurst] /\
  (forall e : Z, snd (doubleClickMove v e) = false <-> (wait <=? Num.of_Z e)%num = true) /\
  timers a3 = timers a /\
  match hit with
  | None => effects a3 = effects a ++ [Uncaught] /\ particleSystems a3 = particleSystems a
  | Some j =>
      forall marker,
        earthquakeMarkers a !! j = Some marker ->
        Quake.magnitud (Marker.quake marker) <> Inf false ->
        let burst :=
          burstWith v (burstCount (Quake.magnitud (Marker.quake marker) * Fin 2)%num)
            (randomCalls a) (Marker.originalPosition marker)
            (Quake.profundidad (Marker.quake marker)) in
        particleSystems a3 = particleSystems a ++ [burst] /\
        effects a3 = effects a ++ [SceneAdd burst]
  end.
Proof.
  intros Hh Hfresh Hi id wait a1 a2 a3.
  assert (E1 : a1 = setTimeout DoubleClickBurst wait a).
  { unfold a1, step, onDoubleClick. rewrite Hh, Hi. reflexivity. }
  assert (Hh1 : hung a1 = false) by (rewrite E1; exact Hh).
  assert (E2 : a2 = onMouseMove v hit a1).
  { unfold a2, step. rewrite Hh1. reflexivity. }
  destruct (onMouseMove_host hit a1)
    as (Hhov & Ht & Hf & Hn & Hr & Hp & He & Hh2 & _).
  rewrite <- E2 in Hhov, Ht, Hf, Hn, Hr, Hp, He, Hh2.
  assert (Hfind : List.find (fun t => (timerId t =? id)%positive) (timers a2)
                  = Some (mkTimer id false wait DoubleClickBurst)).
  { rewrite Ht, E1. cbn. rewrite find_app, find_fresh by exact Hfresh.
    cbn. unfold id. rewrite Pos.eqb_refl. reflexivity. }
  assert (E3 : a3 = doubleClickBurst v (clearInterval id a2)).
  { unfold a3, step, fireTimer. rewrite Hh2, Hh1, Hfind. reflexivity. }
  assert (Hclear : timers (clearInterval id a2) = timers a).
  { cbn. rewrite Ht, E1. cbn. rewrite List.filter_app. cbn. unfold id.
    rewrite Pos.eqb_refl. cbn. rewrite app_nil_r.
    clear -Hfresh. unfold timersFresh in Hfresh.
    induction Hfresh as [|t ts Hlt _ IH]; [reflexivity|]. cbn.
    destruct (Pos.eqb_spec (timerId t) (nextTimerId a)) as [E|_]; [lia|]. cbn.
    f_equal. exact IH. }
  split; [rewrite E1; reflexivity|]. split.
  { intros e. unfold doubleClickMove, smoothCameraMove, wait.
    destruct v.
    - destruct (progress_value 1000 e ltac:(reflexivity)) as (p & Hp1 & _ & _ & _ & Hc).
      unfold cameraMove. cbv zeta. rewrite Hp1. cbn [snd].
      destruct (Fin p <? Fin 1)%num eqn:Eb.
      + pose proof (proj1 Hc eq_refl) as L. split; [discriminate|].
        cbn. rewrite Qle_bool_iff. intros. lra.
      + split; [|reflexivity]. intros _. cbn. rewrite Qle_bool_iff.
        destruct (Qlt_le_dec (inject_Z e) 1000) as [L|G]; [|exact G].
        apply Hc in L. discriminate.
    - change (Fin 1.5 * Fin 1000)%num with (Fin (1.5 * 1000)).
      destruct (progress_value (1.5 * 1000) e ltac:(reflexivity))
        as (p & Hp1 & _ & _ & _ & Hc).
      unfold cameraMove. cbv zeta. rewrite Hp1. cbn [snd].
      destruct (Fin p <? Fin 1)%num eqn:Eb.
      + pose proof (proj1 Hc eq_refl) as L. split; [discriminate|].
        cbn. rewrite Qle_bool_iff. intros. lra.
      + split; [|reflexivity]. intros _. cbn. rewrite Qle_bool_iff.
        destruct (Qlt_le_dec (inject_Z e) (1.5 * 1000)) as [L|G]; [|lra].
        apply Hc in L. discriminate. }
  assert (Hhov' : hoveredMarker (clearInterval id a2) = hit) by exact Hhov.
  split.
  { rewrite E3. unfold doubleClickBurst. rewrite Hhov'.
    destruct hit as [j|]; [|exact Hclear].
    destruct (earthquakeMarkers (clearInterval id a2) !! j);
      [|exact Hclear].
    unfold createParticleExplosion. destruct (loopCount _); [|exact Hclear].
    destruct (explosionLoop _ _ _ _ _) as [[ps vs] cs]. exact Hclear. }
  destruct hit as [j|].
  - intros marker Hm Hmag burst.
    assert (Hs : map Marker.fixed (earthquakeMarkers a2) = map Marker.fixed (earthquakeMarkers a)).
    { pose proof (sceneData_onMouseMove v (Some j) a1) as H. rewrite <- E2 in H.
      unfold sceneData in H. injection H as _ ->. rewrite E1. reflexivity. }
    destruct (lookup_fixed _ _ j marker Hs Hm) as (m2 & Hm2 & Efix).
    unfold Marker.fixed in Efix. injection Efix as _ _ Eq _ _ Eo _.
    rewrite E3. unfold doubleClickBurst. rewrite Hhov'.
    change (earthquakeMarkers (clearInterval id a2)) with (earthquakeMarkers a2).
    rewrite Hm2, Eq, Eo.
    rewrite createParticleExplosion_returns.
    + cbn. rewrite Hp, He, Hr, E1. split; reflexivity.
    + destruct (Quake.magnitud (Marker.quake marker)) as [|[|]|q]; cbn;
        try discriminate; congruence.
  - rewrite E3. unfold doubleClickBurst. rewrite Hhov'. cbn.
    rewrite He, Hp, E1. split; reflexivity.
Qed.

(** ** Hover *)

(** A marker as the reset of [setMode] leaves its scale and depth line. *)
Definition unemphasised (m : Marker.t) : Prop :=
  Marker.scale m = Vector3.mk (Fin 1) (Fin 1) (Fin 1) /\
  Marker.depthLine m = match v with GeoMap => Some (Fin 0.3) | Planet => None end.

Definition emphasise (m : Marker.t) : Marker.t :=
  match v with
  | GeoMap => Marker.set_line (Fin 0.8) (Marker.set_scale (hoverScale v) m)
  | Planet => Marker.set_scale (hoverScale v) m
  end.

Lemma alter_alter_same {A : Type} (f g : A -> A) (i : nat) (l : list A) :
  alter f i (alter g i l) = alter (fun x => f (g x)) i l.
Proof.
  revert i. induction l as [|x l IH]; intros [|i]; cbn; try reflexivity.
  f_equal. apply IH.
Qed.

Lemma onMouseMove_markers (hit : option nat) (a : App) :
  earthquakeMarkers (onMouseMove v hit a) =
    let rest m := match v with
                  | GeoMap => Marker.set_line (Fin 0.3) (Marker.set_scale (Fin 1) m)
                  | Planet => Marker.set_scale (Fin 1) m
                  end in
    let ms := match hoveredMarker a with
              | Some i => alter rest i (earthquakeMarkers a)
              | None => earthquakeMarkers a
              end in
    match hit with
    | Some j => alter emphasise j ms
    | None => ms
    end.
Proof.
  unfold onMouseMove, emphasise, updateMarker.
  destruct (hoveredMarker a), hit, v; cbn; rewrite ?alter_alter_same; reflexivity.
Qed.

(** X13. Moving the pointer onto marker [i] makes it the hovered marker and
    sets its scale to 2 (1.8 around the planet), leaving every other
    marker and the marker's position and opacity alone.  Moving on to
    another marker [j] puts [i] back as it was and emphasises [j]: one
    marker at most is emphasised.  Moving off the markers puts the hovered
    one back, so that hovering over a marker at rest and leaving it
    restores the state exactly. *)
Theorem hover_round_trip (a : App) (i j : nat) (m mj : Marker.t) :
  hoveredMarker a = None ->
  earthquakeMarkers a !! i = Some m -> unemphasised m ->
  earthquakeMarkers a !! j = Some mj -> i <> j ->
  let b := onMouseMove v (Some i) a in
  let c := onMouseMove v (Some j) b in
  hoveredMarker b = Some i /\
  earthquakeMarkers b = <[i := emphasise m]> (earthquakeMarkers a) /\
  Marker.scale (emphasise m) = Vector3.mk (hoverScale v) (hoverScale v) (hoverScale v) /\
  Marker.position (emphasise m) = Marker.position m /\
  Marker.opacity (emphasise m) = Marker.opacity m /\
  onMouseMove v None b = a /\
  hoveredMarker c = Some j /\
  earthquakeMarkers c = <[j := emphasise mj]> (earthquakeMarkers a) /\
  onMouseMove v None c = with_earthquakeMarkers
                           (<[j := match v with
                                   | GeoMap => Marker.set_line (Fin 0.3)
                                                 (Marker.set_scale (Fin 1) mj)
                                   | Planet => Marker.set_scale (Fin 1) mj
                                   end]> (earthquakeMarkers a)) a.
Proof.
  intros Hh Hm [Hscale Hline] Hmj Hij b c.
  assert (Hb : earthquakeMarkers b = <[i := emphasise m]> (earthquakeMarkers a)).
  { unfold b. rewrite onMouseMove_markers, Hh. cbv zeta.
    apply list_eq. intros k. destruct (decide (k = i)) as [->|Hk].
    - rewrite list_lookup_alter_eq, Hm, list_lookup_insert_eq; [reflexivity|].
      eapply lookup_lt_Some, Hm.
    - rewrite list_lookup_alter_ne, list_lookup_insert_ne by congruence. reflexivity. }
  assert (Hhb : hoveredMarker b = Some i) by apply (onMouseMove_host (Some i) a).
  assert (Hrest : (match v with
                   | GeoMap => Marker.set_line (Fin 0.3)
                                 (Marker.set_scale (Fin 1) (emphasise m))
                   | Planet => Marker.set_scale (Fin 1) (emphasise m)
                   end) = m).
  { unfold emphasise. destruct m as [p s o col r q oc os op dl]. cbn in *. subst.
    destruct v; reflexivity. }
  assert (Hback : alter (fun x => match v with
                   | GeoMap => Marker.set_line (Fin 0.3) (Marker.set_scale (Fin 1) x)
                   | Planet => Marker.set_scale (Fin 1) x
                   end) i (earthquakeMarkers b) = earthquakeMarkers a).
  { rewrite Hb. apply list_eq. intros k. destruct (decide (k = i)) as [->|Hk].
    - rewrite list_lookup_alter_eq, list_lookup_insert_eq by (eapply lookup_lt_Some, Hm).
      cbn. rewrite Hrest. symmetry. exact Hm.
    - rewrite list_lookup_alter_ne, list_lookup_insert_ne by congruence. reflexivity. }
  pose proof (onMouseMove_host (Some i) a) as Fb. fold b in Fb. cbv zeta in Fb.
  destruct Fb as (_ & B2 & B3 & B4 & B5 & B6 & B7 & B8 & B9 & B10 & B11 & B12 & B13 & B14).
  assert (Hother : forall hit, onMouseMove v hit b =
            match hit with
            | Some k => with_earthquakeMarkers (alter emphasise k (earthquakeMarkers a))
                          (with_hoveredMarker (Some k) a)
            | None => a
            end).
  { intros hit.
    pose proof (onMouseMove_markers hit b) as Hms. rewrite Hhb in Hms. cbv zeta in Hms.
    rewrite Hback in Hms.
    destruct (onMouseMove_host hit b)
      as (H1 & H2 & H3 & H4 & H5 & H6 & H7 & H8 & H9 & H10 & H11 & H12 & H13 & H14).
    destruct hit; apply App_ext; cbn -[onMouseMove]; congruence. }
  split; [exact Hhb|]. split; [exact Hb|].
  split; [unfold emphasise; destruct v; reflexivity|].
  split; [unfold emphasise; destruct v; reflexivity|].
  split; [unfold emphasise; destruct v; reflexivity|].
  split; [exact (Hother None)|].
  assert (Hc : c = with_earthquakeMarkers (alter emphasise j (earthquakeMarkers a))
                     (with_hoveredMarker (Some j) a)) by exact (Hother (Some j)).
  assert (Hcm : earthquakeMarkers c = <[j := emphasise mj]> (earthquakeMarkers a)).
  { rewrite Hc. cbn. apply list_eq. intros k. destruct (decide (k = j)) as [->|Hk].
    - rewrite list_lookup_alter_eq, Hmj, list_lookup_insert_eq; [reflexivity|].
      eapply lookup_lt_Some, Hmj.
    - rewrite list_lookup_alter_ne, list_lookup_insert_ne by congruence. reflexivity. }
  split; [rewrite Hc; reflexivity|]. split; [exact Hcm|].
  assert (Hhc : hoveredMarker c = Some j) by (rewrite Hc; reflexivity).
  pose proof (onMouseMove_markers None c) as Hms. rewrite Hhc, Hcm in Hms. cbv zeta in Hms.
  destruct (onMouseMove_host None c)
    as (H1 & H2 & H3 & H4 & H5 & H6 & H7 & H8 & H9 & H10 & H11 & H12 & H13 & H14).
  assert (Hlist : earthquakeMarkers (onMouseMove v None c) =
            <[j := match v with
                   | GeoMap => Marker.set_line (Fin 0.3) (Marker.set_scale (Fin 1) mj)
                   | Planet => Marker.set_scale (Fin 1) mj
                   end]> (earthquakeMarkers a)).
  { rewrite Hms. apply list_eq. intros k. destruct (decide (k = j)) as [->|Hk].
    - rewrite list_lookup_alter_eq, !list_lookup_insert_eq
        by (rewrite ?length_insert; eapply lookup_lt_Some, Hmj).
      cbn. f_equal. unfold emphasise. destruct mj as [p s o col r q oc os op [dl|]], v;
        reflexivity.
    - rewrite list_lookup_alter_ne, !list_lookup_insert_ne by congruence. reflexivity. }
  assert (Cf : timers c = timers a /\ frameRequests c = frameRequests a /\
               nextTimerId c = nextTimerId a /\ randomCalls c = randomCalls a /\
               particleSystems c = particleSystems a /\ effects c = effects a /\
               hung c = hung a /\ currentMode c = currentMode a /\
               clickCount c = clickCount a /\ earthquakes c = earthquakes a /\
               modeInterval c = modeInterval a /\ historyIndex c = historyIndex a /\
               lastTime c = lastTime a) by (rewrite Hc; repeat split; reflexivity).
  destruct Cf as (C2 & C3 & C4 & C5 & C6 & C7 & C8 & C9 & C10 & C11 & C12 & C13 & C14).
  apply App_ext; cbn -[onMouseMove]; congruence.
Qed.

(** ** Chaos mode *)

(** [progress] in the closure [pulse]: the place in the current period. *)
Definition pulseProgress (duration : number) (elapsed : Z) : number :=
  ((Num.of_Z elapsed mod duration) / duration)%num.

Lemma Qtrunc_nonneg (q : Q) : (0 <= q)%Q -> Qtrunc q = Qfloor q.
Proof.
  intros H. unfold Qtrunc. destruct (Qltb q 0) eqn:E; [|reflexivity].
  apply Qltb_true in E. lra.
Qed.

Lemma pulseProgress_value (d : Q) (e : Z) :
  (0 < d)%Q ->
  exists p, pulseProgress (Fin d) e = Fin p /\ (-1 < p < 1)%Q /\ ((0 <= e)%Z -> (0 <= p)%Q).
Proof.
  intros Hd. unfold pulseProgress, Num.of_Z. cbn [Num.rem Num.div].
  destruct (Qeq_bool d 0) eqn:E0; [apply Qeq_bool_eq in E0; lra|].
  cbn [Num.div]. rewrite E0.
  eexists. split; [reflexivity|].
  set (x := (inject_Z e / d)%Q).
  assert (Hx : (x * d == inject_Z e)%Q) by (unfold x; field; lra).
  assert (Hp : ((inject_Z e + - (d * inject_Z (Qtrunc x))) / d == x - inject_Z (Qtrunc x))%Q).
  { rewrite <- Hx. field. lra. }
  rewrite Hp.
  pose proof (Qfloor_le x) as Hfl. pose proof (Qlt_floor x) as Hfu.
  pose proof (Qle_ceiling x) as Hcl. pose proof (Qceiling_lt x) as Hcu.
  rewrite inject_Z_plus in Hfu. change (inject_Z 1) with 1%Q in Hfu.
  unfold Z.sub in Hcu. rewrite inject_Z_plus in Hcu.
  assert (Hcu' : (inject_Z (Qceiling x) + -1 < x)%Q) by exact Hcu.
  split.
  - unfold Qtrunc. destruct (Qltb x 0); lra.
  - intros He.
    assert (H0 : (0 <= x)%Q).
    { unfold x. apply Qle_shift_div_l; [exact Hd|]. rewrite Qmult_0_l.
      change 0%Q with (inject_Z 0). rewrite <- Zle_Qle. exact He. }
    rewrite (Qtrunc_nonneg x H0). lra.
Qed.

(** The amplitude of the pulse. *)
Definition pulseAmplitude : Q :=
  match v with GeoMap => 0.7 | Planet => 0.5 end.

(** X14. A pulse resumed in Chaos mode, its period positive, on a host whose
    sine stays within [-1, 1]: the marker's scale is set, the same on the
    three axes, within 1 - amplitude and 1 + amplitude (so it stays
    positive), its position and opacity are left alone, the depth line of
    the map gets an opacity within [0, 0.6], no other marker is touched,
    and the same pulse is queued for the next frame.  When the clock has
    not gone back and the sine is not negative on [0, pi], the marker
    never shrinks below its size at rest. *)
Theorem chaos_pulse_bounds (a : App) (i : nat) (m : Marker.t) (now startTime : Z) (d : Q) :
  (forall x : Q, exists s : Q, Math_sin (Fin x) = Fin s /\ (-1 <= s <= 1)%Q) ->
  (0 < d)%Q -> isMode "chaos" a = true -> earthquakeMarkers a !! i = Some m ->
  let b := pulse v now i startTime (Fin d) a in
  exists (s : Q) (m' : Marker.t),
    earthquakeMarkers b !! i = Some m' /\
    Marker.scale m' = Vector3.mk (Fin s) (Fin s) (Fin s) /\
    (1 - pulseAmplitude <= s <= 1 + pulseAmplitude)%Q /\ (0 < s)%Q /\
    Marker.position m' = Marker.position m /\ Marker.opacity m' = Marker.opacity m /\
    match v with
    | GeoMap =>
        forall o, Marker.depthLine m' = Some o -> exists q, o = Fin q /\ (0 <= q <= 0.6)%Q
    | Planet => Marker.depthLine m' = Marker.depthLine m
    end /\
    (forall k, k <> i -> earthquakeMarkers b !! k = earthquakeMarkers a !! k) /\
    frameRequests b = frameRequests a ++ [Pulse i startTime (Fin d)] /\
    ((startTime <= now)%Z ->
     (forall x w : Q, (0 <= x <= 884279719003555 # 281474976710656)%Q ->
                      Math_sin (Fin x) = Fin w -> (0 <= w)%Q) ->
     (1 <= s)%Q).
Proof.
  intros Hsin Hd Hmode Hm b.
  destruct (pulseProgress_value d (now - startTime) Hd) as (p & Hp & [Hp0 Hp1] & Hpos).
  set (x := (p * (884279719003555 # 281474976710656))%Q).
  destruct (Hsin x) as (s & Hs & Hs1).
  assert (Hwave : Math_sin (pulseProgress (Fin d) (now - startTime) * Math_PI)%num = Fin s).
  { rewrite Hp. exact Hs. }
  assert (Hb : b = requestAnimationFrame (Pulse i startTime (Fin d))
                 (match v with
                  | GeoMap =>
                      updateMarker i
                        (fun marker =>
                           Marker.set_line (Fin 0.3 + Fin s * Fin 0.3)%num
                             (Marker.set_scale (Fin 1 + Fin s * Fin 0.7)%num marker)) a
                  | Planet => updateMarker i (Marker.set_scale (Fin 1 + Fin s * Fin 0.5)%num) a
                  end)).
  { unfold b, pulse. rewrite Hmode. cbn [negb].
    change ((Num.of_Z (now - startTime) mod Fin d) / Fin d)%num
      with (pulseProgress (Fin d) (now - startTime)).
    rewrite Hwave. reflexivity. }
  exists (1 + s * pulseAmplitude)%Q.
  exists (match v with
          | GeoMap => Marker.set_line (Fin 0.3 + Fin s * Fin 0.3)%num
                        (Marker.set_scale (Fin 1 + Fin s * Fin 0.7)%num m)
          | Planet => Marker.set_scale (Fin 1 + Fin s * Fin 0.5)%num m
          end).
  rewrite Hb. unfold pulseAmplitude.
  split; [destruct v; cbn; rewrite list_lookup_alter_eq, Hm; reflexivity|].
  split; [destruct v; reflexivity|].
  split; [destruct v; lra|]. split; [destruct v; lra|].
  split; [destruct v; reflexivity|]. split; [destruct v; reflexivity|].
  split.
  { destruct v; [|reflexivity]. intros o Ho. cbn in Ho.
    destruct (Marker.depthLine m); [|discriminate]. injection Ho as <-.
    eexists. split; [reflexivity|]. lra. }
  split.
  { intros k Hk. destruct v; cbn; rewrite list_lookup_alter_ne by congruence; reflexivity. }
  split; [destruct v; reflexivity|].
  intros Hclock Hnonneg.
  assert (Hp' : (0 <= p)%Q) by (apply Hpos; lia).
  assert (Hw : (0 <= s)%Q).
  { apply (Hnonneg x s); [|exact Hs]. unfold x. split; nra. }
  destruct v; nra.
Qed.

(** ** Rain mode *)

(** The handle given out [j] timers after [id]. *)
Definition handleAfter (id : positive) (j : nat) : positive :=
  Pos.of_nat (Pos.to_nat id + j).

(** The timer [startRainMode] sets for the marker at [index]. *)
Definition rainTimer (first : positive) (index : nat) (marker : Marker.t) : Timer :=
  mkTimer (handleAfter first index) false (rainDelay v index)
    (FallStart index
       (match v with GeoMap => Some (rainStartY v index) | Planet => None end)
       (rainFallDuration v (Quake.magnitud (Marker.quake marker)))).

Lemma handleAfter_0 (id : positive) : handleAfter id 0 = id.
Proof. unfold handleAfter. rewrite Nat.add_0_r. apply Pos2Nat.id. Qed.

Lemma handleAfter_S (id : positive) (j : nat) :
  handleAfter id (S j) = Pos.succ (handleAfter id j).
Proof.
  unfold handleAfter. rewrite <- Nat.add_succ_comm. cbn [Nat.add].
  rewrite Nat2Pos.inj_succ; [reflexivity|]. pose proof (Pos2Nat.is_pos id). lia.
Qed.

Lemma imap_snoc {A B : Type} (f : nat -> A -> B) (l : list A) (x : A) :
  imap f (l ++ [x]) = imap f l ++ [f (length l) x].
Proof. rewrite imap_app. cbn. rewrite Nat.add_0_r. reflexivity. Qed.

Lemma alter_app_at {A : Type} (f : A -> A) (l1 l2 : list A) (n : nat) :
  length l1 = n -> alter f n (l1 ++ l2) = l1 ++ alter f 0 l2.
Proof.
  revert n. induction l1 as [|x l1 IH]; intros n <-; [reflexivity|].
  cbn. f_equal. apply IH. reflexivity.
Qed.

Lemma startRainMode_prefix (n : nat) (a : App) :
  (n <= length (earthquakeMarkers a))%nat ->
  let ms := earthquakeMarkers a in
  let b := fold_left (rainMarker v) (seq 0 n) a in
  earthquakeMarkers b =
    imap (fun j => set_position_y (rainStartY v j)) (take n ms) ++ drop n ms /\
  timers b = timers a ++ imap (rainTimer (nextTimerId a)) (take n ms) /\
  nextTimerId b = handleAfter (nextTimerId a) n /\
  with_nextTimerId (nextTimerId a)
    (with_timers (timers a) (with_earthquakeMarkers ms b)) = a.
Proof.
  intros Hn ms b. unfold b. clear b. induction n as [|n IH].
  - cbn. rewrite app_nil_r, handleAfter_0. repeat split. destruct a; reflexivity.
  - rewrite seq_S, fold_left_app. cbn [fold_left Nat.add].
    destruct IH as (IHm & IHt & IHn & IHa); [lia|].
    set (b := fold_left (rainMarker v) (seq 0 n) a) in *.
    destruct (lookup_lt_is_Some_2 ms n ltac:(fold ms in Hn; lia)) as [m Hm].
    assert (Hlen : length (imap (fun j => set_position_y (rainStartY v j)) (take n ms)) = n).
    { rewrite length_imap, length_take. fold ms in Hn. lia. }
    assert (Hb : earthquakeMarkers b !! n = Some m).
    { rewrite IHm, lookup_app_r by lia. rewrite Hlen, Nat.sub_diag, lookup_drop, Nat.add_0_r.
      exact Hm. }
    unfold rainMarker. rewrite Hb. cbn.
    rewrite IHm, IHt, IHn.
    rewrite (take_S_r ms n m Hm), !imap_snoc, length_take, Nat.min_l by (fold ms in Hn; lia).
    repeat split.
    + rewrite (alter_app_at _ _ _ n Hlen), (drop_S ms m n Hm). cbn.
      rewrite <- app_assoc. reflexivity.
    + rewrite <- app_assoc. reflexivity.
    + symmetry. apply handleAfter_S.
    + pose proof (f_equal earthquakes IHa) as F1.
      pose proof (f_equal particleSystems IHa) as F2.
      pose proof (f_equal hoveredMarker IHa) as F3.
      pose proof (f_equal currentMode IHa) as F4.
      pose proof (f_equal clickCount IHa) as F5.
      pose proof (f_equal modeInterval IHa) as F6.
      pose proof (f_equal historyIndex IHa) as F7.
      pose proof (f_equal lastTime IHa) as F8.
      pose proof (f_equal frameRequests IHa) as F9.
      pose proof (f_equal randomCalls IHa) as F10.
      pose proof (f_equal effects IHa) as F11.
      pose proof (f_equal hung IHa) as F12.
      cbn in F1, F2, F3, F4, F5, F6, F7, F8, F9, F10, F11, F12.
      apply App_ext; cbn; try reflexivity; assumption.
Qed.

(** X15. Entering Rain mode resets every marker and lifts marker [j] to
    altitude [80 + 0.5 j] (around the planet [20 + 0.3 j]), its [x] and [z]
    at rest; it sets one one-shot timer per marker, in load order and
    after the timers already pending, due after [30 j] ms ([50 j]), to
    start a fall whose duration is that of the marker's magnitude; it asks
    for no frame and makes no burst.  Only the History interval is taken
    out of the pending timers. *)
Theorem rain_schedule (now : Z) (a : App) :
  let b := setMode v (lit "rain") now a in
  let kept := match modeInterval a with
              | Some id => List.filter (fun t => negb (timerId t =? id)%positive) (timers a)
              | None => timers a
              end in
  earthquakeMarkers b =
    imap (fun j m => set_position_y (rainStartY v j) (resetMarker v m)) (earthquakeMarkers a) /\
  timers b = kept ++ imap (rainTimer (nextTimerId a)) (earthquakeMarkers a) /\
  nextTimerId b = handleAfter (nextTimerId a) (length (earthquakeMarkers a)) /\
  frameRequests b = frameRequests a /\ particleSystems b = particleSystems a /\
  effects b = effects a /\ randomCalls b = randomCalls a /\
  currentMode b = lit "rain" /\ modeInterval b = None.
Proof.
  intros b kept.
  set (a0 := enterMode v (lit "rain") a).
  assert (Eb : b = fold_left (rainMarker v) (seq 0 (length (earthquakeMarkers a0))) a0)
    by reflexivity.
  destruct (startRainMode_prefix (length (earthquakeMarkers a0)) a0 (Nat.le_refl _))
    as (Hm & Ht & Hn & Ha).
  rewrite <- Eb in Hm, Ht, Hn, Ha.
  rewrite firstn_all, skipn_all, app_nil_r in Hm. rewrite firstn_all in Ht.
  assert (Em : earthquakeMarkers a0 = map (resetMarker v) (earthquakeMarkers a)).
  { unfold a0, enterMode, clearModeInterval. destruct (modeInterval a); reflexivity. }
  assert (Et : timers a0 = kept /\ nextTimerId a0 = nextTimerId a /\
               frameRequests a0 = frameRequests a /\ particleSystems a0 = particleSystems a /\
               effects a0 = effects a /\ randomCalls a0 = randomCalls a /\
               currentMode a0 = lit "rain" /\ modeInterval a0 = None).
  { unfold a0, kept, enterMode, clearModeInterval.
    destruct (modeInterval a) eqn:E; cbn; repeat split; try reflexivity; exact E. }
  destruct Et as (E1 & E2 & E3 & E4 & E5 & E6 & E7 & E8).
  assert (Hrest : frameRequests b = frameRequests a0 /\ particleSystems b = particleSystems a0 /\
                  effects b = effects a0 /\ randomCalls b = randomCalls a0 /\
                  currentMode b = currentMode a0 /\ modeInterval b = modeInterval a0).
  { pose proof (f_equal frameRequests Ha) as F1.
    pose proof (f_equal particleSystems Ha) as F2.
    pose proof (f_equal effects Ha) as F3.
    pose proof (f_equal randomCalls Ha) as F4.
    pose proof (f_equal currentMode Ha) as F5.
    pose proof (f_equal modeInterval Ha) as F6.
    cbn in F1, F2, F3, F4, F5, F6. repeat split; assumption. }
  destruct Hrest as (R1 & R2 & R3 & R4 & R5 & R6).
  rewrite Hm, Ht, Hn, Em, E1, E2, length_map.
  split; [|split; [|repeat split; congruence]].
  - rewrite imap_fmap. reflexivity.
  - f_equal. rewrite imap_fmap. apply imap_ext. intros j m _. cbn.
    unfold rainTimer. do 3 f_equal. unfold resetMarker. destruct v; reflexivity.
Qed.

(** What Rain mode needs of a record for its marker to fall: a finite
    magnitude that is not negative and, on the map, a finite depth that is
    not negative; around the planet, a finite latitude and a host whose
    cosine stays within [-1, 1]. *)
Definition fallsInRain (quake : Quake.t) : Prop :=
  (exists m, Quake.magnitud quake = Fin m /\ (0 <= m)%Q) /\
  match v with
  | GeoMap => exists depth, Quake.profundidad quake = Fin depth /\ (0 <= depth)%Q
  | Planet =>
      (exists lat, Quake.latitud quake = Fin lat) /\
      (forall x : Q, exists c : Q, Math_cos (Fin x) = Fin c /\ (-1 <= c <= 1)%Q)
  end.

(** X16. For such a record, the marker at [index] is lifted strictly above its
    resting altitude (to 80 or more on the map, where it rests at 0 or
    below; to 20 or more around the planet, where it rests within 5.15 of
    the centre), its fall has a positive duration that grows linearly with
    the magnitude from 1500 ms (2000 ms), doubling at magnitude 3.4, and
    its start is delayed by 30 ms (50 ms) per index. *)
Theorem rain_parameters (quake : Quake.t) (index : nat) :
  fallsInRain quake ->
  exists sy ty d delay m : Q,
    rainStartY v index = Fin sy /\
    Vector3.y (Marker.originalPosition (createMarker v quake)) = Fin ty /\
    Quake.magnitud quake = Fin m /\
    rainFallDuration v (Quake.magnitud quake) = Fin d /\
    rainDelay v index = Fin delay /\
    (ty < sy)%Q /\ (0 < d)%Q /\
    match v with
    | GeoMap =>
        sy == 80 + inject_Z (Z.of_nat index) * 0.5 /\ (ty <= 0)%Q /\
        d == 1500 + m / 3.4 * 1500 /\ delay == inject_Z (Z.of_nat index) * 30
    | Planet =>
        sy == 20 + inject_Z (Z.of_nat index) * 0.3 /\ (-5.15 <= ty <= 5.15)%Q /\
        d == 2000 + m / 3.4 * 2000 /\ delay == inject_Z (Z.of_nat index) * 50
    end.
Proof.
  intros [(m & Hm & Hm0) Hv].
  assert (Hi : (0 <= inject_Z (Z.of_nat index))%Q).
  { change 0%Q with (inject_Z 0). rewrite <- Zle_Qle. lia. }
  unfold rainStartY, rainFallDuration, rainDelay, createMarker, markerPosition.
  rewrite Hm. cbn [Marker.originalPosition].
  destruct v.
  - destruct Hv as (depth & Hd & Hd0). rewrite Hd.
    destruct (depthToY_Fin depth) as (y & Hy & Ey).
    destruct (latLngToXZ (Quake.latitud quake) (Quake.longitud quake)) as [x z].
    cbn [Vector3.y]. rewrite Hy. cbn.
    do 5 eexists. repeat split; try reflexivity.
    + rewrite Ey. unfold Qdiv. change (/ 3)%Q with (1 # 3)%Q. lra.
    + unfold Qdiv. change (/ 3.4)%Q with (10 # 34)%Q. lra.
    + rewrite Ey. unfold Qdiv. change (/ 3)%Q with (1 # 3)%Q. lra.
  - destruct Hv as ((lat & Hlat) & Hcos). rewrite Hlat. cbn [Vector3.y].
    cbn [Num.sub Num.neg Num.add Num.div Num.mul Math_PI].
    change (Qeq_bool 180 0) with false. cbv iota.
    match goal with |- context [Math_cos (Fin ?x)] => destruct (Hcos x) as (c & -> & Hc) end.
    cbn.
    do 5 eexists. repeat split; try reflexivity.
    + lra.
    + unfold Qdiv. change (/ 3.4)%Q with (10 # 34)%Q. lra.
    + lra.
    + lra.
Qed.

(** A delayed burst of Chaos mode for a marker of index below [n]. *)
Definition chaosBurstTimer (n : nat) (t : Timer) : Prop :=
  repeats t = false /\
  exists (j : nat) (ms : Q),
    (j < n)%nat /\ callback t = ChaosBurst j /\ delay t = Fin ms /\ (0 <= ms < 3000)%Q.

Lemma chaosMarker_step (now : Z) (a : App) (index : nat) :
  random_in_range host -> isMode "chaos" a = true ->
  let b := chaosMarker v now a index in
  exists d : Q,
    (500 <= d < 1000)%Q /\
    frameRequests b = frameRequests a ++ [Pulse index now (Fin d)] /\
    (exists new, timers b = timers a ++ new /\ (length new <= 1)%nat /\
                 Forall (chaosBurstTimer (S index)) new) /\
    (randomCalls a + 2 <= randomCalls b <= randomCalls a + 3)%nat /\
    currentMode b = currentMode a /\ particleSystems b = particleSystems a /\
    effects b = effects a /\ modeInterval b = modeInterval a.
Proof.
  intros Hr Hmode. unfold chaosMarker. cbn [random].
  pose proof (Hr (randomCalls a)) as H0.
  exists (500 + Math_random (randomCalls a) * 500)%Q. split; [lra|].
  set (a1 := with_randomCalls (S (randomCalls a)) a).
  set (d := (Fin 500 + Fin (Math_random (randomCalls a)) * Fin 500)%num).
  assert (Hp : pulse v now index now d a1 =
               requestAnimationFrame (Pulse index now d)
                 (with_earthquakeMarkers (earthquakeMarkers (pulse v now index now d a1)) a1)).
  { unfold pulse. change (isMode "chaos" a1) with (isMode "chaos" a). rewrite Hmode.
    cbn [negb]. destruct v; reflexivity. }
  set (ms := earthquakeMarkers (pulse v now index now d a1)) in *.
  rewrite Hp. cbn [randomCalls requestAnimationFrame with_frameRequests
                   with_earthquakeMarkers with_randomCalls a1].
  match goal with |- context [if ?c then _ else _] => destruct c eqn:E end.
  - cbn. split; [reflexivity|]. split.
    + eexists. split; [reflexivity|]. split; [cbn; lia|].
      repeat constructor. exists index. eexists. split; [lia|]. split; [reflexivity|].
      split; [reflexivity|].
      match goal with
      | |- context [Math_random ?k] => pose proof (Hr k) as G; revert G; generalize (Math_random k)
      end.
      intros r G. lra.
    + repeat split; lia.
  - cbn. split; [reflexivity|]. split.
    + exists []. rewrite app_nil_r. split; [reflexivity|]. split; [cbn; lia|constructor].
    + repeat split; lia.
Qed.

Lemma startChaosMode_from (now : Z) (k s : nat) (a : App) :
  random_in_range host -> isMode "chaos" a = true ->
  let b := fold_left (chaosMarker v now) (seq s k) a in
  exists pulses bursts,
    frameRequests b = frameRequests a ++ pulses /\
    Forall2 (fun j cb => exists d : Q, cb = Pulse j now (Fin d) /\ (500 <= d < 1000)%Q)
            (seq s k) pulses /\
    timers b = timers a ++ bursts /\ (length bursts <= k)%nat /\
    Forall (chaosBurstTimer (s + k)) bursts /\
    (randomCalls a + 2 * k <= randomCalls b <= randomCalls a + 3 * k)%nat /\
    currentMode b = currentMode a /\ particleSystems b = particleSystems a /\
    effects b = effects a /\ modeInterval b = modeInterval a.
Proof.
  intros Hr. revert s a. induction k as [|k IH]; intros s a Hmode.
  - cbn. exists [], []. rewrite !app_nil_r. repeat split; try constructor; lia.
  - cbn [seq fold_left].
    destruct (chaosMarker_step now a s Hr Hmode)
      as (d & Hd & Hf & (new & Ht & Hlen & Hnew) & Hrc & Hm & Hp & He & Hi).
    set (a1 := chaosMarker v now a s) in *.
    assert (Hmode1 : isMode "chaos" a1 = true).
    { unfold isMode in *. rewrite Hm. exact Hmode. }
    destruct (IH (S s) a1 Hmode1)
      as (pulses & bursts & Hf' & Hpulses & Ht' & Hlen' & Hbursts & Hrc' & Hm' & Hp' & He' & Hi').
    exists (Pulse s now (Fin d) :: pulses), (new ++ bursts).
    rewrite Hf', Hf, Ht', Ht, <- !app_assoc. cbn [app].
    split; [reflexivity|]. split.
    { constructor; [|exact Hpulses]. exists d. split; [reflexivity|exact Hd]. }
    split; [reflexivity|]. split; [rewrite length_app; lia|]. split.
    { apply Forall_app. split.
      - eapply List.Forall_impl; [|exact Hnew].
        intros t (Hrep & j & ms & Hj & Hcb & Hms & Hb). split; [exact Hrep|].
        exists j, ms. split; [lia|]. split; [exact Hcb|]. split; [exact Hms|exact Hb].
      - eapply List.Forall_impl; [|exact Hbursts].
        intros t (Hrep & j & ms & Hj & Hcb & Hms & Hb). split; [exact Hrep|].
        exists j, ms. split; [lia|]. split; [exact Hcb|]. split; [exact Hms|exact Hb]. }
    repeat split; try congruence; lia.
Qed.

(** X17. Entering Chaos mode, [Math.random] staying in [0, 1): every marker
    gets one pulse, queued for the next frame in load order, its period
    drawn between 500 and 1000 ms and its start time the time of the
    switch; at most one delayed burst per marker is set, each a one-shot
    timer due within 3000 ms; between two and three random numbers are
    drawn per marker; no burst is made yet.  Only the History interval is
    taken out of the pending timers. *)
Theorem chaos_schedule (now : Z) (a : App) :
  random_in_range host ->
  let b := setMode v (lit "chaos") now a in
  let n := length (earthquakeMarkers a) in
  let kept := match modeInterval a with
              | Some id => List.filter (fun t => negb (timerId t =? id)%positive) (timers a)
              | None => timers a
              end in
  exists pulses bursts,
    frameRequests b = frameRequests a ++ pulses /\
    Forall2 (fun j cb => exists d : Q, cb = Pulse j now (Fin d) /\ (500 <= d < 1000)%Q)
            (seq 0 n) pulses /\
    timers b = kept ++ bursts /\ (length bursts <= n)%nat /\
    Forall (chaosBurstTimer n) bursts /\
    (randomCalls a + 2 * n <= randomCalls b <= randomCalls a + 3 * n)%nat /\
    currentMode b = lit "chaos" /\ particleSystems b = particleSystems a /\
    effects b = effects a /\ modeInterval b = None.
Proof.
  intros Hr b n kept.
  set (a0 := enterMode v (lit "chaos") a).
  assert (E0 : timers a0 = kept /\ frameRequests a0 = frameRequests a /\
               particleSystems a0 = particleSystems a /\ effects a0 = effects a /\
               randomCalls a0 = randomCalls a /\ currentMode a0 = lit "chaos" /\
               modeInterval a0 = None /\ length (earthquakeMarkers a0) = n).
  { unfold a0, kept, n, enterMode, clearModeInterval.
    destruct (modeInterval a) eqn:E; cbn; rewrite ?length_map;
      repeat split; try reflexivity; exact E. }
  destruct E0 as (E1 & E2 & E3 & E4 & E5 & E6 & E7 & E8).
  assert (Hmode : isMode "chaos" a0 = true) by (unfold isMode; rewrite E6; reflexivity).
  destruct (startChaosMode_from now n 0 a0 Hr Hmode)
    as (pulses & bursts & Hf & Hpulses & Ht & Hlen & Hbursts & Hrc & Hm & Hp & He & Hi).
  assert (Eb : b = fold_left (chaosMarker v now) (seq 0 n) a0).
  { unfold b, setMode, startMode. change (strEqb (lit "chaos") (lit "history")) with false.
    change (strEqb (lit "chaos") (lit "chaos")) with true. cbv iota.
    unfold startChaosMode. fold a0. rewrite E8. reflexivity. }
  rewrite <- Eb in Hf, Ht, Hrc, Hm, Hp, He, Hi.
  exists pulses, bursts. rewrite Hf, Ht, Hm, Hp, He, Hi, E1, E2, E3, E4, E6, E7.
  rewrite E5 in Hrc. repeat split; try assumption; lia.
Qed.

End Interaction.

(* ================================================================== *)
(** * More on the loader *)

Lemma join_snoc (sep : N) (fields : list JSString) (last : JSString) (tail : JSString) :
  join sep (fields ++ [last]) ++ tail = join sep (fields ++ [last ++ tail]).
Proof.
  induction fields as [|f fields IH]; [reflexivity|].
  destruct fields as [|g fields].
  - cbn. rewrite <- app_assoc. reflexivity.
  - change (join sep ((f :: g :: fields) ++ [last]))
      with (f ++ sep :: join sep ((g :: fields) ++ [last])).
    change (join sep ((f :: g :: fields) ++ [last ++ tail]))
      with (f ++ sep :: join sep ((g :: fields) ++ [last ++ tail])).
    rewrite <- IH, <- app_assoc. reflexivity.
Qed.

Lemma trimStart_snoc (s : JSString) (c : N) :
  isWhiteSpace c = true ->
  trimStart (s ++ [c]) = match trimStart s with [] => [] | t => t ++ [c] end.
Proof.
  intros Hc. induction s as [|x s IH]; cbn.
  - rewrite Hc. reflexivity.
  - destruct (isWhiteSpace x); [exact IH|reflexivity].
Qed.

Lemma trim_snoc (s : JSString) (c : N) :
  isWhiteSpace c = true -> trim (s ++ [c]) = trim s.
Proof.
  intros Hc. unfold trim, trimEnd. rewrite (trimStart_snoc s c Hc).
  destruct (trimStart s) as [|x t]; [reflexivity|].
  rewrite rev_app_distr. cbn [rev app trimStart]. rewrite Hc. reflexivity.
Qed.

(** X18. The loader reads the first nine columns of a line and nothing else:
    further columns change nothing.  A carriage return at the end of a
    line (a table with Windows line ends) is white space to the blank-line
    filter, so the same lines are kept; it ends up in the last column, so a
    line of ten columns or more gives the same record with or without it,
    and a line of exactly nine gives the same record but for [municipio],
    which keeps the carriage return. *)
Theorem loader_columns_and_line_ends :
  (forall fields extra : list JSString,
     (9 <= length fields)%nat -> Forall (freeOf 59) (fields ++ extra) ->
     parseLine (join 59 (fields ++ extra)) = parseLine (join 59 fields)) /\
  (forall line : JSString, truthy (trim (line ++ [13%N])) = truthy (trim line)) /\
  (forall (fields : list JSString) (last : JSString),
     (9 <= length fields)%nat -> Forall (freeOf 59) (fields ++ [last]) ->
     parseLine (join 59 (fields ++ [last]) ++ [13%N]) = parseLine (join 59 (fields ++ [last]))) /\
  (forall (fields : list JSString) (last : JSString),
     length fields = 8%nat -> Forall (freeOf 59) (fields ++ [last]) ->
     let quake := parseLine (join 59 (fields ++ [last])) in
     parseLine (join 59 (fields ++ [last]) ++ [13%N]) =
       Quake.mk (Quake.id quake) (Quake.fecha quake) (Quake.hora quake)
         (Quake.latitud quake) (Quake.longitud quake) (Quake.profundidad quake)
         (Quake.magnitud quake) (Quake.departamento quake) (Some (last ++ [13%N]))).
Proof.
  assert (Hlook : forall (fields extra : list JSString) (i : nat),
            (i < length fields)%nat -> (fields ++ extra) !! i = fields !! i).
  { intros. apply lookup_app_l. assumption. }
  assert (Hne : forall (fields extra : list JSString),
            (8 <= length fields)%nat -> fields ++ extra <> []).
  { intros [|f fields] extra H; [cbn in H; lia|discriminate]. }
  assert (Hcr : freeOf 59 [13%N]) by (repeat constructor; discriminate).
  split; [|split; [|split]].
  - intros fields extra Hlen Hfree.
    rewrite !parseLine_fields; try assumption.
    + rewrite !Hlook by lia. reflexivity.
    + intros ->. cbn in Hlen. lia.
    + apply Forall_app in Hfree. apply Hfree.
    + apply Hne. lia.
  - intros line. rewrite trim_snoc by reflexivity. reflexivity.
  - intros fields last Hlen Hfree. rewrite join_snoc.
    assert (Hfree' : Forall (freeOf 59) (fields ++ [last ++ [13%N]])).
    { apply Forall_app in Hfree as [H1 H2]. apply Forall_app. split; [exact H1|].
      inversion H2; subst. repeat constructor. apply Forall_app. split; assumption. }
    rewrite !parseLine_fields; try assumption; try (apply Hne; lia).
    rewrite !Hlook by lia. reflexivity.
  - intros fields last Hlen Hfree quake. rewrite join_snoc.
    assert (Hfree' : Forall (freeOf 59) (fields ++ [last ++ [13%N]])).
    { apply Forall_app in Hfree as [H1 H2]. apply Forall_app. split; [exact H1|].
      inversion H2; subst. repeat constructor. apply Forall_app. split; assumption. }
    unfold quake. rewrite !parseLine_fields; try assumption; try (apply Hne; lia).
    cbn [Quake.id Quake.fecha Quake.hora Quake.latitud Quake.longitud Quake.profundidad
         Quake.magnitud Quake.departamento].
    f_equal; try (rewrite !lookup_app_l by lia; reflexivity).
    rewrite lookup_app_r by lia. rewrite Hlen. reflexivity.
Qed.

(* ================================================================== *)
(** * Bursts over several frames *)

Lemma movePositions_Fin (d : Q) (ps vs : list Q) :
  length vs = length ps ->
  movePositions (Fin d) (map Fin ps) (map Fin vs) =
    map Fin (zip_with (fun p w => p + w * d * 60)%Q ps vs).
Proof.
  revert vs. induction ps as [|p ps IH]; intros [|w vs] H; cbn in *; try discriminate;
    [reflexivity|].
  f_equal. apply IH. lia.
Qed.

Lemma zip_with_length_l {A B C : Type} (f : A -> B -> C) (l : list A) (k : list B) :
  length k = length l -> length (zip_with f l k) = length l.
Proof.
  revert k. induction l as [|x l IH]; intros [|y k] H; cbn in *; try discriminate;
    [reflexivity|].
  f_equal. apply IH. lia.
Qed.


Section Reach.
Context {host : Platform} (v : Variant).

(** ** How far a burst spreads *)

(** The sine and the cosine of the host are finite and within [-1, 1]. *)
Definition trig_in_range : Prop :=
  forall x : Q, exists s c : Q,
    Math_sin (Fin x) = Fin s /\ Math_cos (Fin x) = Fin c /\
    (-1 <= s <= 1)%Q /\ (-1 <= c <= 1)%Q.

(** The upper bound of the speed drawn for a particle. *)
Definition topSpeed : Q :=
  match v with GeoMap => 0.55 | Planet => 0.4 end.

Lemma particleVelocity_bounds (k : nat) :
  random_in_range host -> trig_in_range ->
  exists vs : list Q,
    particleVelocity v k = map Fin vs /\ length vs = 3%nat /\
    Forall (fun w => (- topSpeed < w < topSpeed)%Q) vs.
Proof.
  intros Hr Ht. unfold particleVelocity.
  destruct (particleSpeed_bounds v (Math_random k) (Hr k)) as (sp & -> & Hsp).
  cbn [Num.mul Math_PI].
  match goal with |- context [Math_cos (Fin ?x)] => destruct (Ht x) as (s1 & c1 & -> & -> & Hs1 & Hc1) end.
  match goal with |- context [Math_cos (Fin ?x)] => destruct (Ht x) as (s2 & c2 & -> & -> & Hs2 & Hc2) end.
  cbn [Num.mul].
  eexists [_; _; _]. split; [reflexivity|]. split; [reflexivity|].
  assert (Hp : forall a b : Q, (-1 <= a <= 1 -> -1 <= b <= 1 -> -1 <= a * b <= 1)%Q)
    by (intros; nra).
  pose proof (Hp s1 c2 Hs1 Hc2) as H1. pose proof (Hp s1 s2 Hs1 Hs2) as H2.
  assert (Hq : forall a : Q, (-1 <= a <= 1 -> - topSpeed < a * sp < topSpeed)%Q).
  { intros a Ha. unfold topSpeed. destruct v; nra. }
  repeat constructor; apply Hq; first [assumption | apply Hp; assumption].
Qed.

Lemma concat_map_Fin (chunks : list (list number)) :
  Forall (fun chunk => exists qs : list Q,
            chunk = map Fin qs /\ length qs = 3%nat /\
            Forall (fun w => (- topSpeed < w < topSpeed)%Q) qs) chunks ->
  exists vs : list Q,
    concat chunks = map Fin vs /\ length vs = (3 * length chunks)%nat /\
    Forall (fun w => (- topSpeed < w < topSpeed)%Q) vs.
Proof.
  induction 1 as [|chunk chunks (qs & -> & Hlen & Hqs) _ (vs & IH & IHlen & IHvs)].
  - exists []. repeat split; constructor.
  - exists (qs ++ vs). cbn [concat length]. rewrite IH, map_app, length_app.
    repeat split; [lia|]. apply Forall_app. split; assumption.
Qed.


(** ** What a mode switch leaves alone *)

(** X22. A mode switch, whatever the mode, leaves the bursts in flight, what
    has been shown, the click counter, the hovered marker and the time of
    the last frame as they were, and makes no burst of its own.  The
    marker under the pointer stays the hovered one but, as every marker,
    loses its emphasis in the reset. *)
Theorem setMode_leaves (mode : JSString) (now : Z) (a : App) :
  let b := setMode v mode now a in
  particleSystems b = particleSystems a /\ effects b = effects a /\
  hung b = hung a /\ clickCount b = clickCount a /\
  hoveredMarker b = hoveredMarker a /\ lastTime b = lastTime a /\
  earthquakes b = earthquakes a /\
  Forall (fun m => Marker.scale m = Vector3.mk (Fin 1) (Fin 1) (Fin 1) /\
                   Marker.position m = Marker.originalPosition m /\
                   Marker.opacity m = Fin 0.9)
         (earthquakeMarkers (enterMode v mode a)) /\
  (strEqb mode (lit "history") = false -> strEqb mode (lit "chaos") = false ->
   strEqb mode (lit "rain") = false -> b = enterMode v mode a).
Proof.
  intros b.
  assert (Hfold : forall (A : Type) (f : App -> A -> App) (l : list A) (c : App),
            (forall c x, (books (f c x), hoveredMarker (f c x), lastTime (f c x), earthquakes (f c x))
                         = (books c, hoveredMarker c, lastTime c, earthquakes c)) ->
            (books (fold_left f l c), hoveredMarker (fold_left f l c),
             lastTime (fold_left f l c), earthquakes (fold_left f l c))
              = (books c, hoveredMarker c, lastTime c, earthquakes c)).
  { intros A f l. induction l as [|x l IH]; intros c Hf; [reflexivity|].
    cbn. rewrite IH by exact Hf. apply Hf. }
  assert (He : (books (enterMode v mode a), hoveredMarker (enterMode v mode a),
                lastTime (enterMode v mode a), earthquakes (enterMode v mode a))
               = (books a, hoveredMarker a, lastTime a, earthquakes a)).
  { unfold enterMode, clearModeInterval. destruct (modeInterval a); reflexivity. }
  assert (Hb : (books b, hoveredMarker b, lastTime b, earthquakes b)
               = (books a, hoveredMarker a, lastTime a, earthquakes a)).
  { unfold b, setMode, startMode.
    destruct (strEqb mode (lit "history")); [rewrite <- He; reflexivity|].
    destruct (strEqb mode (lit "chaos")).
    { rewrite <- He. apply Hfold. intros c x. unfold chaosMarker. cbn [random].
      assert (Hp : forall n s d c',
                (books (pulse v n x s d c'), hoveredMarker (pulse v n x s d c'),
                 lastTime (pulse v n x s d c'), earthquakes (pulse v n x s d c'))
                = (books c', hoveredMarker c', lastTime c', earthquakes c')).
      { intros. unfold pulse. destruct (negb _); [reflexivity|]. destruct v; reflexivity. }
      match goal with |- context [if ?t then _ else _] => destruct t end.
      - match goal with
        | |- context [setTimeout ?cb ?ms (with_randomCalls ?n ?c')] =>
            change (books (setTimeout cb ms (with_randomCalls n c'))) with (books c');
            change (hoveredMarker (setTimeout cb ms (with_randomCalls n c')))
              with (hoveredMarker c');
            change (lastTime (setTimeout cb ms (with_randomCalls n c'))) with (lastTime c');
            change (earthquakes (setTimeout cb ms (with_randomCalls n c')))
              with (earthquakes c')
        end.
        match goal with
        | |- context [books (with_randomCalls ?n ?c')] =>
            change (books (with_randomCalls n c')) with (books c');
            change (hoveredMarker (with_randomCalls n c')) with (hoveredMarker c');
            change (lastTime (with_randomCalls n c')) with (lastTime c');
            change (earthquakes (with_randomCalls n c')) with (earthquakes c')
        end.
        rewrite Hp. reflexivity.
      - match goal with
        | |- context [books (with_randomCalls ?n ?c')] =>
            change (books (with_randomCalls n c')) with (books c');
            change (hoveredMarker (with_randomCalls n c')) with (hoveredMarker c');
            change (lastTime (with_randomCalls n c')) with (lastTime c');
            change (earthquakes (with_randomCalls n c')) with (earthquakes c')
        end.
        rewrite Hp. reflexivity. }
    destruct (strEqb mode (lit "rain")); [|exact He].
    rewrite <- He. apply Hfold. intros c x. unfold rainMarker.
    destruct (earthquakeMarkers c !! x); reflexivity. }
  unfold books in Hb. injection Hb as H1 H2 H3 H4 H5 H6 H7.
  repeat split; try assumption.
  - unfold enterMode. cbn. apply List.Forall_forall. intros m Hin.
    apply in_map_iff in Hin as (m0 & <- & _). unfold resetMarker.
    destruct v; repeat split.
  - intros Eh Ec Er. unfold b, setMode, startMode. rewrite Eh, Ec, Er. reflexivity.
Qed.

End Reach.

(* ================================================================== *)
(** * The further theorems at work *)

(** Chaos entered, a frame run, a click and a pointer move: no callback
    has thrown. *)
Lemma no_uncaught_without_double_click_witness :
  let events := [SetMode (lit "chaos") 0; Frame 16; MouseMove (Some 0%nat); Click] in
  Forall (fun e => e <> DoubleClick) events /\
  ~ In Uncaught (effects (Session.play 0 events (Session.start 0 2))).
Proof.
  intros events.
  assert (H : Forall (fun e => e <> DoubleClick) events)
    by (repeat constructor; discriminate).
  split; [exact H|].
  exact (no_uncaught_without_double_click (host := exampleHost (fun _ => 0%Q)) GeoMap
           (Resolved (join 10 (Session.header :: repeat Session.row 2))) 0 events H).
Defined.

(** Marker 0 is double-clicked, the pointer moves on to marker 1, the
    timer fires: one burst, of 2 x 3.4 x 100 = 680 particles; had the
    pointer left the markers, a TypeError and no burst. *)
Lemma double_click_burst_witness :
  let host := exampleHost (fun _ => 0%Q) in
  let a := @step host GeoMap (MouseMove (Some 0%nat)) (Session.start 0 2) in
  hung a = false /\ timersFresh a /\ hoveredMarker a = Some 0%nat /\
  (let a3 := @run host GeoMap [DoubleClick; MouseMove (Some 1%nat); TimerFires 1 1000] a in
   map (fun p => length (Particles.positions p)) (particleSystems a3) = [(3 * 680)%nat]) /\
  (let a3 := @run host GeoMap [DoubleClick; MouseMove None; TimerFires 1 1000] a in
   effects a3 = effects a ++ [Uncaught] /\ particleSystems a3 = []).
Proof.
  intros host a.
  assert (Hh : hung a = false) by reflexivity.
  assert (Hf : timersFresh a) by (vm_compute; constructor).
  assert (Hi : hoveredMarker a = Some 0%nat) by reflexivity.
  split; [exact Hh|]. split; [exact Hf|]. split; [exact Hi|]. split.
  - destruct (double_click_burst (host := host) GeoMap a 0 (Some 1%nat) 1000 Hh Hf Hi)
      as (_ & _ & _ & Hburst).
    destruct (earthquakeMarkers a !! 1%nat) as [marker|] eqn:Hm;
      [|vm_compute in Hm; discriminate].
    destruct (Hburst marker eq_refl) as [Hp _].
    { vm_compute in Hm. injection Hm as <-. discriminate. }
    cbv zeta. change (nextTimerId a) with 1%positive in Hp.
    change (@run host GeoMap [DoubleClick; MouseMove (Some 1%nat); TimerFires 1 1000] a)
      with (@step host GeoMap (TimerFires 1 1000)
              (@step host GeoMap (MouseMove (Some 1%nat)) (@step host GeoMap DoubleClick a))).
    rewrite Hp. vm_compute in Hm. injection Hm as <-. vm_compute. reflexivity.
  - destruct (double_click_burst (host := host) GeoMap a 0 None 1000 Hh Hf Hi)
      as (_ & _ & _ & He & Hp).
    split; [exact He|exact Hp].
Defined.

(** Two markers at rest, the pointer nowhere: hovering over marker 0 and
    leaving it brings the state back. *)
Lemma hover_round_trip_witness :
  let host := exampleHost (fun _ => 0%Q) in
  let a := Session.start 0 2 in
  hoveredMarker a = None /\
  (exists m, earthquakeMarkers a !! 0%nat = Some m /\ @unemphasised GeoMap m) /\
  @onMouseMove GeoMap None (@onMouseMove GeoMap (Some 0%nat) a) = a.
Proof.
  intros host a.
  assert (Hh : hoveredMarker a = None) by reflexivity.
  destruct (earthquakeMarkers a !! 0%nat) as [m|] eqn:Hm; [|vm_compute in Hm; discriminate].
  destruct (earthquakeMarkers a !! 1%nat) as [mj|] eqn:Hmj; [|vm_compute in Hmj; discriminate].
  assert (Hu : @unemphasised GeoMap m).
  { vm_compute in Hm. injection Hm as <-. split; reflexivity. }
  split; [exact Hh|]. split; [exists m; split; [reflexivity|exact Hu]|].
  apply (hover_round_trip GeoMap a 0 1 m mj Hh Hm Hu Hmj). discriminate.
Defined.

(** A pulse of period 700 ms resumed 100 ms after its start. *)
Lemma chaos_pulse_bounds_witness :
  let host := exampleHost (fun _ => 0%Q) in
  let a := @step host GeoMap (SetMode (lit "chaos") 0) (Session.start 0 1) in
  (forall x : Q, exists s : Q, Math_sin (Fin x) = Fin s /\ (-1 <= s <= 1)%Q) /\
  (0 < 700)%Q /\ isMode "chaos" a = true /\
  (exists m, earthquakeMarkers a !! 0%nat = Some m) /\
  frameRequests (@pulse host GeoMap 100 0 0 (Fin 700) a) =
    frameRequests a ++ [Pulse 0 0 (Fin 700)].
Proof.
  intros host a.
  assert (Hsin : forall x : Q, exists s : Q, Math_sin (Fin x) = Fin s /\ (-1 <= s <= 1)%Q).
  { intros x. exists 0%Q. split; [reflexivity|]. split; discriminate. }
  assert (Hd : (0 < 700)%Q) by reflexivity.
  assert (Hmode : isMode "chaos" a = true) by reflexivity.
  destruct (earthquakeMarkers a !! 0%nat) as [m|] eqn:Hm; [|vm_compute in Hm; discriminate].
  split; [exact Hsin|]. split; [exact Hd|]. split; [exact Hmode|].
  split; [exists m; reflexivity|].
  destruct (chaos_pulse_bounds (host := host) GeoMap a 0 m 100 0 700 Hsin Hd Hmode Hm)
    as (s & m' & _ & _ & _ & _ & _ & _ & _ & _ & Hf & _).
  exact Hf.
Defined.

(** The record of the worked sessions: depth 15 km, magnitude 3.4; as the
    eleventh marker of the map it is lifted to 85 and falls for 3000 ms,
    300 ms after the switch. *)
Lemma rain_parameters_witness :
  let host := exampleHost (fun _ => 0%Q) in
  let quake := parseLine Session.row in
  @fallsInRain host GeoMap quake /\
  Num.eqv (rainStartY GeoMap 10) (Fin 85) /\
  Num.eqv (rainFallDuration GeoMap (Quake.magnitud quake)) (Fin 3000) /\
  Num.eqv (rainDelay GeoMap 10) (Fin 300).
Proof.
  intros host quake.
  assert (Hq : @fallsInRain host GeoMap quake).
  { split; eexists; (split; [vm_compute; reflexivity|]); vm_compute; discriminate. }
  split; [exact Hq|].
  destruct (rain_parameters (host := host) GeoMap quake 10 Hq)
    as (sy & ty & d & delay & m & Hsy & _ & Hm & Hd & Hdelay & _ & _ & Esy & _ & Ed & Edelay).
  rewrite Hsy, Hd, Hdelay. cbn [Num.eqv]. rewrite Esy, Ed, Edelay.
  vm_compute in Hm. injection Hm as <-. repeat split; reflexivity.
Defined.

(** Chaos entered with two markers and a [Math.random] that always returns
    0.99: two pulses and two delayed bursts. *)
Lemma chaos_schedule_witness :
  let host := exampleHost (fun _ => 0.99%Q) in
  let b := @setMode host GeoMap (lit "chaos") 0 (Session.start 0.99 2) in
  random_in_range host /\
  length (frameRequests b) = 3%nat /\ length (timers b) = 2%nat /\
  particleSystems b = [].
Proof.
  intros host b.
  assert (Hr : random_in_range host) by (intros n; split; [discriminate|reflexivity]).
  split; [exact Hr|].
  destruct (chaos_schedule (host := host) GeoMap 0 (Session.start 0.99 2) Hr)
    as (pulses & bursts & Hf & Hpulses & Ht & _ & _ & _ & _ & Hp & _).
  fold b in Hf, Ht, Hp.
  split; [|split; [reflexivity|exact Hp]].
  rewrite Hf, length_app. apply Forall2_length in Hpulses. rewrite <- Hpulses. reflexivity.
Defined.


(** History entered, then Chaos: the interval is set, then gone. *)
Lemma history_interval_tracks_mode_witness :
  let host := exampleHost (fun _ => 0%Q) in
  let a := @step host GeoMap (SetMode (lit "history") 0) (Session.start 0 2) in
  let b := @step host GeoMap (SetMode (lit "chaos") 100) a in
  @reachable host GeoMap a /\ @reachable host GeoMap b /\
  List.filter isHistoryTimer (timers a) = [mkTimer 1 true (Fin 120) HistoryTick] /\
  List.filter isHistoryTimer (timers b) = [].
Proof.
  intros host a b.
  assert (Ha : @reachable host GeoMap a) by (apply reachable_step, reachable_init).
  assert (Hb : @reachable host GeoMap b) by (apply reachable_step, Ha).
  split; [exact Ha|]. split; [exact Hb|]. split.
  - pose proof (history_interval_tracks_mode (host := host) GeoMap a Ha) as [_ H].
    change (modeInterval a) with (Some 1%positive) in H. destruct H as [_ H]. exact H.
  - pose proof (history_interval_tracks_mode (host := host) GeoMap b Hb) as [_ H].
    change (modeInterval b) with (@None positive) in H. destruct H as [_ H]. exact H.
Defined.

